(** * The guard-mode zone allocator (osfmk/kern/gzalloc.c)

    A shallow embedding of [gzalloc_configure], [gzalloc_zone_init],
    [gzalloc_alloc] and [gzalloc_free] together with the properties
    claimed for them and further properties read off the code.

    Machine integers are mathematical integers with the wrap-around of
    their C type written out.  The globals of the file form a record that
    is threaded through the calls; what the routines observe of the rest
    of the kernel (readiness flags, preemption level, the results of the
    virtual-memory calls) is an environment record supplied per call; the
    calls they make to the virtual-memory subsystem are appended to a log.
    Calls are taken one at a time: the zone lock, under which the C code
    updates the zone, has no counterpart here. *)

From Stdlib Require Import ZArith Lia Bool List.
From stdpp Require Import base list.

Local Open Scope Z_scope.

(** ** Machine arithmetic *)

(** Conversion to [uint32_t]. *)
Definition u32 (x : Z) : Z := x mod 2 ^ 32.

(** Conversion to a 64-bit unsigned type ([vm_offset_t], [vm_size_t],
    [uint64_t] on LP64). *)
Definition u64 (x : Z) : Z := x mod 2 ^ 64.

(** The cast [(SInt32) x]: the low 32 bits, read as two's complement. *)
Definition SInt32 (x : Z) : Z := (x + 2 ^ 31) mod 2 ^ 32 - 2 ^ 31.

(** Conversion to [int] (the type of [zone->count]). *)
Definition s32 (x : Z) : Z := SInt32 x.

(** [OSAddAtomic64 (amount, &v)]: 64-bit two's complement addition. *)
Definition OSAddAtomic64 (amount v : Z) : Z := u64 (v + amount).

(** ** Constants *)

Definition TRUE : Z := 1.
Definition ZONE_NULL : Z := 0.
Definition GZDEADZONE : Z := 0xDEAD201E.
Definition GZALLOC_SIGNATURE : Z := 0xABADCAFE.
Definition GZALLOC_RESERVE_SIZE_DEFAULT : Z := 2 * 1024 * 1024.
Definition GZFC_DEFAULT_SIZE : Z := 1024.
Definition gzalloc_fill_pattern : Z := 0x67.

(** Modelled from the spec: the page geometry comes from <mach/vm_param.h>,
    which is not part of the sources at hand.  The spec speaks of pages and
    of [pageRound]; the 4 KiB page of the x86_64 kernel is used. *)
Definition PAGE_SHIFT : Z := 12.
Definition PAGE_SIZE : Z := 2 ^ PAGE_SHIFT.
Definition PAGE_MASK : Z := PAGE_SIZE - 1.

(** Modelled from the spec: [pageRound], the macro [round_page] of
    <mach/vm_param.h>: add the mask, clear the low bits, in [vm_offset_t]. *)
Definition round_page (x : Z) : Z :=
  Z.land (u64 (x + PAGE_MASK)) (u64 (Z.lnot PAGE_MASK)).

(** Modelled from the spec: results, flags and protections of the
    virtual-memory interface (<mach/kern_return.h>, <vm/vm_kern.h>,
    <mach/vm_prot.h>, <vm/vm_map.h>), which the spec treats as an external
    collaborator that reports success or failure. *)
Definition KERN_SUCCESS : Z := 0.
Definition KMA_KOBJECT : Z := 0x02.
Definition KMA_GUARD_FIRST : Z := 0x10.
Definition KMA_GUARD_LAST : Z := 0x20.
Definition VM_PROT_NONE : Z := 0.
Definition VM_PROT_READ : Z := 1.
Definition VM_MAP_REMOVE_KUNWIRE : Z := 0x1.

(** ** Data *)

(** [struct gzalloc_header]. *)
Record gzhdr_t : Type := mk_gzhdr {
  gzone : Z;    (* zone_t    *)
  gzsize : Z;   (* uint32_t  *)
  gzsig : Z     (* uint32_t  *)
}.

(** [sizeof(gzhdr_t)] on LP64: a pointer and two 32-bit words. *)
Definition GZHEADER_SIZE : Z := 16.

(** Modelled from the spec: the per-size-class guard state
    ([gzalloc_data_t], declared in <kern/zalloc.h>): the write cursor and
    the cache array.  The array the C code reaches through the pointer
    [gzfc] is kept here as a list; the empty list stands for the null
    pointer left by [bzero]. *)
Record gzalloc_data_t : Type := mk_gz {
  gzfc_index : Z;     (* uint32_t      *)
  gzfc : list Z       (* vm_offset_t * *)
}.

(** Modelled from the spec: the fields of the host allocator's
    [struct zone] (<kern/zalloc.h>) that this file reads or writes.  A
    [zone_t] is a pointer; [zone_ptr] is its value, which is what a header
    records as the zone of origin. *)
Record zone : Type := mk_zone {
  zone_ptr : Z;
  count : Z;                (* int       *)
  sum_count : Z;            (* uint64_t  *)
  cur_size : Z;             (* vm_size_t *)
  elem_size : Z;            (* vm_size_t *)
  gzalloc_exempt : bool;
  gz : gzalloc_data_t
}.

(** The configuration globals, set by [gzalloc_configure] during start-up
    and only read by the routines below.  [mach_assert] says whether the
    kernel was built with [assert] compiled in. *)
Record gz_config : Type := mk_config {
  gzalloc_mode : bool;
  gzalloc_min : Z;                      (* uint32_t *)
  gzalloc_max : Z;                      (* uint32_t *)
  gzalloc_uf_mode : bool;
  gzalloc_consistency_checks : bool;
  gzalloc_prot : Z;
  gzalloc_guard : Z;
  gzfc_size : Z;                        (* uint32_t *)
  mach_assert : bool
}.

(** The statistics globals. *)
Record gz_counters : Type := mk_counters {
  pdzalloc_count : Z;        (* uint32_t *)
  pdzfree_count : Z;         (* uint32_t *)
  gzalloc_allocated : Z;     (* uint64_t *)
  gzalloc_freed : Z;
  gzalloc_early_alloc : Z;
  gzalloc_early_free : Z;
  gzalloc_wasted : Z
}.

(** Calls made to the virtual-memory subsystem. *)
Inductive vm_map_t : Type := kernel_map | gzalloc_map.

Inductive vm_call : Type :=
| Kernel_memory_allocate (map : vm_map_t) (size mask flags : Z)
| Vm_map_protect (map : vm_map_t) (start_ end_ prot : Z)
| Vm_map_remove (map : vm_map_t) (start_ end_ flags : Z).

(** The state the routines own.  Memory is seen at the granularity of
    headers: [mem a] is what a read of a header at address [a] returns.
    The writes of the routines are followed for reads at the address a
    header was stored to, for reads that lie wholly inside a filled range
    and for reads that share no byte with what was written; a read that
    overlaps a write only in part is not followed, and no statement below
    reads there. *)
Record gz_state : Type := mk_state {
  cfg : gz_config;
  ctr : gz_counters;
  gzalloc_reserve : Z;         (* vm_offset_t *)
  gzalloc_reserve_size : Z;    (* vm_size_t   *)
  mem : Z -> gzhdr_t;
  vm_log : list vm_call        (* latest call first *)
}.

(** What a call observes of the rest of the kernel: the readiness flags,
    the preemption level, and what the virtual-memory calls it may make
    answer. *)
Record gz_env : Type := mk_env {
  kmem_ready : bool;
  vm_page_zone : Z;               (* zone_t *)
  preemption_level : Z;           (* get_preemption_level () *)
  kma_kr : Z;                     (* kernel_memory_allocate: result ... *)
  kma_addr : Z;                   (* ... and the address it stores      *)
  protect_kr : Z;                 (* vm_map_protect *)
  remove_kr : Z                   (* vm_map_remove  *)
}.

(** ** Outcomes *)

Inductive panic_t : Type :=
| Panic_reserve_exhausted
| Panic_kernel_memory_allocate
| Panic_assert
| Panic_signature_mismatch
| Panic_mismatched_zone
| Panic_mismatched_size
| Panic_vm_map_protect
| Panic_vm_map_remove.

(** A call returns, or stops the kernel in [panic], or reads outside the
    cache array (behaviour C leaves undefined). *)
Inductive outcome (A : Type) : Type :=
| Ok (a : A)
| Panic (p : panic_t)
| Fault.
Arguments Ok {A} a.
Arguments Panic {A} p.
Arguments Fault {A}.

#[global] Instance outcome_ret : MRet outcome := @Ok.

#[global] Instance outcome_bind : MBind outcome := fun A B k m =>
  match m with
  | Ok a => k a
  | Panic p => Panic p
  | Fault => Fault
  end.

(** [if (cond) panic (...)]. *)
Definition panic_if (cond : bool) (p : panic_t) : outcome unit :=
  if cond then Panic p else Ok tt.

(** [assert (cond)]: checked only in kernels built with assertions. *)
Definition assert (c : gz_config) (cond : bool) : outcome unit :=
  panic_if (mach_assert c && negb cond) Panic_assert.

(** ** Field updates *)

Definition set_gz (z : zone) (g : gzalloc_data_t) : zone :=
  mk_zone (zone_ptr z) (count z) (sum_count z) (cur_size z) (elem_size z)
          (gzalloc_exempt z) g.

Definition set_usage (z : zone) (c sc cs : Z) : zone :=
  mk_zone (zone_ptr z) c sc cs (elem_size z) (gzalloc_exempt z) (gz z).

Definition set_ctr (st : gz_state) (c : gz_counters) : gz_state :=
  mk_state (cfg st) c (gzalloc_reserve st) (gzalloc_reserve_size st)
           (mem st) (vm_log st).

Definition set_reserve (st : gz_state) (r rs : Z) : gz_state :=
  mk_state (cfg st) (ctr st) r rs (mem st) (vm_log st).

Definition set_mem (st : gz_state) (m : Z -> gzhdr_t) : gz_state :=
  mk_state (cfg st) (ctr st) (gzalloc_reserve st) (gzalloc_reserve_size st)
           m (vm_log st).

(** Record a call to the virtual-memory subsystem. *)
Definition vm_do (st : gz_state) (c : vm_call) : gz_state :=
  mk_state (cfg st) (ctr st) (gzalloc_reserve st) (gzalloc_reserve_size st)
           (mem st) (c :: vm_log st).

Definition set_pdzalloc_count (c : gz_counters) (v : Z) : gz_counters :=
  mk_counters v (pdzfree_count c) (gzalloc_allocated c) (gzalloc_freed c)
              (gzalloc_early_alloc c) (gzalloc_early_free c) (gzalloc_wasted c).

Definition set_pdzfree_count (c : gz_counters) (v : Z) : gz_counters :=
  mk_counters (pdzalloc_count c) v (gzalloc_allocated c) (gzalloc_freed c)
              (gzalloc_early_alloc c) (gzalloc_early_free c) (gzalloc_wasted c).

Definition set_gzalloc_allocated (c : gz_counters) (v : Z) : gz_counters :=
  mk_counters (pdzalloc_count c) (pdzfree_count c) v (gzalloc_freed c)
              (gzalloc_early_alloc c) (gzalloc_early_free c) (gzalloc_wasted c).

Definition set_gzalloc_freed (c : gz_counters) (v : Z) : gz_counters :=
  mk_counters (pdzalloc_count c) (pdzfree_count c) (gzalloc_allocated c) v
              (gzalloc_early_alloc c) (gzalloc_early_free c) (gzalloc_wasted c).

Definition set_gzalloc_early_alloc (c : gz_counters) (v : Z) : gz_counters :=
  mk_counters (pdzalloc_count c) (pdzfree_count c) (gzalloc_allocated c)
              (gzalloc_freed c) v (gzalloc_early_free c) (gzalloc_wasted c).

Definition set_gzalloc_early_free (c : gz_counters) (v : Z) : gz_counters :=
  mk_counters (pdzalloc_count c) (pdzfree_count c) (gzalloc_allocated c)
              (gzalloc_freed c) (gzalloc_early_alloc c) v (gzalloc_wasted c).

Definition set_gzalloc_wasted (c : gz_counters) (v : Z) : gz_counters :=
  mk_counters (pdzalloc_count c) (pdzfree_count c) (gzalloc_allocated c)
              (gzalloc_freed c) (gzalloc_early_alloc c) (gzalloc_early_free c) v.

(** ** The routines *)

(** [gzalloc_enabled]. *)
Definition gzalloc_enabled (st : gz_state) : bool := gzalloc_mode (cfg st).

(** The test that opens both [gzalloc_alloc] and [gzalloc_free]. *)
Definition gz_eligible (c : gz_config) (z : zone) : bool :=
  gzalloc_mode c
  && ((gzalloc_min c <=? elem_size z) && (elem_size z <=? gzalloc_max c))
  && negb (gzalloc_exempt z).

(** The locals [rounded_size] and [residue] of both routines. *)
Definition gz_rounded_size (z : zone) : Z :=
  round_page (u64 (elem_size z + GZHEADER_SIZE)).

Definition gz_residue (z : zone) : Z :=
  u64 (gz_rounded_size z - elem_size z).

(** [memset ((void * ) start, gzalloc_fill_pattern, len)], as it shows in
    the reads that lie wholly inside the filled range; a read that
    straddles an end of the range is left as it was (see [gz_state]). *)
Definition fill_hdr : gzhdr_t :=
  mk_gzhdr 0x6767676767676767 0x67676767 0x67676767.

Definition memset (m : Z -> gzhdr_t) (start_ len : Z) : Z -> gzhdr_t :=
  fun a =>
    if (start_ <=? a) && (a + GZHEADER_SIZE <=? start_ + len)
    then fill_hdr else m a.

(** [*gzh = h], as it shows in the read at [gzh]; reads that share only
    some bytes with the stored header are left as they were (see
    [gz_state]). *)
Definition store_hdr (m : Z -> gzhdr_t) (gzh : Z) (h : gzhdr_t) : Z -> gzhdr_t :=
  fun a => if a =? gzh then h else m a.

(** [gzalloc_zone_init]. *)
Definition gzalloc_zone_init (e : gz_env) (st : gz_state) (z : zone)
  : outcome (gz_state * zone) :=
  let c := cfg st in
  if gzalloc_mode c then
    let z := set_gz z (mk_gz 0 []) in
    if negb (gzfc_size c =? 0)
       && (gzalloc_min c <=? elem_size z) && (elem_size z <=? gzalloc_max c)
       && negb (gzalloc_exempt z)
    then
      let gzfcsz := round_page (u64 (8 * gzfc_size c)) in
      st ← (if negb (kmem_ready e) then
              _ ← panic_if (gzalloc_reserve_size st <? gzfcsz)
                           Panic_reserve_exhausted;
              Ok (set_reserve st (u64 (gzalloc_reserve st + gzfcsz))
                                 (u64 (gzalloc_reserve_size st - gzfcsz)))
            else
              let st :=
                vm_do st (Kernel_memory_allocate kernel_map gzfcsz 0 KMA_KOBJECT) in
              _ ← panic_if (negb (kma_kr e =? KERN_SUCCESS))
                           Panic_kernel_memory_allocate;
              Ok st);
      Ok (st, set_gz z (mk_gz 0 (replicate (Z.to_nat (gzfcsz / 8)) 0)))
    else Ok (st, z)
  else Ok (st, z).

(** Where [gzalloc_alloc] gets the backing memory from: the early reserve
    or the guard map.  Returns [gzaddr]. *)
Definition gzalloc_backing (e : gz_env) (st : gz_state) (rounded_size : Z)
  : outcome (Z * gz_state) :=
  if negb (kmem_ready e) || (vm_page_zone e =? ZONE_NULL) then
    _ ← panic_if (gzalloc_reserve_size st <? rounded_size)
                 Panic_reserve_exhausted;
    let gzaddr := gzalloc_reserve st in
    let st := set_reserve st
                (u64 (gzalloc_reserve st + u64 (rounded_size + PAGE_SIZE)))
                (u64 (gzalloc_reserve_size st - u64 (rounded_size + PAGE_SIZE))) in
    let st := set_ctr st (set_gzalloc_early_alloc (ctr st)
                (OSAddAtomic64 (SInt32 rounded_size)
                               (gzalloc_early_alloc (ctr st)))) in
    Ok (gzaddr, st)
  else
    let st := vm_do st (Kernel_memory_allocate gzalloc_map
                          (u64 (rounded_size + 1 * PAGE_SIZE)) 0
                          (Z.lor KMA_KOBJECT (gzalloc_guard (cfg st)))) in
    _ ← panic_if (negb (kma_kr e =? KERN_SUCCESS))
                 Panic_kernel_memory_allocate;
    Ok (kma_addr e, st).

(** The placement step of [gzalloc_alloc]: from the base [gzaddr] of the
    backing memory to the (adjusted) [gzaddr], the header pointer [gzh]
    and the returned [addr]. *)
Definition gzalloc_place (uf_mode : bool) (z : zone) (gzaddr : Z) : Z * Z * Z :=
  if uf_mode then
    let gzaddr := u64 (gzaddr + PAGE_SIZE) in
    (gzaddr, u64 (gzaddr + elem_size z), gzaddr)
  else
    (gzaddr, u64 (u64 (gzaddr + gz_residue z) - GZHEADER_SIZE),
     u64 (gzaddr + gz_residue z)).

(** [gzalloc_alloc]; returns the address, 0 when the caller is to use the
    ordinary path. *)
Definition gzalloc_alloc (e : gz_env) (st : gz_state) (z : zone) (canblock : Z)
  : outcome (Z * gz_state * zone) :=
  if gz_eligible (cfg st) z then
    if negb (preemption_level e =? 0) && negb (canblock =? TRUE) then
      Ok (0, st, z)
    else
      let st :=
        if negb (preemption_level e =? 0) then
          set_ctr st (set_pdzalloc_count (ctr st)
                        (u32 (pdzalloc_count (ctr st) + 1)))
        else st in
      let rounded_size := gz_rounded_size z in
      '(gzaddr, st) ← gzalloc_backing e st rounded_size;
      let '(gzaddr, gzh, addr) := gzalloc_place (gzalloc_uf_mode (cfg st)) z gzaddr in
      let m := memset (mem st) gzaddr rounded_size in
      let h := mk_gzhdr
                 (if kmem_ready e && negb (vm_page_zone e =? ZONE_NULL)
                  then zone_ptr z else GZDEADZONE)
                 (u32 (elem_size z))
                 GZALLOC_SIGNATURE in
      let st := set_mem st (store_hdr m gzh h) in
      let z := set_usage z (s32 (count z + 1)) (u64 (sum_count z + 1))
                           (u64 (cur_size z + rounded_size)) in
      let st := set_ctr st (set_gzalloc_allocated (ctr st)
                  (OSAddAtomic64 (SInt32 rounded_size)
                                 (gzalloc_allocated (ctr st)))) in
      let st := set_ctr st (set_gzalloc_wasted (ctr st)
                  (OSAddAtomic64 (SInt32 (u64 (rounded_size - elem_size z)))
                                 (gzalloc_wasted (ctr st)))) in
      Ok (addr, st, z)
  else Ok (0, st, z).

(** The first step of [gzalloc_free]: from the freed [addr] to the header
    pointer [gzh] and the start [saddr] of the region. *)
Definition gzfree_locate (uf_mode : bool) (z : zone) (addr : Z) : Z * Z :=
  if uf_mode then
    (u64 (addr + elem_size z), u64 (addr - PAGE_SIZE))
  else
    (u64 (addr - GZHEADER_SIZE), u64 (addr - gz_residue z)).

(** The three checks [gzalloc_free] makes on the header when
    [gzalloc_consistency_checks] is set. *)
Definition gzfree_check (z : zone) (h : gzhdr_t) : outcome unit :=
  _ ← panic_if (negb (gzsig h =? GZALLOC_SIGNATURE)) Panic_signature_mismatch;
  _ ← panic_if (negb (gzone h =? zone_ptr z) && negb (gzone h =? GZDEADZONE))
               Panic_mismatched_zone;
  panic_if (negb (gzsize h =? elem_size z)) Panic_mismatched_size.

(** The insertion of [saddr] into the free element cache: wrap the cursor,
    read the slot, overwrite it, advance the cursor.  Returns [free_addr]. *)
Definition gzfc_admit (capacity : Z) (g : gzalloc_data_t) (saddr : Z)
  : outcome (Z * gzalloc_data_t) :=
  let index := if capacity <=? gzfc_index g then 0 else gzfc_index g in
  match gzfc g !! Z.to_nat index with
  | Some free_addr =>
      Ok (free_addr,
          mk_gz (u32 (index + 1)) (<[Z.to_nat index := saddr]> (gzfc g)))
  | None => Fault
  end.

(** [gzalloc_free]; returns whether the free was handled here. *)
Definition gzalloc_free (e : gz_env) (st : gz_state) (z : zone) (addr : Z)
  : outcome (bool * gz_state * zone) :=
  let c := cfg st in
  if gz_eligible c z then
    let rounded_size := gz_rounded_size z in
    let '(gzh, saddr) := gzfree_locate (gzalloc_uf_mode c) z addr in
    _ ← assert c (Z.land saddr PAGE_MASK =? 0);
    _ ← (if gzalloc_consistency_checks c
          then gzfree_check z (mem st gzh) else Ok tt);
    if negb (kmem_ready e) || (gzone (mem st gzh) =? GZDEADZONE) then
      let st := set_ctr st (set_gzalloc_early_free (ctr st)
                  (OSAddAtomic64 (SInt32 rounded_size)
                                 (gzalloc_early_free (ctr st)))) in
      Ok (true, st, z)
    else
      let st :=
        if negb (preemption_level e =? 0) then
          set_ctr st (set_pdzfree_count (ctr st)
                        (u32 (pdzfree_count (ctr st) + 1)))
        else st in
      '(free_addr, st) ←
        (if negb (gzfc_size c =? 0) then
           let st := vm_do st (Vm_map_protect gzalloc_map saddr
                                 (u64 (saddr + rounded_size + 1 * PAGE_SIZE))
                                 (gzalloc_prot c)) in
           _ ← panic_if (negb (protect_kr e =? KERN_SUCCESS))
                        Panic_vm_map_protect;
           Ok (0, st)
         else Ok (saddr, st));
      '(free_addr, z) ←
        (if negb (gzfc_size c =? 0) then
           '(free_addr, g) ← gzfc_admit (gzfc_size c) (gz z) saddr;
           Ok (free_addr, set_gz z g)
         else Ok (free_addr, z));
      let z :=
        if negb (free_addr =? 0) then
          set_usage z (s32 (count z - 1)) (sum_count z)
                      (u64 (cur_size z - rounded_size))
        else z in
      if negb (free_addr =? 0) then
        let st := vm_do st (Vm_map_remove gzalloc_map free_addr
                              (u64 (free_addr + rounded_size + 1 * PAGE_SIZE))
                              VM_MAP_REMOVE_KUNWIRE) in
        _ ← panic_if (negb (remove_kr e =? KERN_SUCCESS)) Panic_vm_map_remove;
        let st := set_ctr st (set_gzalloc_freed (ctr st)
                    (OSAddAtomic64 (SInt32 rounded_size)
                                   (gzalloc_freed (ctr st)))) in
        let st := set_ctr st (set_gzalloc_wasted (ctr st)
                    (OSAddAtomic64
                       (SInt32 (- SInt32 (u64 (rounded_size - elem_size z))))
                       (gzalloc_wasted (ctr st)))) in
        Ok (true, st, z)
      else Ok (true, st, z)
  else Ok (false, st, z).

(** ** Derived notions used in the statements *)

(** The configuration holds values of its C types. *)
Definition wf_config (c : gz_config) : Prop :=
  0 <= gzalloc_min c < 2 ^ 32 /\ 0 <= gzalloc_max c < 2 ^ 32
  /\ 0 <= gzfc_size c < 2 ^ 32.

(** The allocation is served from the early reserve. *)
Definition gz_early (e : gz_env) : bool :=
  negb (kmem_ready e) || (vm_page_zone e =? ZONE_NULL).

(** The base of the backing memory of an allocation: the reserve pointer
    for an early allocation, else what [kernel_memory_allocate] stored. *)
Definition gzalloc_base (e : gz_env) (st : gz_state) : Z :=
  if gz_early e then gzalloc_reserve st else kma_addr e.

(** The header [gzalloc_alloc] writes. *)
Definition gzalloc_hdr (e : gz_env) (z : zone) : gzhdr_t :=
  mk_gzhdr (if kmem_ready e && negb (vm_page_zone e =? ZONE_NULL)
            then zone_ptr z else GZDEADZONE)
           (u32 (elem_size z)) GZALLOC_SIGNATURE.

(** The caller reaches the guarded path: it is not turned away for being
    at elevated preemption level without permission to block. *)
Definition gz_admitted (e : gz_env) (canblock : Z) : bool :=
  negb (negb (preemption_level e =? 0) && negb (canblock =? TRUE)).

(** The backing memory is there: the reserve covers the rounded size, or
    [kernel_memory_allocate] succeeds. *)
Definition gzalloc_backed (e : gz_env) (st : gz_state) (z : zone) : bool :=
  if gz_early e then negb (gzalloc_reserve_size st <? gz_rounded_size z)
  else kma_kr e =? KERN_SUCCESS.

(** The header passes the three checks of [gzalloc_free]. *)
Definition hdr_consistent (z : zone) (h : gzhdr_t) : bool :=
  (gzsig h =? GZALLOC_SIGNATURE)
  && ((gzone h =? zone_ptr z) || (gzone h =? GZDEADZONE))
  && (gzsize h =? elem_size z).

(** The panics of the consistency checks. *)
Definition consistency_panic (p : panic_t) : bool :=
  match p with
  | Panic_signature_mismatch | Panic_mismatched_zone | Panic_mismatched_size => true
  | _ => false
  end.

(** The regions released to the guard map, and the protection changes
    applied to it, as recorded in a log. *)
Definition vm_removed (l : list vm_call) : list (Z * Z) :=
  omap (fun c => match c with
                 | Vm_map_remove gzalloc_map s e _ => Some (s, e)
                 | _ => None
                 end) l.

Definition vm_protected (l : list vm_call) : list (Z * Z * Z) :=
  omap (fun c => match c with
                 | Vm_map_protect gzalloc_map s e p => Some (s, e, p)
                 | _ => None
                 end) l.

(** The number of addresses a cache holds. *)
Definition gzfc_held (g : gzalloc_data_t) : nat :=
  length (filter (fun a => a ≠ 0) (gzfc g)).

(** The prelude of a free that is not early: the assertion and the checks
    pass and the test for an early allocation fails. *)
Definition gzfree_live (e : gz_env) (st : gz_state) (z : zone) (addr : Z) : Prop :=
  let loc := gzfree_locate (gzalloc_uf_mode (cfg st)) z addr in
  let h := mem st (fst loc) in
  assert (cfg st) (Z.land (snd loc) PAGE_MASK =? 0) = Ok tt
  /\ (gzalloc_consistency_checks (cfg st) = true -> hdr_consistent z h = true)
  /\ kmem_ready e = true
  /\ gzone h ≠ GZDEADZONE.

(** The slots of the cache array that the cursor can reach are there, and
    no address is held outside them. *)
Definition gzfc_ok (capacity : Z) (g : gzalloc_data_t) : Prop :=
  (Z.to_nat capacity <= length (gzfc g))%nat
  /\ forall (i : nat) (a : Z),
       gzfc g !! i = Some a -> a ≠ 0 -> (i < Z.to_nat capacity)%nat.

(** The slot an admission uses: the cursor, wrapped. *)
Definition gzfc_slot (capacity : Z) (g : gzalloc_data_t) : Z :=
  if capacity <=? gzfc_index g then 0 else gzfc_index g.

(** The start of the region [gzalloc_free] derives from an address. *)
Definition gzfree_saddr (c : gz_config) (z : zone) (addr : Z) : Z :=
  snd (gzfree_locate (gzalloc_uf_mode c) z addr).

(** Between two states nothing was released: no region was removed from
    the guard map, and the zone's element count and byte total and the
    freed and wasted counters stand as they were. *)
Definition gz_retained (st : gz_state) (z : zone) (st' : gz_state) (z' : zone)
  : Prop :=
  vm_removed (vm_log st') = vm_removed (vm_log st)
  /\ count z' = count z
  /\ cur_size z' = cur_size z
  /\ gzalloc_freed (ctr st') = gzalloc_freed (ctr st)
  /\ gzalloc_wasted (ctr st') = gzalloc_wasted (ctr st).

(** What a free reads and does not write: the configuration, the memory
    and the identity of the zone. *)
Definition gz_same_view (st : gz_state) (z : zone) (st' : gz_state) (z' : zone)
  : Prop :=
  cfg st' = cfg st /\ mem st' = mem st
  /\ zone_ptr z' = zone_ptr z /\ elem_size z' = elem_size z
  /\ gzalloc_exempt z' = gzalloc_exempt z.

(** The cursor has advanced at most [k] times and every slot from the
    cursor on is unused. *)
Definition gzfc_unused_from (k : nat) (g : gzalloc_data_t) : Prop :=
  0 <= gzfc_index g <= Z.of_nat k
  /\ forall (i : nat) (a : Z),
       gzfc g !! i = Some a -> (Z.to_nat (gzfc_index g) <= i)%nat -> a = 0.

(** The cache of a zone as [gzalloc_zone_init] leaves it: the cursor at 0
    and [n] zeroed slots. *)
Definition gzfc_fresh (n : nat) : gzalloc_data_t := mk_gz 0 (replicate n 0).

(** Admitting a sequence of addresses; returns the eviction candidates
    in order. *)
Fixpoint gzfc_admit_all (capacity : Z) (g : gzalloc_data_t) (saddrs : list Z)
  : outcome (list Z * gzalloc_data_t) :=
  match saddrs with
  | [] => Ok ([], g)
  | saddr :: rest =>
      '(free_addr, g) ← gzfc_admit capacity g saddr;
      '(evicted, g) ← gzfc_admit_all capacity g rest;
      Ok (free_addr :: evicted, g)
  end.

(** A sequence of frees against one zone, each with its environment. *)
Fixpoint gzalloc_free_all (st : gz_state) (z : zone) (calls : list (gz_env * Z))
  : outcome (gz_state * zone) :=
  match calls with
  | [] => Ok (st, z)
  | (e, addr) :: rest =>
      '(_, st, z) ← gzalloc_free e st z addr;
      gzalloc_free_all st z rest
  end.

(** The call returned. *)
Definition is_Ok {A : Type} (o : outcome A) : bool :=
  match o with Ok _ => true | _ => false end.

(** ** Sample configurations *)

Definition sample_config (uf_mode : bool) (fc_size : Z) : gz_config :=
  mk_config true 1024 (2 ^ 32 - 1) uf_mode true VM_PROT_NONE
            (if uf_mode then KMA_GUARD_FIRST else KMA_GUARD_LAST)
            fc_size true.

Definition sample_state (uf_mode : bool) (fc_size : Z) : gz_state :=
  mk_state (sample_config uf_mode fc_size) (mk_counters 0 0 0 0 0 0 0)
           0xffffff8000100000 GZALLOC_RESERVE_SIZE_DEFAULT
           (fun _ => mk_gzhdr 0 0 0) [].

Definition sample_zone (size : Z) : zone :=
  mk_zone 0xffffff8012345000 0 0 0 size false (mk_gz 0 []).

(** A zone of 1024-byte elements with one guarded element allocated. *)
Definition sample_zone_used : zone :=
  mk_zone 0xffffff8012345000 1 1 4096 1024 false (mk_gz 0 []).

(** Before and after the virtual-memory subsystem is up. *)
Definition sample_env_early : gz_env :=
  mk_env false ZONE_NULL 0 KERN_SUCCESS 0 KERN_SUCCESS KERN_SUCCESS.

Definition sample_env (level : Z) (gzaddr : Z) : gz_env :=
  mk_env true 0xffffff8000c00000 level KERN_SUCCESS gzaddr
         KERN_SUCCESS KERN_SUCCESS.

(** A state whose memory holds header [h] at [gzh]. *)
Definition sample_state_hdr (uf_mode : bool) (fc_size : Z) (gzh : Z) (h : gzhdr_t)
  : gz_state :=
  set_mem (sample_state uf_mode fc_size)
          (store_hdr (mem (sample_state uf_mode fc_size)) gzh h).

(** A zone of 1024-byte elements is initialised with a cache of two slots
    in use, and three elements are allocated from it. *)
Definition sample_boot : outcome (gz_state * zone * list Z) :=
  '(st, z) ← gzalloc_zone_init (sample_env 0 0xffffff8090000000)
                                (sample_state false 2) (sample_zone 1024);
  '(a, st, z) ← gzalloc_alloc (sample_env 0 0xffffff8100000000) st z 1;
  '(b, st, z) ← gzalloc_alloc (sample_env 0 0xffffff8100002000) st z 1;
  '(c, st, z) ← gzalloc_alloc (sample_env 0 0xffffff8100004000) st z 1;
  Ok (st, z, [a; b; c]).

Definition sample_live_state : gz_state :=
  match sample_boot with Ok (st, _, _) => st | _ => sample_state false 2 end.

Definition sample_live_zone : zone :=
  match sample_boot with Ok (_, z, _) => z | _ => sample_zone 1024 end.

(** Repeated allocation from one zone. *)
Fixpoint gzalloc_alloc_n (n : nat) (e : gz_env) (st : gz_state) (z : zone)
  (canblock : Z) : outcome (gz_state * zone) :=
  match n with
  | O => Ok (st, z)
  | S n =>
      '(_, st, z) ← gzalloc_alloc e st z canblock;
      gzalloc_alloc_n n e st z canblock
  end.

(** Early start-up: from the reserve of [GZALLOC_RESERVE_SIZE_DEFAULT]
    bytes a zone of 1024-byte elements gets its cache, then 255 elements
    are allocated. *)
Definition sample_early_run : outcome (gz_state * zone) :=
  '(st, z) ← gzalloc_zone_init sample_env_early (sample_state false 2)
                                (sample_zone 1024);
  gzalloc_alloc_n 255 sample_env_early st z TRUE.

(** ** Start-up configuration *)

Definition GZALLOC_MIN_DEFAULT : Z := 1024.

(** [~0U]. *)
Definition UINT32_MAX : Z := u32 (Z.lnot 0).

(** Modelled from the spec: the build switches the file is compiled under
    ([ZONE_DEBUG] with its [ZONE_DEBUG_OFFSET] from <kern/zalloc.h>,
    [DEBUG], and whether [assert] is compiled in). *)
Record gz_build : Type := mk_build {
  ZONE_DEBUG : bool;
  ZONE_DEBUG_OFFSET : Z;
  DEBUG : bool;
  MACH_ASSERT : bool
}.

(** Modelled from the spec: what [PE_parse_boot_argn] finds on the boot
    command line: for a flag, whether it is there; for a parameter, the
    number it stores into the 32-bit variable, if the parameter is
    there. *)
Record boot_args : Type := mk_boot_args {
  arg_gzalloc_mode : bool;             (* -gzalloc_mode          *)
  arg_gzalloc_min : option Z;          (* gzalloc_min=<size>     *)
  arg_gzalloc_max : option Z;          (* gzalloc_max=<size>     *)
  arg_gzalloc_size : option Z;         (* gzalloc_size=<size>    *)
  arg_gzalloc_fc_size : option Z;      (* gzalloc_fc_size=<size> *)
  arg_gzalloc_wp : bool;               (* -gzalloc_wp            *)
  arg_gzalloc_uf_mode : bool;          (* -gzalloc_uf_mode       *)
  arg_gzalloc_noconsistency : bool;    (* -gzalloc_noconsistency *)
  arg_nogzalloc_mode : bool            (* -nogzalloc_mode        *)
}.

(** The numbers on the command line fit the 32-bit variables they are
    parsed into. *)
Definition boot_args_wf (a : boot_args) : Prop :=
  (forall v, arg_gzalloc_min a = Some v -> 0 <= v < 2 ^ 32)
  /\ (forall v, arg_gzalloc_max a = Some v -> 0 <= v < 2 ^ 32)
  /\ (forall v, arg_gzalloc_size a = Some v -> 0 <= v < 2 ^ 32)
  /\ (forall v, arg_gzalloc_fc_size a = Some v -> 0 <= v < 2 ^ 32).

(** The globals as their initialisers leave them, before
    [gzalloc_configure] runs. *)
Definition gz_initial (b : gz_build) (m : Z -> gzhdr_t) : gz_state :=
  mk_state
    (mk_config false UINT32_MAX 0 false true VM_PROT_NONE KMA_GUARD_LAST
               GZFC_DEFAULT_SIZE (MACH_ASSERT b))
    (mk_counters 0 0 0 0 0 0 0) 0 0 m [].

(** [gzalloc_configure].  [stolen] is the address [pmap_steal_memory]
    returns if it is called.  The global [gzalloc_size] is read nowhere
    else and is kept as a local. *)
Definition gzalloc_configure (b : gz_build) (a : boot_args) (stolen : Z)
  (st : gz_state) : gz_state :=
  let c := cfg st in
  let offset := if ZONE_DEBUG b then u32 (ZONE_DEBUG_OFFSET b) else 0 in
  let '(mode, gmin, gmax) :=
    if arg_gzalloc_mode a
    then (true, u32 (GZALLOC_MIN_DEFAULT + offset), UINT32_MAX)
    else (gzalloc_mode c, gzalloc_min c, gzalloc_max c) in
  let '(mode, gmin, gmax) :=
    match arg_gzalloc_min a with
    | Some v => (true, u32 (v + offset), UINT32_MAX)
    | None => (mode, gmin, gmax)
    end in
  let '(mode, gmin, gmax) :=
    match arg_gzalloc_max a with
    | Some v => (true, (if gmin =? UINT32_MAX then 0 else gmin), u32 (v + offset))
    | None => (mode, gmin, gmax)
    end in
  let '(mode, gmin, gmax) :=
    match arg_gzalloc_size a with
    | Some v => let gzalloc_size := u32 (v + offset) in
                (true, gzalloc_size, gzalloc_size)
    | None => (mode, gmin, gmax)
    end in
  let fc_size :=
    match arg_gzalloc_fc_size a with
    | Some v => v
    | None => gzfc_size c
    end in
  let prot := if arg_gzalloc_wp a then VM_PROT_READ else gzalloc_prot c in
  let '(uf_mode, guard) :=
    if arg_gzalloc_uf_mode a then (true, KMA_GUARD_FIRST)
    else (gzalloc_uf_mode c, gzalloc_guard c) in
  let checks :=
    if arg_gzalloc_noconsistency a then false
    else gzalloc_consistency_checks c in
  let '(mode, gmin, gmax, prot) :=
    if DEBUG b && negb mode then (true, 8192, 16384, VM_PROT_READ)
    else (mode, gmin, gmax, prot) in
  let mode := if arg_nogzalloc_mode a then false else mode in
  let c := mk_config mode gmin gmax uf_mode checks prot guard fc_size
                     (mach_assert c) in
  if mode then
    mk_state c (ctr st) stolen GZALLOC_RESERVE_SIZE_DEFAULT (mem st) (vm_log st)
  else
    mk_state c (ctr st) (gzalloc_reserve st) (gzalloc_reserve_size st)
             (mem st) (vm_log st).

(** The guard flag asked of [kernel_memory_allocate] matches the
    detection mode. *)
Definition guard_matches_mode (c : gz_config) : Prop :=
  gzalloc_guard c = if gzalloc_uf_mode c then KMA_GUARD_FIRST else KMA_GUARD_LAST.

(** The range of data pages of an allocation placed at [gzaddr]: where
    the fill pattern goes. *)
Definition gz_in_data (gzaddr rounded_size a : Z) : Prop :=
  gzaddr <= a /\ a + GZHEADER_SIZE <= gzaddr + rounded_size.

(** The cache, seen as a queue: the cursor stands at slot [c], the slots
    before it hold the [c] addresses of [q] freed last, the slots from it
    up to the capacity hold the addresses of [q] freed first, and [pad]
    is the rest of the array. *)
Definition gzfc_ring (capacity c : nat) (q pad : list Z) : gzalloc_data_t :=
  mk_gz (Z.of_nat c) (drop (capacity - c) q ++ take (capacity - c) q ++ pad).

(** Sample start-up: a release build, with the cache capacity given. *)
Definition sample_build : gz_build := mk_build false 16 false false.

Definition sample_boot_args (fixed_size : option Z) (off : bool) : boot_args :=
  mk_boot_args true None None fixed_size (Some 2) false false false off.

(** * Properties *)

(** ** Arithmetic *)

Lemma u64_range (x : Z) : 0 <= u64 x < 2 ^ 64.
Proof. apply Z.mod_pos_bound. lia. Qed.

Lemma u64_small (x : Z) : 0 <= x < 2 ^ 64 -> u64 x = x.
Proof. apply Z.mod_small. Qed.

Lemma u64_add_sub (b r : Z) : 0 <= b < 2 ^ 64 -> u64 (u64 (b + r) - r) = b.
Proof.
  intros Hb. unfold u64.
  rewrite Zminus_mod_idemp_l.
  replace (b + r - r) with b by lia.
  now apply Z.mod_small.
Qed.

Lemma SInt32_small (x : Z) : - 2 ^ 31 <= x < 2 ^ 31 -> SInt32 x = x.
Proof. intros Hx. unfold SInt32. rewrite Z.mod_small; lia. Qed.

Lemma round_page_div (x : Z) :
  round_page x = PAGE_SIZE * (u64 (x + PAGE_MASK) / PAGE_SIZE).
Proof.
  unfold round_page.
  set (a := u64 (x + PAGE_MASK)).
  assert (Ha : 0 <= a < 2 ^ 64) by apply u64_range.
  assert (E : Z.land a (u64 (Z.lnot PAGE_MASK)) = Z.ldiff a (Z.ones PAGE_SHIFT)).
  { apply Z.bits_inj'. intros n Hn.
    rewrite Z.land_spec, Z.ldiff_spec.
    destruct (Z.ltb_spec n 64).
    - unfold u64. rewrite Z.mod_pow2_bits_low by lia.
      rewrite Z.lnot_spec by lia. reflexivity.
    - unfold u64 at 1. rewrite Z.mod_pow2_bits_high by lia.
      rewrite andb_false_r.
      replace a with (a mod 2 ^ 64) by (apply Z.mod_small; lia).
      rewrite Z.mod_pow2_bits_high by lia. reflexivity. }
  rewrite E, Z.ldiff_ones_r by (unfold PAGE_SHIFT; lia).
  rewrite Z.shiftl_mul_pow2, Z.shiftr_div_pow2 by (unfold PAGE_SHIFT; lia).
  unfold PAGE_SIZE. lia.
Qed.

(** Below the top page of the address space [round_page] is the next
    multiple of the page size. *)
Lemma round_page_bounds (x : Z) :
  0 <= x < 2 ^ 64 - PAGE_SIZE ->
  x <= round_page x < x + PAGE_SIZE /\ round_page x mod PAGE_SIZE = 0.
Proof.
  intros Hx. rewrite round_page_div.
  assert (HP : PAGE_SIZE = 4096) by reflexivity.
  assert (HM : PAGE_MASK = 4095) by reflexivity.
  rewrite u64_small by lia.
  rewrite HM, HP in *.
  pose proof (Z.div_mod (x + 4095) 4096 ltac:(lia)) as D.
  pose proof (Z.mod_pos_bound (x + 4095) 4096 ltac:(lia)) as B.
  split; [lia|].
  rewrite Z.mul_comm. apply Z.mod_mul. lia.
Qed.

Lemma page_aligned_land (a : Z) :
  Z.land a PAGE_MASK = 0 <-> a mod PAGE_SIZE = 0.
Proof.
  change PAGE_MASK with (Z.ones PAGE_SHIFT).
  rewrite Z.land_ones by (unfold PAGE_SHIFT; lia). reflexivity.
Qed.

(** The geometry of an element whose size fits 32 bits. *)
Lemma gz_geometry (z : zone) :
  0 <= elem_size z < 2 ^ 32 ->
  gz_rounded_size z = round_page (elem_size z + GZHEADER_SIZE)
  /\ gz_residue z = gz_rounded_size z - elem_size z
  /\ GZHEADER_SIZE <= gz_residue z < GZHEADER_SIZE + PAGE_SIZE
  /\ gz_rounded_size z mod PAGE_SIZE = 0
  /\ 0 < gz_rounded_size z <= 2 ^ 32 + PAGE_SIZE.
Proof.
  intros Hz. unfold gz_residue, gz_rounded_size.
  assert (HP : PAGE_SIZE = 4096) by reflexivity.
  assert (HH : GZHEADER_SIZE = 16) by reflexivity.
  rewrite HH, HP in *.
  rewrite (u64_small (elem_size z + 16)) by lia.
  destruct (round_page_bounds (elem_size z + 16)) as [B M]; [rewrite HP; lia|].
  rewrite HP in *.
  set (r := round_page (elem_size z + 16)) in *.
  rewrite u64_small by lia.
  repeat split; try lia.
  pose proof (Z.div_mod r 4096 ltac:(lia)) as D. lia.
Qed.

Lemma gz_eligible_elem_size (c : gz_config) (z : zone) :
  wf_config c -> gz_eligible c z = true ->
  0 <= elem_size z < 2 ^ 32.
Proof.
  intros (Hmin & Hmax & _) He. unfold gz_eligible in He.
  repeat (apply andb_prop in He; destruct He as [He ?]).
  apply andb_prop in H0. destruct H0. lia.
Qed.

(** ** Allocation *)

(** What a guarded allocation that returns has done. *)
Lemma gzalloc_alloc_guarded e st z canblock addr st' z' :
  gz_eligible (cfg st) z = true ->
  gz_admitted e canblock = true ->
  gzalloc_alloc e st z canblock = Ok (addr, st', z') ->
  exists gzaddr gzh,
    gzalloc_place (gzalloc_uf_mode (cfg st)) z (gzalloc_base e st)
      = (gzaddr, gzh, addr)
    /\ cfg st' = cfg st
    /\ mem st' = store_hdr (memset (mem st) gzaddr (gz_rounded_size z)) gzh
                           (gzalloc_hdr e z)
    /\ gzalloc_wasted (ctr st')
       = OSAddAtomic64 (SInt32 (gz_residue z)) (gzalloc_wasted (ctr st))
    /\ gzalloc_allocated (ctr st')
       = OSAddAtomic64 (SInt32 (gz_rounded_size z)) (gzalloc_allocated (ctr st))
    /\ zone_ptr z' = zone_ptr z /\ elem_size z' = elem_size z
    /\ gzalloc_exempt z' = gzalloc_exempt z /\ gz z' = gz z
    /\ count z' = s32 (count z + 1)
    /\ cur_size z' = u64 (cur_size z + gz_rounded_size z).
Proof.
  intros He Ha H. unfold gzalloc_alloc in H. rewrite He in H.
  unfold gz_admitted in Ha. apply negb_true_iff in Ha. rewrite Ha in H.
  unfold gzalloc_backing, gzalloc_base, gz_early in *.
  destruct (negb (kmem_ready e) || (vm_page_zone e =? ZONE_NULL)) eqn:Hearly.
  - destruct (gzalloc_reserve_size _ <? gz_rounded_size z) eqn:Hres;
      destruct (negb (preemption_level e =? 0)); simpl in H; try discriminate;
      destruct (gzalloc_place _ z _) as [[gzaddr gzh] a] eqn:Hp;
      injection H as <- <- <-; exists gzaddr, gzh; simpl;
      repeat split; try reflexivity; exact Hp.
  - destruct (kma_kr e =? KERN_SUCCESS) eqn:Hkr;
      destruct (negb (preemption_level e =? 0)); simpl in H;
      rewrite ?Hkr in H; simpl in H; try discriminate;
      destruct (gzalloc_place _ z _) as [[gzaddr gzh] a] eqn:Hp;
      injection H as <- <- <-; exists gzaddr, gzh; simpl;
      repeat split; try reflexivity; exact Hp.
Qed.

(** A guarded allocation returns when its backing memory is there. *)
Lemma gzalloc_alloc_returns e st z canblock :
  gz_eligible (cfg st) z = true ->
  gz_admitted e canblock = true ->
  gzalloc_backed e st z = true ->
  exists addr st' z', gzalloc_alloc e st z canblock = Ok (addr, st', z').
Proof.
  intros He Ha Hb. unfold gzalloc_alloc. rewrite He.
  unfold gz_admitted in Ha. apply negb_true_iff in Ha. rewrite Ha.
  unfold gzalloc_backed, gz_early in Hb. unfold gzalloc_backing.
  destruct (negb (kmem_ready e) || (vm_page_zone e =? ZONE_NULL)).
  - apply negb_true_iff in Hb.
    destruct (negb (preemption_level e =? 0)); simpl; rewrite Hb; simpl;
      destruct (gzalloc_place _ z _) as [[gzaddr gzh] a]; eauto.
  - destruct (negb (preemption_level e =? 0)); simpl; rewrite Hb; simpl;
      destruct (gzalloc_place _ z _) as [[gzaddr gzh] a]; eauto.
Qed.

Lemma store_hdr_same m gzh h : store_hdr m gzh h gzh = h.
Proof. unfold store_hdr. now rewrite Z.eqb_refl. Qed.

(** ** The placement and its inverse *)

Lemma gzfree_locate_place uf_mode z zf base gzaddr gzh addr :
  0 <= base < 2 ^ 64 ->
  elem_size zf = elem_size z ->
  gzalloc_place uf_mode z base = (gzaddr, gzh, addr) ->
  gzfree_locate uf_mode zf addr = (gzh, base).
Proof.
  intros Hb Hz Hp. unfold gzalloc_place, gzfree_locate in *.
  assert (Hr : gz_residue zf = gz_residue z)
    by (unfold gz_residue, gz_rounded_size; now rewrite Hz).
  destruct uf_mode; injection Hp as <- <- <-; rewrite ?Hz, ?Hr;
    now rewrite u64_add_sub.
Qed.

(** ** Freeing *)

Arguments u64 : simpl never.
Arguments u32 : simpl never.
Arguments SInt32 : simpl never.
Arguments s32 : simpl never.
Arguments OSAddAtomic64 : simpl never.
Arguments gz_rounded_size : simpl never.
Arguments gz_residue : simpl never.

Lemma gzfree_check_consistent z h :
  gzfree_check z h = Ok tt <-> hdr_consistent z h = true.
Proof.
  unfold gzfree_check, hdr_consistent, panic_if.
  destruct (gzsig h =? GZALLOC_SIGNATURE), (gzone h =? zone_ptr z),
    (gzone h =? GZDEADZONE), (gzsize h =? elem_size z); simpl;
    split; intros; congruence.
Qed.

(** Which check fails, in the order of the code. *)
Lemma gzfree_check_cases z h :
  (gzfree_check z h = Panic Panic_signature_mismatch
   <-> gzsig h ≠ GZALLOC_SIGNATURE)
  /\ (gzfree_check z h = Panic Panic_mismatched_zone
      <-> gzsig h = GZALLOC_SIGNATURE
          /\ (gzone h ≠ zone_ptr z /\ gzone h ≠ GZDEADZONE))
  /\ (gzfree_check z h = Panic Panic_mismatched_size
      <-> gzsig h = GZALLOC_SIGNATURE
          /\ ~ (gzone h ≠ zone_ptr z /\ gzone h ≠ GZDEADZONE)
          /\ gzsize h ≠ elem_size z).
Proof.
  unfold gzfree_check, panic_if.
  destruct (Z.eqb_spec (gzsig h) GZALLOC_SIGNATURE),
    (Z.eqb_spec (gzone h) (zone_ptr z)),
    (Z.eqb_spec (gzone h) GZDEADZONE),
    (Z.eqb_spec (gzsize h) (elem_size z)); simpl;
    repeat split; intros; try congruence; intuition congruence.
Qed.

(** Past the consistency checks [gzalloc_free] raises none of their
    panics. *)
Lemma gzalloc_free_past_checks e st z addr p :
  gz_eligible (cfg st) z = true ->
  (gzalloc_consistency_checks (cfg st) = false
   \/ gzfree_check z (mem st (fst (gzfree_locate (gzalloc_uf_mode (cfg st)) z addr)))
      = Ok tt) ->
  gzalloc_free e st z addr = Panic p -> consistency_panic p = false.
Proof.
  intros He Hc H. unfold gzalloc_free in H. rewrite He in H.
  destruct (gzfree_locate _ z addr) as [gzh saddr]. simpl in Hc.
  unfold assert, panic_if in H.
  destruct (mach_assert (cfg st) && negb (Z.land saddr PAGE_MASK =? 0));
    simpl in H; [now injection H as <-|].
  assert (Hk : (if gzalloc_consistency_checks (cfg st)
                then gzfree_check z (mem st gzh) else Ok tt) = Ok tt)
    by (destruct Hc as [-> | Hc]; [reflexivity | now destruct (gzalloc_consistency_checks _)]).
  rewrite Hk in H. simpl in H. unfold gzfc_admit in H.
  repeat (case_match; simpl in *; try discriminate);
    injection H as <-; reflexivity.
Qed.

(** A failed check is the outcome of the free. *)
Lemma gzalloc_free_check_fails e st z addr p :
  gz_eligible (cfg st) z = true ->
  gzalloc_consistency_checks (cfg st) = true ->
  assert (cfg st)
    (Z.land (snd (gzfree_locate (gzalloc_uf_mode (cfg st)) z addr)) PAGE_MASK =? 0)
    = Ok tt ->
  gzfree_check z (mem st (fst (gzfree_locate (gzalloc_uf_mode (cfg st)) z addr)))
    = Panic p ->
  gzalloc_free e st z addr = Panic p.
Proof.
  intros He Hc Ha Hk. unfold gzalloc_free. rewrite He.
  destruct (gzfree_locate _ z addr) as [gzh saddr]. simpl in *.
  now rewrite Ha, Hc, Hk.
Qed.

(** With the checks enabled, the free ends in a consistency panic exactly
    when the checks end in it. *)
Lemma gzalloc_free_panic_iff_check e st z addr p :
  gz_eligible (cfg st) z = true ->
  gzalloc_consistency_checks (cfg st) = true ->
  assert (cfg st)
    (Z.land (snd (gzfree_locate (gzalloc_uf_mode (cfg st)) z addr)) PAGE_MASK =? 0)
    = Ok tt ->
  consistency_panic p = true ->
  (gzalloc_free e st z addr = Panic p
   <-> gzfree_check z (mem st (fst (gzfree_locate (gzalloc_uf_mode (cfg st)) z addr)))
       = Panic p).
Proof.
  intros He Hc Ha Hp. split.
  - intros H.
    destruct (gzfree_check z _) as [[]|q|] eqn:Hk.
    + pose proof (gzalloc_free_past_checks e st z addr p He (or_intror Hk) H).
      congruence.
    + pose proof (gzalloc_free_check_fails e st z addr q He Hc Ha Hk).
      congruence.
    + exfalso. revert Hk. unfold gzfree_check, panic_if.
      repeat (case_match; simpl); discriminate.
  - apply gzalloc_free_check_fails; assumption.
Qed.

(** ** C3: the consistency checks of the free path *)

(** C3.  With consistency checks enabled, an eligible free whose
    page-alignment assertion passes ends in a consistency panic if and
    only if the header has a wrong signature, or a recorded zone that is
    neither the freeing zone nor [GZDEADZONE], or a recorded size other
    than the zone's element size; the panic raised is that of the first
    violation in this order.  With the checks disabled no free ends in a
    consistency panic. *)
Theorem gzalloc_free_consistency_checks e st z addr :
  gz_eligible (cfg st) z = true ->
  let loc := gzfree_locate (gzalloc_uf_mode (cfg st)) z addr in
  let h := mem st (fst loc) in
  let bad_sig := gzsig h ≠ GZALLOC_SIGNATURE in
  let bad_zone := gzone h ≠ zone_ptr z /\ gzone h ≠ GZDEADZONE in
  let bad_size := gzsize h ≠ elem_size z in
  (gzalloc_consistency_checks (cfg st) = true ->
   assert (cfg st) (Z.land (snd loc) PAGE_MASK =? 0) = Ok tt ->
   (gzalloc_free e st z addr = Panic Panic_signature_mismatch <-> bad_sig)
   /\ (gzalloc_free e st z addr = Panic Panic_mismatched_zone
       <-> ~ bad_sig /\ bad_zone)
   /\ (gzalloc_free e st z addr = Panic Panic_mismatched_size
       <-> ~ bad_sig /\ ~ bad_zone /\ bad_size)
   /\ ((exists p, consistency_panic p = true
                  /\ gzalloc_free e st z addr = Panic p)
       <-> bad_sig \/ bad_zone \/ bad_size))
  /\ (gzalloc_consistency_checks (cfg st) = false ->
      forall p, gzalloc_free e st z addr = Panic p ->
                consistency_panic p = false).
Proof.
  intros He loc h bad_sig bad_zone bad_size. split.
  - intros Hc Ha.
    pose proof (fun p => gzalloc_free_panic_iff_check e st z addr p He Hc Ha) as F.
    destruct (gzfree_check_cases z h) as (K1 & K2 & K3).
    fold loc h in F.
    assert (Dsig : gzsig h = GZALLOC_SIGNATURE <-> ~ bad_sig)
      by (symmetry; apply Z.eq_dne).
    assert (Dz : bad_zone \/ ~ bad_zone).
    { destruct (Z.eq_dec (gzone h) (zone_ptr z)) as [E1 | N1];
        [right; intros [A _]; exact (A E1)|].
      destruct (Z.eq_dec (gzone h) GZDEADZONE) as [E2 | N2];
        [right; intros [_ B]; exact (B E2) | left; split; assumption]. }
    assert (Ds : bad_sig \/ ~ bad_sig).
    { destruct (Z.eq_dec (gzsig h) GZALLOC_SIGNATURE) as [E | N];
        [right; intros A; exact (A E) | left; exact N]. }
    subst bad_sig bad_zone bad_size.
    split; [|split; [|split]].
    + rewrite (F Panic_signature_mismatch eq_refl). exact K1.
    + rewrite (F Panic_mismatched_zone eq_refl), K2. tauto.
    + rewrite (F Panic_mismatched_size eq_refl), K3. tauto.
    + split.
      * intros (p & Hp & H). rewrite (F p Hp) in H.
        destruct p; try discriminate Hp.
        -- left. now apply K1.
        -- right; left. now apply K2 in H.
        -- right; right. now apply K3 in H.
      * intros V.
        destruct Ds as [S | S].
        { exists Panic_signature_mismatch. split; [reflexivity|].
          apply (F Panic_signature_mismatch eq_refl). now apply K1. }
        destruct Dz as [Zb | Zb].
        { exists Panic_mismatched_zone. split; [reflexivity|].
          apply (F Panic_mismatched_zone eq_refl). apply K2. tauto. }
        exists Panic_mismatched_size. split; [reflexivity|].
        apply (F Panic_mismatched_size eq_refl). apply K3. tauto.
  - intros Hc p H.
    exact (gzalloc_free_past_checks e st z addr p He (or_introl Hc) H).
Qed.

Lemma gzalloc_free_consistency_checks_witness :
  gzalloc_free (sample_env 0 0) (sample_state false 2) (sample_zone 1024)
               (0xffffff8100000000 + 3072)
  = Panic Panic_signature_mismatch.
Proof.
  destruct (gzalloc_free_consistency_checks
              (sample_env 0 0) (sample_state false 2) (sample_zone 1024)
              (0xffffff8100000000 + 3072) eq_refl) as [H _].
  destruct (H eq_refl eq_refl) as [H1 _].
  apply H1. vm_compute. discriminate.
Defined.

(** ** C4: allocation where blocking is disallowed *)

(** What a call of [gzalloc_alloc] that returns has done to
    [pdzalloc_count]: advanced it by one if the zone is eligible, the
    preemption level is not zero and the caller permits blocking, and left
    it alone in every other case. *)
Lemma gzalloc_alloc_pdzalloc_count e st z canblock addr st' z' :
  gzalloc_alloc e st z canblock = Ok (addr, st', z') ->
  pdzalloc_count (ctr st')
  = if gz_eligible (cfg st) z && negb (preemption_level e =? 0)
       && (canblock =? TRUE)
    then u32 (pdzalloc_count (ctr st) + 1)
    else pdzalloc_count (ctr st).
Proof.
  intros H. unfold gzalloc_alloc in H.
  destruct (gz_eligible (cfg st) z); [|now injection H as <- <- <-].
  destruct (preemption_level e =? 0), (canblock =? TRUE); simpl in H;
    unfold gzalloc_backing, panic_if in H;
    repeat (case_match; simpl in *; try discriminate);
    injection H as <- <- <-; reflexivity.
Qed.

(** C4, as amended.  An eligible allocation requested at elevated
    preemption level by a caller that does not permit blocking returns 0
    and changes nothing: neither [pdzalloc_count] nor any other counter,
    nor the zone, the memory or the guard map.  [pdzalloc_count] moves on
    the other branch only: whatever the zone, the environment and the
    caller, a call that returns has advanced it by one exactly when the
    zone is eligible, the preemption level is not zero and the caller
    permits blocking; and such a call, once its backing memory is there,
    does return, having guarded the allocation (header written at the
    placed header pointer, element count of the zone raised by one). *)
Theorem gzalloc_alloc_noblock_fallback e st z canblock :
  (gz_eligible (cfg st) z = true ->
   preemption_level e ≠ 0 ->
   canblock ≠ TRUE ->
   gzalloc_alloc e st z canblock = Ok (0, st, z))
  /\ (forall addr st' z',
         gzalloc_alloc e st z canblock = Ok (addr, st', z') ->
         pdzalloc_count (ctr st')
         = if gz_eligible (cfg st) z && negb (preemption_level e =? 0)
              && (canblock =? TRUE)
           then u32 (pdzalloc_count (ctr st) + 1)
           else pdzalloc_count (ctr st))
  /\ (gz_eligible (cfg st) z = true ->
      preemption_level e ≠ 0 ->
      canblock = TRUE ->
      gzalloc_backed e st z = true ->
      exists addr st' z' gzaddr gzh,
        gzalloc_alloc e st z canblock = Ok (addr, st', z')
        /\ gzalloc_place (gzalloc_uf_mode (cfg st)) z (gzalloc_base e st)
           = (gzaddr, gzh, addr)
        /\ mem st' gzh = gzalloc_hdr e z
        /\ count z' = s32 (count z + 1)
        /\ pdzalloc_count (ctr st') = u32 (pdzalloc_count (ctr st) + 1)).
Proof.
  split; [|split].
  - intros He Hl Hc. unfold gzalloc_alloc. rewrite He.
    apply Z.eqb_neq in Hl, Hc. now rewrite Hl, Hc.
  - intros addr st' z'. apply gzalloc_alloc_pdzalloc_count.
  - intros He Hl -> Hb.
    assert (Ha : gz_admitted e TRUE = true)
      by (unfold gz_admitted; simpl; now rewrite andb_false_r).
    destruct (gzalloc_alloc_returns e st z TRUE He Ha Hb)
      as (addr & st' & z' & Hal).
    destruct (gzalloc_alloc_guarded _ _ _ _ _ _ _ He Ha Hal)
      as (gzaddr & gzh & Hp & _ & Hm & _ & _ & _ & _ & _ & _ & Hcnt & _).
    exists addr, st', z', gzaddr, gzh.
    split; [exact Hal|]. split; [exact Hp|].
    split; [rewrite Hm; apply store_hdr_same|]. split; [exact Hcnt|].
    rewrite (gzalloc_alloc_pdzalloc_count _ _ _ _ _ _ _ Hal), He.
    apply Z.eqb_neq in Hl. now rewrite Hl.
Qed.

Lemma gzalloc_alloc_noblock_fallback_witness :
  let e := sample_env 1 0xffffff8100000000 in
  let st := sample_state false 2 in
  let z := sample_zone 1024 in
  gzalloc_alloc e st z 0 = Ok (0, st, z)
  /\ exists addr st' z' gzaddr gzh,
       gzalloc_alloc e st z TRUE = Ok (addr, st', z')
       /\ gzalloc_place false z 0xffffff8100000000 = (gzaddr, gzh, addr)
       /\ mem st' gzh = gzalloc_hdr e z
       /\ count z' = s32 (0 + 1)
       /\ pdzalloc_count (ctr st') = u32 (0 + 1).
Proof.
  intros e st z. split.
  - apply (gzalloc_alloc_noblock_fallback e st z 0);
      [reflexivity | discriminate | discriminate].
  - apply (gzalloc_alloc_noblock_fallback e st z TRUE);
      [reflexivity | discriminate | reflexivity | reflexivity].
Defined.

(** The claim as first stated fails: here is an eligible allocation at
    preemption level 1 whose caller does not permit blocking; it returns
    0 and [pdzalloc_count] is still 0. *)
Lemma gzalloc_alloc_fallback_not_counted :
  let e := sample_env 1 0xffffff8100000000 in
  let st := sample_state false 2 in
  let z := sample_zone 1024 in
  gz_eligible (cfg st) z = true
  /\ preemption_level e ≠ 0
  /\ ~ (exists st' z',
          gzalloc_alloc e st z 0 = Ok (0, st', z')
          /\ pdzalloc_count (ctr st') = u32 (pdzalloc_count (ctr st) + 1)).
Proof.
  split; [reflexivity|]. split; [discriminate|].
  intros (st' & z' & H & Hc).
  vm_compute in H. injection H as <- <-. vm_compute in Hc. discriminate.
Qed.

(** ** C8: frees of early allocations *)

(** Below 2 GiB the cast [(SInt32) rounded_size] is the identity. *)
Lemma SInt32_rounded_size (z : zone) :
  0 <= elem_size z < 2 ^ 31 - 2 * PAGE_SIZE ->
  SInt32 (gz_rounded_size z) = gz_rounded_size z /\ 0 < gz_rounded_size z.
Proof.
  intros Hz.
  assert (HP : PAGE_SIZE = 4096) by reflexivity.
  assert (HH : GZHEADER_SIZE = 16) by reflexivity.
  rewrite HP in Hz.
  destruct (gz_geometry z ltac:(lia)) as (_ & E & B & _ & P).
  rewrite HP, HH in *.
  assert (R : gz_residue z + elem_size z = gz_rounded_size z) by lia.
  split; [apply SInt32_small|]; lia.
Qed.

(** C8.  An eligible free that gets past the assertion and the checks,
    made while [kmem_ready] is unset or for a header that records
    [GZDEADZONE], is reported as handled; the zone comes back as it was
    (element count, byte total, cache and cursor), and of the state only
    [gzalloc_early_free] differs, by the rounded size passed through
    [(SInt32)], which for elements below 2 GiB is the rounded size itself:
    no call reaches the guard map. *)
Theorem gzalloc_free_early_leaks e st z addr :
  gz_eligible (cfg st) z = true ->
  let loc := gzfree_locate (gzalloc_uf_mode (cfg st)) z addr in
  let h := mem st (fst loc) in
  assert (cfg st) (Z.land (snd loc) PAGE_MASK =? 0) = Ok tt ->
  (gzalloc_consistency_checks (cfg st) = true -> hdr_consistent z h = true) ->
  kmem_ready e = false \/ gzone h = GZDEADZONE ->
  gzalloc_free e st z addr
  = Ok (true,
        mk_state (cfg st)
          (set_gzalloc_early_free (ctr st)
             (u64 (gzalloc_early_free (ctr st) + SInt32 (gz_rounded_size z))))
          (gzalloc_reserve st) (gzalloc_reserve_size st) (mem st) (vm_log st),
        z)
  /\ (0 <= elem_size z < 2 ^ 31 - 2 * PAGE_SIZE ->
      SInt32 (gz_rounded_size z) = gz_rounded_size z
      /\ 0 < gz_rounded_size z).
Proof.
  intros He loc h Ha Hc Hearly. split; [|apply SInt32_rounded_size].
  unfold gzalloc_free. rewrite He.
  subst h loc. destruct (gzfree_locate _ z addr) as [gzh saddr]. simpl in *.
  rewrite Ha. simpl.
  assert (Hk : (if gzalloc_consistency_checks (cfg st)
                then gzfree_check z (mem st gzh) else Ok tt) = Ok tt).
  { destruct (gzalloc_consistency_checks (cfg st)); [|reflexivity].
    apply gzfree_check_consistent. now apply Hc. }
  rewrite Hk. simpl.
  assert (Hb : negb (kmem_ready e) || (gzone (mem st gzh) =? GZDEADZONE) = true).
  { destruct Hearly as [-> | ->]; [reflexivity|].
    rewrite Z.eqb_refl. apply orb_true_r. }
  rewrite Hb. reflexivity.
Qed.

Lemma gzalloc_free_early_leaks_witness :
  let z := sample_zone 1024 in
  let st := sample_state_hdr false 2 (0xffffff8000100000 + 3072 - 16)
              (mk_gzhdr GZDEADZONE 1024 GZALLOC_SIGNATURE) in
  gzalloc_free sample_env_early st z (0xffffff8000100000 + 3072)
  = Ok (true,
        mk_state (cfg st)
          (set_gzalloc_early_free (ctr st)
             (u64 (gzalloc_early_free (ctr st) + SInt32 (gz_rounded_size z))))
          (gzalloc_reserve st) (gzalloc_reserve_size st) (mem st) (vm_log st),
        z)
  /\ SInt32 (gz_rounded_size z) = 4096.
Proof.
  intros z st.
  destruct (gzalloc_free_early_leaks sample_env_early st z
              (0xffffff8000100000 + 3072)) as [H S];
    [reflexivity | reflexivity | reflexivity | left; reflexivity |].
  split; [exact H | reflexivity].
Defined.

(** ** C6: freeing with a cache capacity of zero *)

Lemma gzfree_live_prelude e st z addr gzh saddr :
  gzfree_locate (gzalloc_uf_mode (cfg st)) z addr = (gzh, saddr) ->
  gzfree_live e st z addr ->
  assert (cfg st) (Z.land saddr PAGE_MASK =? 0) = Ok tt
  /\ (if gzalloc_consistency_checks (cfg st)
      then gzfree_check z (mem st gzh) else Ok tt) = Ok tt
  /\ negb (kmem_ready e) || (gzone (mem st gzh) =? GZDEADZONE) = false.
Proof.
  unfold gzfree_live. intros -> (Ha & Hc & Hk & Hz). simpl in *.
  split; [exact Ha|]. split.
  - destruct (gzalloc_consistency_checks (cfg st)); [|reflexivity].
    apply gzfree_check_consistent. now apply Hc.
  - rewrite Hk. simpl. now apply Z.eqb_neq.
Qed.

(** C6.  With [gzfc_size] zero, an eligible free that is not early and
    frees a region with a non-null start applies no protection change:
    its one call to the guard map removes the region from its start over
    the rounded size plus one page, and the zone's element count and byte
    total are decremented by one and by the rounded size in the same
    call.  The cache is not touched. *)
Theorem gzalloc_free_no_quarantine e st z addr :
  gz_eligible (cfg st) z = true ->
  gzfc_size (cfg st) = 0 ->
  gzfree_live e st z addr ->
  let saddr := snd (gzfree_locate (gzalloc_uf_mode (cfg st)) z addr) in
  saddr ≠ 0 ->
  remove_kr e = KERN_SUCCESS ->
  exists st' z',
    gzalloc_free e st z addr = Ok (true, st', z')
    /\ vm_log st'
       = Vm_map_remove gzalloc_map saddr
           (u64 (saddr + gz_rounded_size z + 1 * PAGE_SIZE))
           VM_MAP_REMOVE_KUNWIRE :: vm_log st
    /\ vm_protected (vm_log st') = vm_protected (vm_log st)
    /\ count z' = s32 (count z - 1)
    /\ cur_size z' = u64 (cur_size z - gz_rounded_size z)
    /\ sum_count z' = sum_count z
    /\ gz z' = gz z.
Proof.
  intros He Hfc Hlive saddr Hs Hr. subst saddr.
  unfold gzalloc_free. rewrite He.
  destruct (gzfree_locate _ z addr) as [gzh saddr] eqn:Hl.
  destruct (gzfree_live_prelude _ _ _ _ _ _ Hl Hlive) as (Ha & Hk & Hb).
  simpl in Hs. apply Z.eqb_neq in Hs.
  rewrite Ha, Hk. simpl. rewrite Hb, Hfc. simpl. rewrite Hs, Hr. simpl.
  destruct (negb (preemption_level e =? 0)); simpl;
    eexists _, _; repeat split.
Qed.

Lemma gzalloc_free_no_quarantine_witness :
  let e := sample_env 0 0 in
  let z := sample_zone_used in
  let st := sample_state_hdr false 0 (0xffffff8100000000 + 3072 - 16)
              (mk_gzhdr (zone_ptr z) 1024 GZALLOC_SIGNATURE) in
  exists st' z',
    gzalloc_free e st z (0xffffff8100000000 + 3072) = Ok (true, st', z')
    /\ vm_log st'
       = [Vm_map_remove gzalloc_map 0xffffff8100000000
            (0xffffff8100000000 + 8192) VM_MAP_REMOVE_KUNWIRE]
    /\ vm_protected (vm_log st') = []
    /\ count z' = 0
    /\ cur_size z' = 0
    /\ sum_count z' = 1
    /\ gz z' = gz z.
Proof.
  intros e z st.
  apply (gzalloc_free_no_quarantine e st z (0xffffff8100000000 + 3072));
    try reflexivity.
  - repeat split; try reflexivity; discriminate.
  - discriminate.
Defined.

(** ** C7: the wasted-bytes counter *)

Lemma SInt32_residue (z : zone) :
  0 <= elem_size z < 2 ^ 32 ->
  SInt32 (gz_residue z) = round_page (elem_size z + GZHEADER_SIZE) - elem_size z
  /\ SInt32 (- SInt32 (gz_residue z))
     = - (round_page (elem_size z + GZHEADER_SIZE) - elem_size z).
Proof.
  intros Hz. destruct (gz_geometry z Hz) as (E1 & E2 & B & _).
  rewrite <- E1, <- E2.
  assert (HP : PAGE_SIZE = 4096) by reflexivity.
  assert (HH : GZHEADER_SIZE = 16) by reflexivity.
  rewrite HP, HH in B.
  rewrite (SInt32_small (gz_residue z)) by lia.
  rewrite SInt32_small by lia. split; reflexivity.
Qed.

(** A free that returns either released nothing and left the wasted
    counter alone, or released one region and took the residue, passed
    through the casts of the code, off the wasted counter. *)
Lemma gzalloc_free_released e st z addr b st' z' :
  gzalloc_free e st z addr = Ok (b, st', z') ->
  (vm_removed (vm_log st') = vm_removed (vm_log st)
   /\ gzalloc_wasted (ctr st') = gzalloc_wasted (ctr st)
   /\ gzalloc_freed (ctr st') = gzalloc_freed (ctr st)
   /\ count z' = count z /\ cur_size z' = cur_size z)
  \/ (exists free_addr,
        free_addr ≠ 0
        /\ vm_removed (vm_log st')
           = (free_addr, u64 (free_addr + gz_rounded_size z + 1 * PAGE_SIZE))
               :: vm_removed (vm_log st)
        /\ gzalloc_wasted (ctr st')
           = OSAddAtomic64 (SInt32 (- SInt32 (gz_residue z)))
                           (gzalloc_wasted (ctr st))
        /\ gzalloc_freed (ctr st')
           = OSAddAtomic64 (SInt32 (gz_rounded_size z)) (gzalloc_freed (ctr st))
        /\ count z' = s32 (count z - 1)
        /\ cur_size z' = u64 (cur_size z - gz_rounded_size z)).
Proof.
  intros H. unfold gzalloc_free in H.
  destruct (gz_eligible (cfg st) z); [|injection H as <- <- <-; left; tauto].
  destruct (gzfree_locate _ z addr) as [gzh saddr].
  unfold assert, panic_if, gzfc_admit in H.
  destruct (gzfree_check z (mem st gzh)) as [[]|?|];
  repeat (case_match; simpl in *; try discriminate);
    injection H as <- <- <-; simpl;
    first [ left; repeat split; reflexivity
          | right; eexists; repeat split; try reflexivity;
            apply Z.eqb_neq; apply negb_true_iff; eassumption ].
Qed.

(** C7.  For an element size [S] of an eligible zone, with
    [waste = round_page (S + GZHEADER_SIZE) - S]: a guarded allocation
    adds exactly [waste] to [gzalloc_wasted], and a free that releases
    backing memory takes exactly [waste] off it (in 64-bit arithmetic). *)
Theorem gzalloc_wasted_accounting st z :
  wf_config (cfg st) ->
  0 <= elem_size z ->
  gz_eligible (cfg st) z = true ->
  let waste := round_page (elem_size z + GZHEADER_SIZE) - elem_size z in
  (forall e canblock,
      gz_admitted e canblock = true ->
      gzalloc_backed e st z = true ->
      exists addr st' z',
        gzalloc_alloc e st z canblock = Ok (addr, st', z')
        /\ gzalloc_wasted (ctr st') = u64 (gzalloc_wasted (ctr st) + waste))
  /\ (forall e addr b st' z',
         gzalloc_free e st z addr = Ok (b, st', z') ->
         vm_removed (vm_log st') ≠ vm_removed (vm_log st) ->
         gzalloc_wasted (ctr st') = u64 (gzalloc_wasted (ctr st) - waste)).
Proof.
  intros Hwf Hz0 He waste.
  pose proof (gz_eligible_elem_size _ _ Hwf He) as Hz.
  destruct (SInt32_residue z Hz) as [S1 S2]. fold waste in S1, S2.
  split.
  - intros e canblock Ha Hb.
    destruct (gzalloc_alloc_returns e st z canblock He Ha Hb)
      as (addr & st' & z' & Hal).
    exists addr, st', z'. split; [exact Hal|].
    destruct (gzalloc_alloc_guarded _ _ _ _ _ _ _ He Ha Hal)
      as (_ & _ & _ & _ & _ & Hw & _).
    rewrite Hw, S1. reflexivity.
  - intros e addr b st' z' H Hrel.
    destruct (gzalloc_free_released _ _ _ _ _ _ _ H)
      as [(Hsame & _) | (fa & _ & _ & Hw & _)]; [congruence|].
    rewrite Hw, S2. reflexivity.
Qed.

Lemma gzalloc_wasted_accounting_witness :
  let z := sample_zone_used in
  let addr := 0xffffff8100000000 + 3072 in
  let st := sample_state_hdr false 0 (addr - 16)
              (mk_gzhdr (zone_ptr z) 1024 GZALLOC_SIGNATURE) in
  (exists addr' st' z',
      gzalloc_alloc (sample_env 0 0xffffff8100002000) st z 1
      = Ok (addr', st', z')
      /\ gzalloc_wasted (ctr st') = u64 (gzalloc_wasted (ctr st) + 3072))
  /\ (exists st' z',
         gzalloc_free (sample_env 0 0) st z addr = Ok (true, st', z')
         /\ vm_removed (vm_log st') ≠ vm_removed (vm_log st)
         /\ gzalloc_wasted (ctr st') = u64 (gzalloc_wasted (ctr st) - 3072)).
Proof.
  intros z addr st.
  assert (Hwf : wf_config (cfg st))
    by (vm_compute; repeat split; discriminate).
  assert (Hz : 0 <= elem_size z) by (vm_compute; discriminate).
  destruct (gzalloc_wasted_accounting st z Hwf Hz eq_refl) as [Ha Hf].
  split.
  - exact (Ha (sample_env 0 0xffffff8100002000) 1 eq_refl eq_refl).
  - destruct (gzalloc_free (sample_env 0 0) st z addr)
      as [[[b st'] z']| |] eqn:H; try (vm_compute in H; discriminate).
    assert (Hb : b = true) by (vm_compute in H; congruence).
    assert (Hrel : vm_removed (vm_log st') ≠ vm_removed (vm_log st)).
    { assert (Hl : vm_removed (vm_log st') ≠ [])
        by (vm_compute in H; injection H as _ <- _; discriminate).
      exact Hl. }
    subst b. exists st', z'. split; [reflexivity|]. split; [exact Hrel|].
    exact (Hf (sample_env 0 0) addr true st' z' H Hrel).
Defined.

(** ** C9: the layout in underflow-detection mode *)

Lemma page_aligned_next (base : Z) :
  Z.land base PAGE_MASK = 0 -> Z.land (u64 (base + PAGE_SIZE)) PAGE_MASK = 0.
Proof.
  rewrite !page_aligned_land. intros H. unfold u64.
  assert (HP : PAGE_SIZE = 4096) by reflexivity. rewrite HP in *.
  rewrite Z.mod_mod_divide by (exists (2 ^ 52); reflexivity).
  replace (base + 4096) with (base + 1 * 4096) by lia.
  now rewrite Z_mod_plus_full.
Qed.

(** C9, as amended.  In underflow-detection mode an eligible allocation
    that is admitted and backed returns the address one page above the
    base of its backing memory, which is page-aligned whenever that base
    is: the element begins at the first byte of its page and occupies the
    lowest bytes of that page; the header is written at the byte right
    after the element, as a footer. *)
Theorem gzalloc_alloc_underflow_layout e st z canblock :
  gz_eligible (cfg st) z = true ->
  gzalloc_uf_mode (cfg st) = true ->
  gz_admitted e canblock = true ->
  gzalloc_backed e st z = true ->
  exists addr st' z',
    gzalloc_alloc e st z canblock = Ok (addr, st', z')
    /\ addr = u64 (gzalloc_base e st + PAGE_SIZE)
    /\ (Z.land (gzalloc_base e st) PAGE_MASK = 0 ->
        Z.land addr PAGE_MASK = 0)
    /\ mem st' (u64 (addr + elem_size z)) = gzalloc_hdr e z.
Proof.
  intros He Huf Ha Hb.
  destruct (gzalloc_alloc_returns e st z canblock He Ha Hb)
    as (addr & st' & z' & Hal).
  destruct (gzalloc_alloc_guarded _ _ _ _ _ _ _ He Ha Hal)
    as (gzaddr & gzh & Hp & _ & Hm & _).
  rewrite Huf in Hp. unfold gzalloc_place in Hp. injection Hp as <- <- <-.
  exists (u64 (gzalloc_base e st + PAGE_SIZE)), st', z'.
  repeat split; try assumption.
  - apply page_aligned_next.
  - rewrite Hm. apply store_hdr_same.
Qed.

Lemma gzalloc_alloc_underflow_layout_witness :
  let e := sample_env 0 0xffffff8100000000 in
  let z := sample_zone 1024 in
  exists addr st' z',
    gzalloc_alloc e (sample_state true 2) z 1 = Ok (addr, st', z')
    /\ addr = u64 (0xffffff8100000000 + PAGE_SIZE)
    /\ Z.land addr PAGE_MASK = 0
    /\ mem st' (u64 (addr + elem_size z)) = gzalloc_hdr e z.
Proof.
  intros e z.
  destruct (gzalloc_alloc_underflow_layout e (sample_state true 2) z 1)
    as (addr & st' & z' & Hal & Haddr & Halign & Hh);
    try reflexivity.
  exists addr, st', z'. repeat split; try assumption.
  apply Halign. reflexivity.
Defined.

(** The claim as first stated fails: this allocation of a 1024-byte
    element in underflow-detection mode returns a page-aligned address, so
    the element lies in the lowest 1024 bytes of its page and ends 3072
    bytes short of the end of the page. *)
Lemma gzalloc_alloc_underflow_not_page_top :
  let e := sample_env 0 0xffffff8100000000 in
  let st := sample_state true 2 in
  let z := sample_zone 1024 in
  gz_eligible (cfg st) z = true
  /\ gzalloc_uf_mode (cfg st) = true
  /\ exists addr st' z',
       gzalloc_alloc e st z 1 = Ok (addr, st', z')
       /\ addr mod PAGE_SIZE = 0
       /\ (addr + elem_size z) mod PAGE_SIZE = 1024
       /\ (addr + elem_size z) mod PAGE_SIZE ≠ 0.
Proof.
  split; [reflexivity|]. split; [reflexivity|].
  eexists _, _, _. split; [reflexivity|].
  vm_compute. repeat split. discriminate.
Qed.

(** ** The free element cache *)

Section ring.
Variable capacity : Z.
Hypothesis capacity_pos : 0 < capacity < 2 ^ 32.

Lemma gzfc_slot_lt g : (Z.to_nat (gzfc_slot capacity g) < Z.to_nat capacity)%nat.
Proof. unfold gzfc_slot. destruct (Z.leb_spec capacity (gzfc_index g)); lia. Qed.

Lemma held_bound (l : list Z) (n : nat) :
  (forall (i : nat) (a : Z), l !! i = Some a -> a ≠ 0 -> (i < n)%nat) ->
  (length (filter (fun a : Z => a ≠ 0%Z) l) <= n)%nat.
Proof.
  revert n. induction l as [|a l IH]; intros n H; [simpl; lia|].
  destruct (decide (a ≠ 0)) as [Ha | Ha].
  - rewrite filter_cons_True by exact Ha. simpl.
    pose proof (H 0%nat a eq_refl Ha).
    destruct n as [|n]; [lia|].
    apply le_n_S, IH. intros i b Hi Hb.
    pose proof (H (S i) b Hi Hb). lia.
  - rewrite filter_cons_False by exact Ha.
    apply IH. intros i b Hi Hb.
    pose proof (H (S i) b Hi Hb). lia.
Qed.

Lemma gzfc_ok_held g : gzfc_ok capacity g -> (gzfc_held g <= Z.to_nat capacity)%nat.
Proof. intros [_ H]. now apply held_bound. Qed.

(** One admission: it reads the slot under the (wrapped) cursor, hands
    back what was there, writes the freed address in its place and
    leaves the cursor one past the slot. *)
Lemma gzfc_admit_step g saddr :
  gzfc_ok capacity g ->
  exists free_addr,
    gzfc g !! Z.to_nat (gzfc_slot capacity g) = Some free_addr
    /\ gzfc_admit capacity g saddr
       = Ok (free_addr,
             mk_gz (u32 (gzfc_slot capacity g + 1))
                   (<[Z.to_nat (gzfc_slot capacity g) := saddr]> (gzfc g)))
    /\ gzfc_ok capacity (mk_gz (u32 (gzfc_slot capacity g + 1))
                      (<[Z.to_nat (gzfc_slot capacity g) := saddr]> (gzfc g))).
Proof.
  intros [Hlen Hin]. pose proof (gzfc_slot_lt g) as Hs.
  destruct (lookup_lt_is_Some_2 (gzfc g) (Z.to_nat (gzfc_slot capacity g)))
    as [fa Hfa]; [lia|].
  exists fa. split; [exact Hfa|]. split.
  - unfold gzfc_admit. fold (gzfc_slot capacity g). now rewrite Hfa.
  - split; simpl.
    + now rewrite length_insert.
    + intros i a Hi Ha.
      destruct (decide (i = Z.to_nat (gzfc_slot capacity g))) as [-> | Hne];
        [exact Hs|].
      rewrite list_lookup_insert_ne in Hi by congruence.
      exact (Hin i a Hi Ha).
Qed.

Lemma gzfc_admit_all_ok saddrs : forall g,
  gzfc_ok capacity g ->
  exists evicted g',
    gzfc_admit_all capacity g saddrs = Ok (evicted, g') /\ gzfc_ok capacity g'.
Proof.
  induction saddrs as [|saddr rest IH]; intros g Hg; simpl.
  - now exists [], g.
  - destruct (gzfc_admit_step g saddr Hg) as (fa & _ & -> & Hg').
    simpl. destruct (IH _ Hg') as (ev & g' & -> & Hok).
    simpl. now exists (fa :: ev), g'.
Qed.

Lemma gzfc_admit_all_app l1 : forall l2 g,
  gzfc_admit_all capacity g (l1 ++ l2)
  = '(ev1, g1) ← gzfc_admit_all capacity g l1;
    '(ev2, g2) ← gzfc_admit_all capacity g1 l2;
    Ok (ev1 ++ ev2, g2).
Proof.
  induction l1 as [|a l1 IH]; intros l2 g; simpl.
  - destruct (gzfc_admit_all capacity g l2) as [[ev g2]| |]; reflexivity.
  - destruct (gzfc_admit capacity g a) as [[fa g1]| |]; simpl; try reflexivity.
    rewrite IH.
    destruct (gzfc_admit_all capacity g1 l1) as [[ev1 g1']| |]; simpl;
      try reflexivity.
    destruct (gzfc_admit_all capacity g1' l2) as [[ev2 g2]| |]; reflexivity.
Qed.

(** Filling a cache whose cursor stands after the addresses [pre] and
    whose further slots are unused: nothing comes back. *)
Lemma gzfc_admit_all_fill saddrs : forall (pre : list Z) (m : nat),
  (length pre + length saddrs <= Z.to_nat capacity)%nat ->
  (Z.to_nat capacity <= length pre + m)%nat ->
  gzfc_admit_all capacity
    (mk_gz (Z.of_nat (length pre)) (pre ++ replicate m 0)) saddrs
  = Ok (replicate (length saddrs) 0,
        mk_gz (Z.of_nat (length pre + length saddrs))
              (pre ++ saddrs ++ replicate (m - length saddrs) 0)).
Proof.
  induction saddrs as [|a rest IH]; intros pre m H1 H2; simpl.
  - now rewrite Nat.add_0_r, Nat.sub_0_r.
  - simpl in H1. destruct m as [|m]; [lia|].
    unfold gzfc_admit. simpl gzfc_index. simpl gzfc.
    destruct (Z.leb_spec capacity (Z.of_nat (length pre))); [lia|].
    rewrite Nat2Z.id.
    rewrite lookup_app_r, Nat.sub_diag by lia. simpl.
    replace (length pre) with (length pre + 0)%nat at 2 by lia.
    rewrite insert_app_r. simpl.
    replace (u32 (Z.of_nat (length pre) + 1))
      with (Z.of_nat (length (pre ++ [a]))).
    2:{ rewrite length_app. simpl. unfold u32. rewrite Z.mod_small; lia. }
    replace (pre ++ a :: replicate m 0) with ((pre ++ [a]) ++ replicate m 0)
      by now rewrite <- app_assoc.
    rewrite IH by (rewrite length_app; simpl; lia).
    simpl. rewrite length_app. simpl.
    rewrite <- app_assoc. simpl.
    replace (length pre + 1 + length rest)%nat
      with (length pre + S (length rest))%nat by lia.
    reflexivity.
Qed.
End ring.

Lemma gzfc_fresh_ok (capacity : Z) (n : nat) :
  (Z.to_nat capacity <= n)%nat -> gzfc_ok capacity (gzfc_fresh n).
Proof.
  intros H. split; simpl.
  - now rewrite length_replicate.
  - intros i a Hi Ha. apply lookup_replicate in Hi. tauto.
Qed.

(** ** C10: the first frees of a freshly initialised zone release nothing *)

(** [gzalloc_zone_init] leaves an eligible zone with a fresh cache that
    has room for [gzfc_size] addresses. *)
Lemma gzalloc_zone_init_fresh e st0 z0 st z :
  wf_config (cfg st0) ->
  gz_eligible (cfg st0) z0 = true ->
  gzalloc_zone_init e st0 z0 = Ok (st, z) ->
  cfg st = cfg st0
  /\ elem_size z = elem_size z0 /\ zone_ptr z = zone_ptr z0
  /\ gzalloc_exempt z = gzalloc_exempt z0
  /\ exists n, gz z = gzfc_fresh n
               /\ (Z.to_nat (gzfc_size (cfg st0)) <= n)%nat.
Proof.
  intros (_ & _ & Hfc) He H. unfold gzalloc_zone_init in H.
  unfold gz_eligible in He.
  apply andb_prop in He. destruct He as [He Hex].
  apply andb_prop in He. destruct He as [Hmode Hrange].
  apply andb_prop in Hrange. destruct Hrange as [Hmin Hmax].
  rewrite Hmode in H. simpl in H. rewrite Hmin, Hmax, Hex in H.
  destruct (Z.eqb_spec (gzfc_size (cfg st0)) 0) as [E | N]; simpl in H.
  - injection H as <- <-. repeat split. exists 0%nat. rewrite E. split;
      [reflexivity | simpl; lia].
  - set (gzfcsz := round_page (u64 (8 * gzfc_size (cfg st0)))) in *.
    assert (Hn : (Z.to_nat (gzfc_size (cfg st0)) <= Z.to_nat (gzfcsz / 8))%nat).
    { assert (HP : PAGE_SIZE = 4096) by reflexivity.
      subst gzfcsz. rewrite u64_small by lia.
      destruct (round_page_bounds (8 * gzfc_size (cfg st0))) as [[B _] _];
        [rewrite HP; lia|].
      apply Z2Nat.inj_le; [lia | apply Z.div_pos; lia |].
      apply Z.div_le_lower_bound; lia. }
    unfold panic_if in H.
    destruct (negb (kmem_ready e)); simpl in H.
    + destruct (gzalloc_reserve_size st0 <? gzfcsz); simpl in H;
        [discriminate|].
      injection H as <- <-. repeat split. now exists (Z.to_nat (gzfcsz / 8)).
    + destruct (negb (kma_kr e =? KERN_SUCCESS)); simpl in H; [discriminate|].
      injection H as <- <-. repeat split. now exists (Z.to_nat (gzfcsz / 8)).
Qed.

Lemma gzfc_fresh_unused n : gzfc_unused_from 0 (gzfc_fresh n).
Proof.
  split; simpl; [lia|]. intros i a Hi _. apply lookup_replicate in Hi. tauto.
Qed.

(** An admission into a cache whose cursor has not reached the capacity
    finds its slot unused. *)
Lemma gzfc_admit_unused capacity k g saddr free_addr g' :
  capacity < 2 ^ 32 ->
  Z.of_nat k < capacity ->
  gzfc_unused_from k g ->
  gzfc_admit capacity g saddr = Ok (free_addr, g') ->
  free_addr = 0 /\ gzfc_unused_from (S k) g'.
Proof.
  intros Hc Hk [Hidx Hun] H. unfold gzfc_admit in H.
  destruct (Z.leb_spec capacity (gzfc_index g)); [lia|].
  destruct (gzfc g !! Z.to_nat (gzfc_index g)) as [fa|] eqn:Hfa;
    [|discriminate].
  injection H as <- <-. split; [exact (Hun _ _ Hfa (le_n _))|].
  split; simpl.
  - unfold u32. rewrite Z.mod_small; lia.
  - unfold u32. rewrite Z.mod_small by lia. intros i a Hi Hle.
    rewrite list_lookup_insert_ne in Hi by lia.
    apply (Hun i a Hi). lia.
Qed.

Lemma gz_retained_refl st z : gz_retained st z st z.
Proof. repeat split. Qed.

Lemma gz_retained_trans st z st1 z1 st2 z2 :
  gz_retained st z st1 z1 -> gz_retained st1 z1 st2 z2 ->
  gz_retained st z st2 z2.
Proof.
  intros (A1 & A2 & A3 & A4 & A5) (B1 & B2 & B3 & B4 & B5).
  repeat split; congruence.
Qed.

(** A free that returns does not change what frees read; with a cache
    configured it either leaves the cache alone and releases nothing, or
    makes one admission to it, and releases nothing if that admission
    returns no address. *)
Lemma gzalloc_free_step e st z addr b st' z' :
  gzalloc_free e st z addr = Ok (b, st', z') ->
  gz_same_view st z st' z'
  /\ (gzfc_size (cfg st) ≠ 0 ->
      (gz z' = gz z /\ gz_retained st z st' z')
      \/ (exists free_addr,
            gzfc_admit (gzfc_size (cfg st)) (gz z)
                       (gzfree_saddr (cfg st) z addr)
            = Ok (free_addr, gz z')
            /\ (free_addr = 0 -> gz_retained st z st' z'))).
Proof.
  intros H. unfold gzalloc_free in H. unfold gzfree_saddr.
  destruct (gz_eligible (cfg st) z);
    [|injection H as <- <- <-; split; [repeat split|]; left; repeat split].
  destruct (gzfree_locate _ z addr) as [gzh saddr]. simpl snd.
  unfold assert, panic_if in H.
  destruct (gzfree_check z (mem st gzh)) as [[]|?|];
  destruct (gzfc_admit (gzfc_size (cfg st)) (gz z) saddr)
    as [[fa g]| |] eqn:Had;
  repeat (case_match; simpl in *; try discriminate);
    injection H as <- <- <-; (split; [repeat split|]); intros Hne;
    try (exfalso; apply Hne; apply Z.eqb_eq; apply negb_false_iff;
         eassumption);
    first [ left; repeat split; reflexivity
          | right; exists fa; split; [reflexivity|]; intros ->;
            first [ repeat split; reflexivity | discriminate ] ].
Qed.

(** The cache of a zone stays within its capacity through every free
    that returns. *)
Lemma gzalloc_free_gzfc_ok e st z addr b st' z' :
  0 < gzfc_size (cfg st) < 2 ^ 32 ->
  gzfc_ok (gzfc_size (cfg st)) (gz z) ->
  gzalloc_free e st z addr = Ok (b, st', z') ->
  gzfc_ok (gzfc_size (cfg st)) (gz z')
  /\ (gzfc_held (gz z') <= Z.to_nat (gzfc_size (cfg st)))%nat.
Proof.
  intros Hc Hok H.
  assert (K : gzfc_ok (gzfc_size (cfg st)) (gz z')).
  { destruct (gzalloc_free_step _ _ _ _ _ _ _ H) as [_ Hcase].
    destruct Hcase as [[-> _] | (fa & Had & _)]; [lia | exact Hok |].
    destruct (gzfc_admit_step _ Hc (gz z) (gzfree_saddr (cfg st) z addr) Hok)
      as (fa' & _ & Had' & Hok').
    rewrite Had' in Had. injection Had as _ <-. exact Hok'. }
  split; [exact K | now apply gzfc_ok_held].
Qed.

Lemma gz_same_view_refl st z : gz_same_view st z st z.
Proof. repeat split. Qed.

Lemma gz_same_view_trans st z st1 z1 st2 z2 :
  gz_same_view st z st1 z1 -> gz_same_view st1 z1 st2 z2 ->
  gz_same_view st z st2 z2.
Proof.
  intros (A1 & A2 & A3 & A4 & A5) (B1 & B2 & B3 & B4 & B5).
  repeat split; congruence.
Qed.

(** What a free computes before it touches the cache depends on the view
    only. *)
Lemma gz_same_view_free e st z st' z' addr :
  gz_same_view st z st' z' ->
  gz_eligible (cfg st') z' = gz_eligible (cfg st) z
  /\ gz_rounded_size z' = gz_rounded_size z
  /\ gzfree_saddr (cfg st') z' addr = gzfree_saddr (cfg st) z addr
  /\ (gzfree_live e st z addr -> gzfree_live e st' z' addr).
Proof.
  intros (Hc & Hm & Hp & Hs & Hx).
  assert (Hr : gz_rounded_size z' = gz_rounded_size z)
    by (unfold gz_rounded_size; now rewrite Hs).
  assert (Hl : gzfree_locate (gzalloc_uf_mode (cfg st')) z' addr
               = gzfree_locate (gzalloc_uf_mode (cfg st)) z addr)
    by (unfold gzfree_locate, gz_residue; now rewrite Hc, Hs, Hr).
  split; [unfold gz_eligible; now rewrite Hc, Hs, Hx|].
  split; [exact Hr|].
  split; [unfold gzfree_saddr; now rewrite Hl|].
  unfold gzfree_live, hdr_consistent. now rewrite Hl, Hc, Hm, Hp, Hs.
Qed.

(** While the cursor of a cache has not reached the capacity, frees
    release nothing. *)
Lemma gzalloc_free_all_retains calls : forall k st z st' z',
  gzfc_size (cfg st) < 2 ^ 32 ->
  gzfc_unused_from k (gz z) ->
  Z.of_nat (k + length calls) <= gzfc_size (cfg st) ->
  gzalloc_free_all st z calls = Ok (st', z') ->
  gz_retained st z st' z' /\ gz_same_view st z st' z'.
Proof.
  induction calls as [|[e addr] rest IH]; intros k st z st' z' Hc Hun Hk H;
    simpl in H.
  - injection H as <- <-. split; [apply gz_retained_refl | apply gz_same_view_refl].
  - destruct (gzalloc_free e st z addr) as [[[b st1] z1]| |] eqn:Hf;
      simpl in H; try discriminate.
    destruct (gzalloc_free_step _ _ _ _ _ _ _ Hf) as [Hv Hcase].
    assert (Hcfg : cfg st1 = cfg st) by apply Hv.
    simpl length in Hk.
    destruct Hcase as [[Hgz Hret] | (fa & Had & Hret)]; [lia| |].
    + destruct (IH k st1 z1 st' z') as [R V]; try assumption.
      * now rewrite Hcfg.
      * now rewrite Hgz.
      * rewrite Hcfg. lia.
      * split; [eapply gz_retained_trans | eapply gz_same_view_trans];
          eassumption.
    + destruct (gzfc_admit_unused _ k _ _ _ _ Hc ltac:(lia) Hun Had)
        as [-> Hun'].
      destruct (IH (S k) st1 z1 st' z') as [R V]; try assumption.
      * now rewrite Hcfg.
      * rewrite Hcfg. lia.
      * split; [eapply gz_retained_trans | eapply gz_same_view_trans];
          eauto.
Qed.

(** A free that is not early and returns: the eviction candidate is the
    freed region itself when no cache is configured, else what the
    admission to the cache returns; a candidate that is not null is
    removed from the guard map over the rounded size plus one page. *)
Lemma gzalloc_free_live_step e st z addr b st' z' :
  gz_eligible (cfg st) z = true ->
  gzfree_live e st z addr ->
  gzalloc_free e st z addr = Ok (b, st', z') ->
  exists free_addr,
    (if gzfc_size (cfg st) =? 0
     then free_addr = gzfree_saddr (cfg st) z addr /\ gz z' = gz z
     else gzfc_admit (gzfc_size (cfg st)) (gz z) (gzfree_saddr (cfg st) z addr)
          = Ok (free_addr, gz z'))
    /\ (free_addr ≠ 0 ->
        vm_removed (vm_log st')
        = (free_addr, u64 (free_addr + gz_rounded_size z + 1 * PAGE_SIZE))
            :: vm_removed (vm_log st)).
Proof.
  intros He Hlive H. unfold gzalloc_free in H. rewrite He in H.
  unfold gzfree_saddr.
  destruct (gzfree_locate _ z addr) as [gzh saddr] eqn:Hl.
  destruct (gzfree_live_prelude _ _ _ _ _ _ Hl Hlive) as (Ha & Hk & Hb).
  rewrite Ha, Hk in H. simpl in H. rewrite Hb in H. simpl snd.
  unfold panic_if in H.
  destruct (gzfc_admit (gzfc_size (cfg st)) (gz z) saddr)
    as [[fa g]| |] eqn:Had;
  destruct (gzfc_size (cfg st) =? 0) eqn:Hfc; simpl in H;
  repeat (case_match; simpl in *; try discriminate);
    injection H as <- <- <-;
    first [ exists fa; split; [reflexivity|]; intros Hne; simpl;
            first [ reflexivity
                  | exfalso; apply Hne; apply Z.eqb_eq; apply negb_false_iff;
                    eassumption ]
          | exists saddr; split; [split; reflexivity|]; intros Hne; simpl;
            first [ reflexivity
                  | exfalso; apply Hne; apply Z.eqb_eq; apply negb_false_iff;
                    eassumption ] ].
Qed.

(** A run of frees that are not early, with a cache configured, admits
    the starts of the freed regions in order. *)
Lemma gzalloc_free_all_live_admits calls : forall st0 z0 st z st' z',
  gz_same_view st0 z0 st z ->
  gz_eligible (cfg st0) z0 = true ->
  gzfc_size (cfg st0) ≠ 0 ->
  Forall (fun c : gz_env * Z => gzfree_live c.1 st0 z0 c.2) calls ->
  gzalloc_free_all st z calls = Ok (st', z') ->
  gz_same_view st0 z0 st' z'
  /\ exists evicted,
       gzfc_admit_all (gzfc_size (cfg st0)) (gz z)
         (map (fun c : gz_env * Z => gzfree_saddr (cfg st0) z0 c.2) calls)
       = Ok (evicted, gz z').
Proof.
  induction calls as [|[e addr] rest IH];
    intros st0 z0 st z st' z' Hv He Hfc Hlive H; simpl in H.
  - injection H as <- <-. split; [exact Hv|]. now exists [].
  - destruct (gzalloc_free e st z addr) as [[[b st1] z1]| |] eqn:Hf;
      simpl in H; try discriminate.
    apply Forall_cons in Hlive. destruct Hlive as [Hl Hrest]. simpl in Hl.
    destruct (gz_same_view_free e _ _ _ _ addr Hv) as (Ee & _ & Es & El).
    assert (Hcfg : cfg st = cfg st0) by apply Hv.
    destruct (gzalloc_free_live_step e st z addr b st1 z1) as (fa & Hfa & _);
      [congruence | now apply El | exact Hf |].
    rewrite Es, Hcfg in Hfa. apply Z.eqb_neq in Hfc. rewrite Hfc in Hfa.
    apply Z.eqb_neq in Hfc.
    destruct (gzalloc_free_step _ _ _ _ _ _ _ Hf) as [Hv1 _].
    destruct (IH st0 z0 st1 z1 st' z') as (Hv' & ev & Hall); try assumption.
    { eapply gz_same_view_trans; eassumption. }
    split; [exact Hv'|]. exists (fa :: ev). simpl. rewrite Hfa. simpl.
    now rewrite Hall.
Qed.

(** C10.  Take an eligible zone whose cache is fresh, as
    [gzalloc_zone_init] leaves it, with room for [gzfc_size] addresses.
    - Any run of at most [gzfc_size] frees against it that returns has
      released nothing: no region was removed from the guard map, the
      element count and byte total of the zone were not decremented, and
      [gzalloc_freed] and [gzalloc_wasted] are unchanged.
    - When [gzfc_size] frees that are not early are followed by one more,
      and the region freed first has a non-null start, that last free
      removes exactly the region freed first from the guard map. *)
Theorem gzalloc_free_fresh_zone_retains st z n :
  wf_config (cfg st) ->
  gz_eligible (cfg st) z = true ->
  gz z = gzfc_fresh n ->
  (Z.to_nat (gzfc_size (cfg st)) <= n)%nat ->
  (forall calls st' z',
      (length calls <= Z.to_nat (gzfc_size (cfg st)))%nat ->
      gzalloc_free_all st z calls = Ok (st', z') ->
      gz_retained st z st' z')
  /\ (forall calls e addr st1 z1 b st2 z2 first,
         length calls = Z.to_nat (gzfc_size (cfg st)) ->
         Forall (fun c : gz_env * Z => gzfree_live c.1 st z c.2)
                (calls ++ [(e, addr)]) ->
         gzalloc_free_all st z calls = Ok (st1, z1) ->
         gzalloc_free e st1 z1 addr = Ok (b, st2, z2) ->
         head (map (fun c : gz_env * Z => gzfree_saddr (cfg st) z c.2)
                   (calls ++ [(e, addr)])) = Some first ->
         first ≠ 0 ->
         vm_removed (vm_log st2)
         = (first, u64 (first + gz_rounded_size z + 1 * PAGE_SIZE))
             :: vm_removed (vm_log st)).
Proof.
  intros (Hmin & Hmax & Hfc) He Hgz Hn.
  assert (Hret : forall calls st' z',
             (length calls <= Z.to_nat (gzfc_size (cfg st)))%nat ->
             gzalloc_free_all st z calls = Ok (st', z') ->
             gz_retained st z st' z' /\ gz_same_view st z st' z').
  { intros calls st' z' Hlen H.
    apply (gzalloc_free_all_retains calls 0 st z st' z'); try assumption.
    - lia.
    - rewrite Hgz. apply gzfc_fresh_unused.
    - lia. }
  split; [intros calls st' z' Hlen H; exact (proj1 (Hret calls st' z' Hlen H))|].
  intros calls e addr st1 z1 b st2 z2 first Hlen Hlive H1 H2 Hfirst Hnz.
  destruct (Hret calls st1 z1 ltac:(lia) H1) as [(R1 & _) V1].
  apply Forall_app in Hlive. destruct Hlive as [Hlc Hll].
  apply Forall_cons in Hll. destruct Hll as [Hl _]. simpl in Hl.
  destruct (gz_same_view_free e _ _ _ _ addr V1) as (Ee & Er & Es & El).
  destruct (gzalloc_free_live_step e st1 z1 addr b st2 z2)
    as (fa & Hfa & Hrel); [congruence | now apply El | exact H2 |].
  assert (Hcfg : cfg st1 = cfg st) by apply V1.
  rewrite Es, Hcfg in Hfa. rewrite Er, R1 in Hrel.
  set (saddrs := map (fun c : gz_env * Z => gzfree_saddr (cfg st) z c.2) calls)
    in *.
  rewrite map_app in Hfirst. fold saddrs in Hfirst. simpl in Hfirst.
  assert (Hsl : length saddrs = Z.to_nat (gzfc_size (cfg st)))
    by (subst saddrs; now rewrite length_map).
  destruct (Z.eqb_spec (gzfc_size (cfg st)) 0) as [E0 | N0].
  - (* no cache: the free releases its own region *)
    destruct Hfa as [-> _].
    destruct saddrs as [|a l]; [|simpl in Hsl; lia].
    simpl in Hfirst. injection Hfirst as <-. now apply Hrel.
  - (* the cache is full: the free evicts the first admitted address *)
    destruct (gzalloc_free_all_live_admits calls st z st z st1 z1
                (gz_same_view_refl st z) He N0 Hlc H1) as (_ & ev & Hall).
    fold saddrs in Hall. rewrite Hgz in Hall.
    pose proof (gzfc_admit_all_fill (gzfc_size (cfg st)) ltac:(lia)
                  saddrs [] n) as F.
    simpl length in F. simpl app in F. change (Z.of_nat 0) with 0 in F.
    unfold gzfc_fresh in Hall. rewrite F in Hall by lia.
    injection Hall as _ Hg1.
    destruct saddrs as [|a l]; [simpl in Hsl; lia|].
    simpl in Hfirst. injection Hfirst as ->.
    rewrite <- Hg1 in Hfa. unfold gzfc_admit in Hfa. simpl in Hfa.
    destruct (Z.leb_spec (gzfc_size (cfg st)) (Z.of_nat (S (length l))));
      [|simpl in Hsl; lia].
    simpl in Hfa. injection Hfa as <- _. now apply Hrel.
Qed.

Lemma sample_boot_addrs :
  match sample_boot with
  | Ok (_, _, addrs) =>
      addrs = [0xffffff8100000c00; 0xffffff8100002c00; 0xffffff8100004c00]
  | _ => False
  end.
Proof. vm_compute. reflexivity. Qed.

Lemma gzalloc_free_all_snoc calls : forall c st z,
  gzalloc_free_all st z (calls ++ [c])
  = '(st1, z1) ← gzalloc_free_all st z calls;
    '(_, st2, z2) ← gzalloc_free c.1 st1 z1 c.2;
    Ok (st2, z2).
Proof.
  induction calls as [|[e addr] rest IH]; intros [e' addr'] st z; simpl.
  - destruct (gzalloc_free e' st z addr') as [[[b st1] z1]| |]; reflexivity.
  - destruct (gzalloc_free e st z addr) as [[[b st1] z1]| |]; simpl;
      [apply IH | reflexivity | reflexivity].
Qed.

Lemma gzalloc_free_fresh_zone_retains_witness :
  let st := sample_live_state in
  let z := sample_live_zone in
  let e := sample_env 0 0 in
  match gzalloc_free_all st z
          [(e, 0xffffff8100000c00); (e, 0xffffff8100002c00)] with
  | Ok (st1, z1) =>
      gz_retained st z st1 z1
      /\ match gzalloc_free e st1 z1 0xffffff8100004c00 with
         | Ok (_, st2, _) =>
             vm_removed (vm_log st2)
             = (0xffffff8100000000,
                u64 (0xffffff8100000000 + gz_rounded_size z + 1 * PAGE_SIZE))
                 :: vm_removed (vm_log st)
         | _ => False
         end
  | _ => False
  end.
Proof.
  intros st z e.
  assert (Hwf : wf_config (cfg st))
    by (vm_compute; repeat split; discriminate).
  assert (He : gz_eligible (cfg st) z = true) by (vm_compute; reflexivity).
  assert (Hgz : gz z = gzfc_fresh 512) by (vm_compute; reflexivity).
  assert (Hn : (Z.to_nat (gzfc_size (cfg st)) <= 512)%nat)
    by (vm_compute; repeat constructor).
  destruct (gzalloc_free_fresh_zone_retains st z 512 Hwf He Hgz Hn)
    as [P1 P2].
  set (calls := [(e, 0xffffff8100000c00); (e, 0xffffff8100002c00)]).
  assert (Hok : is_Ok (gzalloc_free_all st z
                         (calls ++ [(e, 0xffffff8100004c00)])) = true)
    by (vm_compute; reflexivity).
  rewrite gzalloc_free_all_snoc in Hok.
  destruct (gzalloc_free_all st z calls) as [[st1 z1]| |] eqn:H1;
    [|discriminate Hok|discriminate Hok].
  split; [apply (P1 calls st1 z1);
            [vm_compute; repeat constructor | exact H1]|].
  change (is_Ok ('(_, st2, z2) ← gzalloc_free e st1 z1 0xffffff8100004c00;
                 Ok (st2, z2)) = true) in Hok.
  destruct (gzalloc_free e st1 z1 0xffffff8100004c00)
    as [[[b st2] z2]| |] eqn:H2;
    [|discriminate Hok|discriminate Hok].
  apply (P2 calls e 0xffffff8100004c00 st1 z1 b st2 z2).
  - reflexivity.
  - repeat apply Forall_cons_2; try apply Forall_nil_2;
      (split; [vm_compute; reflexivity|]);
      (split; [intros _; vm_compute; reflexivity|]);
      (split; [reflexivity | vm_compute; discriminate]).
  - exact H1.
  - exact H2.
  - vm_compute. reflexivity.
  - discriminate.
Defined.

(** ** The calls a free makes *)


(** The calls of a free that is not early and returns, latest first: with
    a cache configured, [vm_map_protect] over the freed region; then
    [vm_map_remove] over the eviction candidate, if there is one.  The
    candidate is the freed region itself when no cache is configured,
    else what the admission to the cache returns. *)
Lemma gzalloc_free_live_log e st z addr b st' z' :
  gz_eligible (cfg st) z = true ->
  gzfree_live e st z addr ->
  gzalloc_free e st z addr = Ok (b, st', z') ->
  let saddr := gzfree_saddr (cfg st) z addr in
  let span := fun a => u64 (a + gz_rounded_size z + 1 * PAGE_SIZE) in
  exists free_addr,
    (if gzfc_size (cfg st) =? 0
     then free_addr = saddr /\ gz z' = gz z
     else gzfc_admit (gzfc_size (cfg st)) (gz z) saddr = Ok (free_addr, gz z'))
    /\ vm_log st'
       = (if free_addr =? 0 then []
          else [Vm_map_remove gzalloc_map free_addr (span free_addr)
                  VM_MAP_REMOVE_KUNWIRE])
         ++ (if gzfc_size (cfg st) =? 0 then []
             else [Vm_map_protect gzalloc_map saddr (span saddr)
                     (gzalloc_prot (cfg st))])
         ++ vm_log st.
Proof.
  intros He Hlive H saddr0 span. subst saddr0 span.
  unfold gzalloc_free in H. rewrite He in H. unfold gzfree_saddr.
  destruct (gzfree_locate _ z addr) as [gzh saddr] eqn:Hl.
  destruct (gzfree_live_prelude _ _ _ _ _ _ Hl Hlive) as (Ha & Hk & Hb).
  rewrite Ha, Hk in H. simpl in H. rewrite Hb in H. simpl snd.
  unfold panic_if in H.
  destruct (gzfc_size (cfg st) =? 0) eqn:Hfc; simpl in H.
  - exists saddr.
    destruct (saddr =? 0) eqn:Hs; simpl in H;
      destruct (negb (preemption_level e =? 0)); simpl in H;
      repeat (case_match; simpl in *; try discriminate);
      injection H as <- <- <-; repeat split.
  - destruct (negb (preemption_level e =? 0)); simpl in H;
      destruct (negb (protect_kr e =? KERN_SUCCESS)); simpl in H;
      try discriminate;
      destruct (gzfc_admit (gzfc_size (cfg st)) (gz z) saddr)
        as [[fa g]| |] eqn:Had; simpl in H; try discriminate;
      exists fa;
      destruct (fa =? 0) eqn:Hfa; simpl in H;
      repeat (case_match; simpl in *; try discriminate);
      injection H as <- <- <-; repeat split.
Qed.

(** ** C2: frees fill the cache as a ring of fixed capacity *)

(** Filling a fresh cache to its capacity and admitting one more address:
    nothing comes back for the first [capacity] addresses, the
    first-admitted address comes back for the last one, which takes its
    slot. *)
Lemma gzfc_admit_all_first_out (capacity : Z) (n : nat) (first : Z)
  (mid : list Z) (last : Z) :
  0 < capacity < 2 ^ 32 ->
  (Z.to_nat capacity <= n)%nat ->
  length (first :: mid) = Z.to_nat capacity ->
  gzfc_admit_all capacity (gzfc_fresh n) (first :: mid ++ [last])
  = Ok (replicate (Z.to_nat capacity) 0 ++ [first],
        mk_gz 1 (last :: mid ++ replicate (n - Z.to_nat capacity) 0)).
Proof.
  intros Hcap Hn Hlen.
  change (first :: mid ++ [last]) with ((first :: mid) ++ [last]).
  rewrite gzfc_admit_all_app by exact Hcap.
  pose proof (gzfc_admit_all_fill capacity Hcap (first :: mid) [] n) as F.
  simpl length in F. simpl app in F. change (Z.of_nat 0) with 0 in F.
  unfold gzfc_fresh. rewrite F by (simpl in Hlen; lia).
  simpl in Hlen. simpl. unfold gzfc_admit. simpl.
  destruct (Z.leb_spec capacity (Z.of_nat (S (length mid)))); [|lia].
  simpl. rewrite <- Hlen. reflexivity.
Qed.

(** The cache of a zone stays within its capacity through every run of
    frees that returns. *)
Lemma gzalloc_free_all_gzfc_ok calls : forall st z st' z',
  0 < gzfc_size (cfg st) < 2 ^ 32 ->
  gzfc_ok (gzfc_size (cfg st)) (gz z) ->
  gzalloc_free_all st z calls = Ok (st', z') ->
  gzfc_ok (gzfc_size (cfg st)) (gz z').
Proof.
  induction calls as [|[e addr] rest IH]; intros st z st' z' Hc Hok H;
    simpl in H.
  - now injection H as <- <-.
  - destruct (gzalloc_free e st z addr) as [[[b st1] z1]| |] eqn:Hf;
      simpl in H; try discriminate.
    destruct (gzalloc_free_gzfc_ok _ _ _ _ _ _ _ Hc Hok Hf) as [Hok1 _].
    destruct (gzalloc_free_step _ _ _ _ _ _ _ Hf) as [(Hcfg & _) _].
    rewrite <- Hcfg in *. now apply (IH st1 z1 st' z').
Qed.

(** C2.  For an eligible zone with a cache of capacity [gzfc_size] whose
    array has at least that many slots, as [gzalloc_zone_init] leaves it:
    - whatever is freed to it, in any environments, the cache never holds
      more than [gzfc_size] addresses;
    - a free that is not early and returns has read the slot under the
      cursor (taken as 0 once it has reached the capacity), written the
      start of the freed region in that slot and set the cursor one past
      it, which is at most the capacity; the address it found in the slot
      is the eviction candidate: if it is not null, that region and no
      other is removed from the guard map, else none is;
    - when [gzfc_size + 1] regions are freed to a fresh cache by frees
      that are not early, the region freed first (non-null start) is
      removed from the guard map and no other is; the others are those
      the cache holds afterwards. *)
Theorem gzalloc_free_ring_fifo st z :
  wf_config (cfg st) ->
  gzfc_size (cfg st) ≠ 0 ->
  gz_eligible (cfg st) z = true ->
  let capacity := gzfc_size (cfg st) in
  let span := fun a => u64 (a + gz_rounded_size z + 1 * PAGE_SIZE) in
  let saddr := fun c : gz_env * Z => gzfree_saddr (cfg st) z c.2 in
  gzfc_ok capacity (gz z) ->
  (forall calls st' z',
      gzalloc_free_all st z calls = Ok (st', z') ->
      (gzfc_held (gz z') <= Z.to_nat capacity)%nat)
  /\ (forall e addr b st' z',
         0 <= gzfc_index (gz z) ->
         gzfree_live e st z addr ->
         gzalloc_free e st z addr = Ok (b, st', z') ->
         let slot :=
           if capacity <=? gzfc_index (gz z) then 0 else gzfc_index (gz z) in
         exists free_addr,
           0 <= slot < capacity
           /\ gzfc (gz z) !! Z.to_nat slot = Some free_addr
           /\ gz z' = mk_gz (slot + 1)
                            (<[Z.to_nat slot := saddr (e, addr)]> (gzfc (gz z)))
           /\ vm_removed (vm_log st')
              = (if free_addr =? 0 then [] else [(free_addr, span free_addr)])
                ++ vm_removed (vm_log st))
  /\ (forall n first mid last st' z',
         gz z = gzfc_fresh n ->
         length (first :: mid) = Z.to_nat capacity ->
         Forall (fun c : gz_env * Z => gzfree_live c.1 st z c.2)
                (first :: mid ++ [last]) ->
         gzalloc_free_all st z (first :: mid ++ [last]) = Ok (st', z') ->
         saddr first ≠ 0 ->
         vm_removed (vm_log st')
         = (saddr first, span (saddr first)) :: vm_removed (vm_log st)
         /\ gz z' = mk_gz 1 (saddr last :: map saddr mid
                               ++ replicate (n - Z.to_nat capacity) 0)).
Proof.
  intros Hwf Hne He capacity span saddr Hok.
  assert (Hcap : 0 < capacity < 2 ^ 32)
    by (destruct Hwf as (_ & _ & Hfc); subst capacity; lia).
  assert (Hnb : (gzfc_size (cfg st) =? 0) = false) by now apply Z.eqb_neq.
  split; [|split].
  - intros calls st' z' H.
    apply (gzfc_ok_held capacity).
    exact (gzalloc_free_all_gzfc_ok calls st z st' z' Hcap Hok H).
  - intros e addr b st' z' Hidx Hlive H slot.
    destruct (gzalloc_free_live_log _ _ _ _ _ _ _ He Hlive H)
      as (fa & Hfa & Hlog).
    rewrite Hnb in Hfa, Hlog. fold capacity in Hfa.
    destruct (gzfc_admit_step capacity Hcap (gz z)
                (gzfree_saddr (cfg st) z addr) Hok) as (fa' & Hlk & Had & _).
    rewrite Had in Hfa. injection Hfa as -> Hg.
    fold (gzfc_slot capacity (gz z)) in slot.
    assert (Hs : 0 <= slot < capacity).
    { subst slot. unfold gzfc_slot.
      destruct (Z.leb_spec capacity (gzfc_index (gz z))); lia. }
    exists fa. split; [exact Hs|]. split; [exact Hlk|]. split.
    + rewrite <- Hg. subst slot. unfold u32. rewrite Z.mod_small by lia.
      reflexivity.
    + rewrite Hlog. destruct (fa =? 0); reflexivity.
  - intros n first mid last st' z' Hgz Hlen Hlive H Hnz.
    assert (Hn : (Z.to_nat capacity <= n)%nat).
    { destruct Hok as [Hl _]. rewrite Hgz in Hl. simpl in Hl.
      now rewrite length_replicate in Hl. }
    change (first :: mid ++ [last]) with ((first :: mid) ++ [last]) in *.
    (* what the cache holds *)
    destruct (gzalloc_free_all_live_admits _ st z st z st' z'
                (gz_same_view_refl st z) He Hne Hlive H) as (_ & ev & Hall).
    fold capacity in Hall. rewrite Hgz, map_app in Hall.
    change (map (fun c : gz_env * Z => gzfree_saddr (cfg st) z c.2)
                (first :: mid))
      with (saddr first :: map saddr mid) in Hall.
    simpl map in Hall. simpl app in Hall.
    rewrite gzfc_admit_all_first_out in Hall
      by (try assumption; simpl; rewrite length_map; exact Hlen).
    injection Hall as _ Hg.
    split; [|now rewrite <- Hg].
    (* what was removed *)
    rewrite gzalloc_free_all_snoc in H.
    destruct (gzalloc_free_all st z (first :: mid)) as [[st1 z1]| |] eqn:H1;
      simpl in H; try discriminate.
    destruct (gzalloc_free last.1 st1 z1 last.2) as [[[b st2] z2]| |] eqn:H2;
      simpl in H; try discriminate.
    injection H as <- <-.
    apply Forall_app in Hlive. destruct Hlive as [Hlc Hll].
    apply Forall_cons in Hll. destruct Hll as [Hl _].
    destruct (gzalloc_free_all_retains (first :: mid) 0 st z st1 z1)
      as [(R1 & _) V1]; try assumption.
    { subst capacity. lia. }
    { rewrite Hgz. apply gzfc_fresh_unused. }
    { fold capacity. lia. }
    destruct (gz_same_view_free last.1 _ _ _ _ last.2 V1) as (Ee & Er & Es & El).
    destruct (gzalloc_free_live_step last.1 st1 z1 last.2 b st2 z2)
      as (fa & Hfa & Hrel); [congruence | now apply El | exact H2 |].
    assert (Hcfg : cfg st1 = cfg st) by apply V1.
    rewrite Es, Hcfg, Hnb in Hfa. fold capacity in Hfa.
    rewrite Er, R1 in Hrel.
    destruct (gzalloc_free_all_live_admits _ st z st z st1 z1
                (gz_same_view_refl st z) He Hne Hlc H1) as (_ & ev1 & Hall1).
    fold capacity in Hall1. rewrite Hgz in Hall1.
    pose proof (gzfc_admit_all_fill capacity Hcap
                  (map (fun c : gz_env * Z => gzfree_saddr (cfg st) z c.2)
                       (first :: mid)) [] n) as F.
    simpl length in F. simpl app in F. change (Z.of_nat 0) with 0 in F.
    unfold gzfc_fresh in Hall1.
    rewrite F in Hall1 by (simpl; rewrite ?length_map; simpl in Hlen; lia).
    injection Hall1 as _ Hg1.
    rewrite <- Hg1 in Hfa. unfold gzfc_admit in Hfa.
    simpl in Hfa. rewrite ?length_map in Hfa.
    destruct (Z.leb_spec capacity (Z.of_nat (S (length mid))));
      [|simpl in Hlen; lia].
    simpl in Hfa. injection Hfa as <- _. now apply Hrel.
Qed.

Lemma gzalloc_free_ring_fifo_witness :
  let st := sample_live_state in
  let z := sample_live_zone in
  let e := sample_env 0 0 in
  match gzalloc_free_all st z
          [(e, 0xffffff8100000c00); (e, 0xffffff8100002c00);
           (e, 0xffffff8100004c00)] with
  | Ok (st', z') =>
      (gzfc_held (gz z') <= 2)%nat
      /\ vm_removed (vm_log st')
         = (0xffffff8100000000,
            u64 (0xffffff8100000000 + gz_rounded_size z + 1 * PAGE_SIZE))
             :: vm_removed (vm_log st)
      /\ gz z' = mk_gz 1 (0xffffff8100004000 :: [0xffffff8100002000]
                            ++ replicate (512 - 2) 0)
  | _ => False
  end.
Proof.
  intros st z e.
  assert (Hwf : wf_config (cfg st))
    by (vm_compute; repeat split; discriminate).
  assert (Hne : gzfc_size (cfg st) ≠ 0) by (vm_compute; discriminate).
  assert (He : gz_eligible (cfg st) z = true) by (vm_compute; reflexivity).
  assert (Hgz : gz z = gzfc_fresh 512) by (vm_compute; reflexivity).
  assert (Hok : gzfc_ok (gzfc_size (cfg st)) (gz z)).
  { rewrite Hgz. apply gzfc_fresh_ok. vm_compute. repeat constructor. }
  destruct (gzalloc_free_ring_fifo st z Hwf Hne He Hok) as (P1 & _ & P3).
  set (calls := [(e, 0xffffff8100000c00); (e, 0xffffff8100002c00);
                 (e, 0xffffff8100004c00)]).
  assert (Hret : is_Ok (gzalloc_free_all st z calls) = true)
    by (vm_compute; reflexivity).
  destruct (gzalloc_free_all st z calls) as [[st' z']| |] eqn:H;
    [|discriminate Hret|discriminate Hret].
  split; [exact (P1 calls st' z' H)|].
  apply (P3 512%nat (e, 0xffffff8100000c00) [(e, 0xffffff8100002c00)]
            (e, 0xffffff8100004c00) st' z').
  - exact Hgz.
  - reflexivity.
  - repeat apply Forall_cons_2; try apply Forall_nil_2;
      (split; [vm_compute; reflexivity|]);
      (split; [intros _; vm_compute; reflexivity|]);
      (split; [reflexivity | vm_compute; discriminate]).
  - exact H.
  - vm_compute. discriminate.
Defined.

(** ** C1: the free path recovers the geometry of the allocation *)





(** ** C5: the early reserve *)

(** What an early allocation does to the reserve when it returns: it has
    checked the rounded size against the byte counter, and has taken the
    rounded size plus one page off it. *)
Lemma gzalloc_alloc_early_reserve e st z canblock addr st' z' :
  gz_eligible (cfg st) z = true ->
  gz_admitted e canblock = true ->
  gz_early e = true ->
  gzalloc_alloc e st z canblock = Ok (addr, st', z') ->
  gz_rounded_size z <= gzalloc_reserve_size st
  /\ gzalloc_reserve_size st'
     = u64 (gzalloc_reserve_size st - u64 (gz_rounded_size z + PAGE_SIZE)).
Proof.
  intros He Ha Hearly H. unfold gzalloc_alloc in H. rewrite He in H.
  unfold gz_admitted in Ha. apply negb_true_iff in Ha. rewrite Ha in H.
  unfold gzalloc_backing, panic_if in H. unfold gz_early in Hearly.
  rewrite Hearly in H.
  destruct (Z.ltb_spec (gzalloc_reserve_size
                          (if negb (preemption_level e =? 0)
                           then set_ctr st (set_pdzalloc_count (ctr st)
                                  (u32 (pdzalloc_count (ctr st) + 1)))
                           else st))
                       (gz_rounded_size z)) as [Hlt | Hge];
    simpl in H; [discriminate|].
  destruct (gzalloc_place _ z _) as [[gzaddr gzh] a].
  injection H as <- <- <-.
  destruct (negb (preemption_level e =? 0)); simpl in *; split; auto.
Qed.

(** C5 fails on the code.  Start-up as in [sample_early_run] leaves 4096
    bytes in the reserve.  The next early allocation of a 1024-byte
    element needs 4096 + 4096 bytes; the check compares only the rounded
    size, 4096, with the counter, so the allocation does not panic, and
    the counter wraps around to 2^64 - 4096. *)
Lemma gzalloc_alloc_reserve_underflow :
  match sample_early_run with
  | Ok (st, z) =>
      gzalloc_reserve_size st = 4096
      /\ gz_rounded_size z + PAGE_SIZE = 8192
      /\ match gzalloc_alloc sample_env_early st z TRUE with
         | Ok (_, st', _) => gzalloc_reserve_size st' = 2 ^ 64 - 4096
         | _ => False
         end
  | _ => False
  end.
Proof. vm_compute. repeat split. Qed.

(** ** Start-up configuration *)

Lemma u32_range (x : Z) : 0 <= u32 x < 2 ^ 32.
Proof. apply Z.mod_pos_bound. lia. Qed.

Lemma UINT32_MAX_range : 0 <= UINT32_MAX < 2 ^ 32.
Proof. apply u32_range. Qed.

(** Abstract the next step of [gzalloc_configure] that yields a tuple. *)
Ltac configure_step E :=
  match goal with
  | |- context [match ?s with pair _ _ => _ end] =>
      destruct s as [[? ?] ?] eqn:E
  end.

(** The options that do not bear on the window, and the reserve. *)
Lemma gzalloc_configure_options b a stolen st :
  let st' := gzalloc_configure b a stolen st in
  gzfc_size (cfg st')
  = match arg_gzalloc_fc_size a with
    | Some v => v
    | None => gzfc_size (cfg st)
    end
  /\ gzalloc_uf_mode (cfg st')
     = (if arg_gzalloc_uf_mode a then true else gzalloc_uf_mode (cfg st))
  /\ gzalloc_guard (cfg st')
     = (if arg_gzalloc_uf_mode a then KMA_GUARD_FIRST else gzalloc_guard (cfg st))
  /\ gzalloc_consistency_checks (cfg st')
     = (if arg_gzalloc_noconsistency a then false
        else gzalloc_consistency_checks (cfg st))
  /\ mach_assert (cfg st') = mach_assert (cfg st)
  /\ ctr st' = ctr st /\ mem st' = mem st /\ vm_log st' = vm_log st
  /\ (if gzalloc_mode (cfg st')
      then gzalloc_reserve st' = stolen
           /\ gzalloc_reserve_size st' = GZALLOC_RESERVE_SIZE_DEFAULT
      else gzalloc_reserve st' = gzalloc_reserve st
           /\ gzalloc_reserve_size st' = gzalloc_reserve_size st).
Proof.
  unfold gzalloc_configure.
  configure_step E1. configure_step E2. configure_step E3. configure_step E4.
  destruct (if arg_gzalloc_uf_mode a then _ else _) as [uf guard] eqn:E5.
  destruct (if DEBUG b && negb _ then _ else _) as [[[m5 n5] x5] p5] eqn:E6.
  assert (uf = (if arg_gzalloc_uf_mode a then true else gzalloc_uf_mode (cfg st))
          /\ guard = (if arg_gzalloc_uf_mode a then KMA_GUARD_FIRST
                      else gzalloc_guard (cfg st))) as [-> ->]
    by (destruct (arg_gzalloc_uf_mode a); injection E5 as <- <-; split; reflexivity).
  destruct (if arg_nogzalloc_mode a then false else m5); simpl;
    repeat split; reflexivity.
Qed.

(** The window stays within 32 bits. *)
Lemma gzalloc_configure_window_range b a stolen st :
  wf_config (cfg st) ->
  boot_args_wf a ->
  0 <= gzalloc_min (cfg (gzalloc_configure b a stolen st)) < 2 ^ 32
  /\ 0 <= gzalloc_max (cfg (gzalloc_configure b a stolen st)) < 2 ^ 32.
Proof.
  intros (Hmin & Hmax & _) _.
  pose proof u32_range as U. pose proof UINT32_MAX_range as M.
  unfold gzalloc_configure.
  configure_step E1.
  assert (R1 : 0 <= z < 2 ^ 32 /\ 0 <= z0 < 2 ^ 32)
    by (destruct (arg_gzalloc_mode a); injection E1 as <- <- <-; auto).
  clear E1. configure_step E2.
  assert (R2 : 0 <= z1 < 2 ^ 32 /\ 0 <= z2 < 2 ^ 32)
    by (destruct (arg_gzalloc_min a); injection E2 as <- <- <-; auto).
  clear E2 R1. configure_step E3.
  assert (R3 : 0 <= z3 < 2 ^ 32 /\ 0 <= z4 < 2 ^ 32).
  { destruct (arg_gzalloc_max a); injection E3 as <- <- <-; [|exact R2].
    split; [|apply U]. destruct (z1 =? UINT32_MAX); [lia | apply R2]. }
  clear E3 R2. configure_step E4.
  assert (R4 : 0 <= z5 < 2 ^ 32 /\ 0 <= z6 < 2 ^ 32)
    by (destruct (arg_gzalloc_size a); injection E4 as <- <- <-; auto).
  clear E4 R3.
  destruct (if arg_gzalloc_uf_mode a then _ else _) as [uf guard].
  destruct (if DEBUG b && negb _ then _ else _) as [[[m5 n5] x5] p5] eqn:E6.
  assert (R5 : 0 <= n5 < 2 ^ 32 /\ 0 <= x5 < 2 ^ 32)
    by (destruct (DEBUG b && negb _); injection E6 as <- <- <- <-;
        [split; lia | exact R4]).
  destruct (if arg_nogzalloc_mode a then false else m5); exact R5.
Qed.

(** X1.  [gzalloc_configure] keeps the configuration well formed: given
    numbers on the command line that fit 32 bits, the window bounds and
    the cache capacity it leaves fit 32 bits, and the guard placement it
    leaves agrees with the detection mode (guard page first exactly in
    underflow-detection mode). *)
Theorem gzalloc_configure_wf b a stolen st :
  wf_config (cfg st) ->
  guard_matches_mode (cfg st) ->
  boot_args_wf a ->
  wf_config (cfg (gzalloc_configure b a stolen st))
  /\ guard_matches_mode (cfg (gzalloc_configure b a stolen st)).
Proof.
  intros Hwf Hg Ha.
  destruct (gzalloc_configure_window_range b a stolen st Hwf Ha) as [Rmin Rmax].
  destruct (gzalloc_configure_options b a stolen st)
    as (Efc & Euf & Eg & _).
  split.
  - split; [exact Rmin|]. split; [exact Rmax|]. rewrite Efc.
    destruct Ha as (_ & _ & _ & Afc). destruct Hwf as (_ & _ & Hfc).
    destruct (arg_gzalloc_fc_size a) as [v|]; [now apply Afc | exact Hfc].
  - unfold guard_matches_mode in *. rewrite Eg, Euf.
    destruct (arg_gzalloc_uf_mode a); [reflexivity | exact Hg].
Qed.

Lemma boot_args_wf_sample fixed off :
  (forall v, fixed = Some v -> 0 <= v < 2 ^ 32) ->
  boot_args_wf (sample_boot_args fixed off).
Proof.
  intros H. split; [discriminate|]. split; [discriminate|].
  split; [exact H|]. intros w [= <-]. lia.
Qed.

Lemma gzalloc_configure_wf_witness :
  let st := gzalloc_configure sample_build (sample_boot_args (Some 256) false)
              0xffffff8000100000 (gz_initial sample_build (fun _ => mk_gzhdr 0 0 0)) in
  wf_config (cfg st) /\ guard_matches_mode (cfg st).
Proof.
  apply gzalloc_configure_wf.
  - vm_compute. repeat split; discriminate.
  - reflexivity.
  - apply boot_args_wf_sample. intros v [= <-]. lia.
Defined.

(** X2.  [-nogzalloc_mode] wins over every other option: guarding is off,
    no reserve is taken, and from then on [gzalloc_zone_init],
    [gzalloc_alloc] and [gzalloc_free] leave every zone and the state
    alone, the last two telling the caller to use the ordinary path. *)
Theorem gzalloc_configure_nogzalloc b a stolen st :
  arg_nogzalloc_mode a = true ->
  let st' := gzalloc_configure b a stolen st in
  gzalloc_enabled st' = false
  /\ gzalloc_reserve st' = gzalloc_reserve st
  /\ gzalloc_reserve_size st' = gzalloc_reserve_size st
  /\ forall e z canblock addr,
       gzalloc_zone_init e st' z = Ok (st', z)
       /\ gzalloc_alloc e st' z canblock = Ok (0, st', z)
       /\ gzalloc_free e st' z addr = Ok (false, st', z).
Proof.
  intros Hoff st'.
  assert (Hm : gzalloc_mode (cfg st') = false).
  { subst st'. unfold gzalloc_configure.
    configure_step E1. configure_step E2. configure_step E3. configure_step E4.
    destruct (if arg_gzalloc_uf_mode a then _ else _) as [uf guard].
    destruct (if DEBUG b && negb _ then _ else _) as [[[m5 n5] x5] p5].
    rewrite Hoff. reflexivity. }
  destruct (gzalloc_configure_options b a stolen st)
    as (_ & _ & _ & _ & _ & _ & _ & _ & Hres).
  fold st' in Hres. rewrite Hm in Hres.
  split; [exact Hm|]. split; [apply Hres|]. split; [apply Hres|].
  intros e z canblock addr.
  unfold gzalloc_zone_init, gzalloc_alloc, gzalloc_free, gz_eligible.
  rewrite Hm. repeat split.
Qed.

Lemma gzalloc_configure_nogzalloc_witness :
  let st' := gzalloc_configure sample_build (sample_boot_args (Some 256) true)
               0xffffff8000100000
               (gz_initial sample_build (fun _ => mk_gzhdr 0 0 0)) in
  gzalloc_enabled st' = false
  /\ gzalloc_reserve st' = 0
  /\ gzalloc_reserve_size st' = 0
  /\ forall e z canblock addr,
       gzalloc_zone_init e st' z = Ok (st', z)
       /\ gzalloc_alloc e st' z canblock = Ok (0, st', z)
       /\ gzalloc_free e st' z addr = Ok (false, st', z).
Proof.
  exact (gzalloc_configure_nogzalloc sample_build
           (sample_boot_args (Some 256) true) 0xffffff8000100000
           (gz_initial sample_build (fun _ => mk_gzhdr 0 0 0)) eq_refl).
Defined.

(** X3.  [gzalloc_size=<size>] targets exactly the zones of that element
    size (plus the debug offset where compiled in), whatever window the
    other options ask for: unless [-nogzalloc_mode] is given, a zone is
    eligible if and only if its element size is that size and it is not
    exempt; the reserve is taken. *)
Theorem gzalloc_configure_fixed_size b a stolen st v :
  arg_gzalloc_size a = Some v ->
  arg_nogzalloc_mode a = false ->
  let st' := gzalloc_configure b a stolen st in
  let size := u32 (v + (if ZONE_DEBUG b then u32 (ZONE_DEBUG_OFFSET b) else 0)) in
  (forall z, gz_eligible (cfg st') z = true
             <-> elem_size z = size /\ gzalloc_exempt z = false)
  /\ gzalloc_reserve st' = stolen
  /\ gzalloc_reserve_size st' = GZALLOC_RESERVE_SIZE_DEFAULT.
Proof.
  intros Hsize Hoff st' size.
  assert (Hc : gzalloc_mode (cfg st') = true
               /\ gzalloc_min (cfg st') = size /\ gzalloc_max (cfg st') = size).
  { subst st' size. unfold gzalloc_configure.
    configure_step E1. configure_step E2. configure_step E3.
    rewrite Hsize, Hoff. rewrite andb_false_r.
    destruct (if arg_gzalloc_uf_mode a then _ else _) as [uf guard].
    repeat split. }
  destruct Hc as (Hm & Hmin & Hmax).
  destruct (gzalloc_configure_options b a stolen st)
    as (_ & _ & _ & _ & _ & _ & _ & _ & Hres).
  fold st' in Hres. rewrite Hm in Hres.
  split; [|exact Hres].
  intros z. unfold gz_eligible. rewrite Hm, Hmin, Hmax. simpl.
  rewrite !andb_true_iff, negb_true_iff, !Z.leb_le. intuition lia.
Qed.

Lemma gzalloc_configure_fixed_size_witness :
  let st' := gzalloc_configure sample_build (sample_boot_args (Some 256) false)
               0xffffff8000100000
               (gz_initial sample_build (fun _ => mk_gzhdr 0 0 0)) in
  (forall z, gz_eligible (cfg st') z = true
             <-> elem_size z = 256 /\ gzalloc_exempt z = false)
  /\ gzalloc_reserve st' = 0xffffff8000100000
  /\ gzalloc_reserve_size st' = GZALLOC_RESERVE_SIZE_DEFAULT.
Proof.
  exact (gzalloc_configure_fixed_size sample_build
           (sample_boot_args (Some 256) false) 0xffffff8000100000
           (gz_initial sample_build (fun _ => mk_gzhdr 0 0 0)) 256
           eq_refl eq_refl).
Defined.

Lemma gz_eligible_iff c z :
  gz_eligible c z = true
  <-> gzalloc_mode c = true
      /\ gzalloc_min c <= elem_size z <= gzalloc_max c
      /\ gzalloc_exempt z = false.
Proof.
  unfold gz_eligible.
  rewrite !andb_true_iff, negb_true_iff, !Z.leb_le. tauto.
Qed.

(** X4.  The window [gzalloc_configure] derives from the initial globals
    when neither [-gzalloc_mode], [gzalloc_size] nor [-nogzalloc_mode] is
    given: [gzalloc_min] alone guards from that size up to [~0U];
    [gzalloc_max] alone guards from 0 up to that size; both guard the
    range between them, except that a lower bound of [~0U] is taken as 0;
    with neither, a [DEBUG] build guards 8192 to 16384 and any other
    build guards nothing. *)
Theorem gzalloc_configure_window b a stolen m :
  arg_gzalloc_mode a = false ->
  arg_gzalloc_size a = None ->
  arg_nogzalloc_mode a = false ->
  let offset := if ZONE_DEBUG b then u32 (ZONE_DEBUG_OFFSET b) else 0 in
  let st' := gzalloc_configure b a stolen (gz_initial b m) in
  let window lo hi :=
    forall z, gz_eligible (cfg st') z = true
              <-> lo <= elem_size z <= hi /\ gzalloc_exempt z = false in
  match arg_gzalloc_min a, arg_gzalloc_max a with
  | Some lo, None => window (u32 (lo + offset)) UINT32_MAX
  | None, Some hi => window 0 (u32 (hi + offset))
  | Some lo, Some hi =>
      window (if u32 (lo + offset) =? UINT32_MAX then 0 else u32 (lo + offset))
             (u32 (hi + offset))
  | None, None =>
      if DEBUG b then window 8192 16384 else gzalloc_enabled st' = false
  end.
Proof.
  intros Hflag Hsize Hoff offset st' window.
  assert (Hcfg : forall mode lo hi,
             gzalloc_mode (cfg st') = mode -> gzalloc_min (cfg st') = lo ->
             gzalloc_max (cfg st') = hi -> mode = true -> window lo hi).
  { intros mode lo hi Hm Hlo Hhi ->. intros z.
    rewrite gz_eligible_iff, Hm, Hlo, Hhi. tauto. }
  subst st'. unfold gzalloc_configure, gz_initial in *. simpl cfg in *.
  simpl gzalloc_mode in *. simpl gzalloc_min in *. simpl gzalloc_max in *.
  fold offset in Hcfg |- *.
  rewrite Hflag, Hsize, Hoff in *.
  destruct (if arg_gzalloc_uf_mode a then _ else _) as [uf guard].
  destruct (arg_gzalloc_min a) as [lo|], (arg_gzalloc_max a) as [hi|].
  - rewrite andb_false_r in *. eapply Hcfg; reflexivity.
  - rewrite andb_false_r in *. eapply Hcfg; reflexivity.
  - rewrite andb_false_r, Z.eqb_refl in *. eapply Hcfg; reflexivity.
  - destruct (DEBUG b); simpl in *; [eapply Hcfg; reflexivity | reflexivity].
Qed.

Lemma gzalloc_configure_window_witness :
  let a := mk_boot_args false None (Some 4096) None None false false false false in
  let st' := gzalloc_configure sample_build a 0xffffff8000100000
               (gz_initial sample_build (fun _ => mk_gzhdr 0 0 0)) in
  let z := sample_zone 1024 in
  gz_eligible (cfg st') z = true
  <-> 0 <= elem_size z <= u32 (4096 + 0) /\ gzalloc_exempt z = false.
Proof.
  exact (gzalloc_configure_window sample_build
           (mk_boot_args false None (Some 4096) None None false false false false)
           0xffffff8000100000 (fun _ => mk_gzhdr 0 0 0) eq_refl eq_refl eq_refl
           (sample_zone 1024)).
Defined.

(** ** The early reserve and the backing memory *)

(** X5.  Before the kernel memory system is up, [gzalloc_zone_init] takes
    the cache array of an eligible zone from the reserve and checks
    exactly what it takes: it panics if and only if the reserve holds
    less than the page-rounded array; otherwise the byte counter goes down
    by that amount without wrapping, the reserve pointer goes up by it,
    no call is made to the virtual-memory subsystem, and the zone gets a
    zeroed array with room for [gzfc_size] addresses. *)
Theorem gzalloc_zone_init_reserve e st z :
  wf_config (cfg st) ->
  0 <= gzalloc_reserve_size st < 2 ^ 64 ->
  gz_eligible (cfg st) z = true ->
  gzfc_size (cfg st) ≠ 0 ->
  kmem_ready e = false ->
  let gzfcsz := round_page (8 * gzfc_size (cfg st)) in
  if gzalloc_reserve_size st <? gzfcsz
  then gzalloc_zone_init e st z = Panic Panic_reserve_exhausted
  else exists st' z',
      gzalloc_zone_init e st z = Ok (st', z')
      /\ gzalloc_reserve_size st' = gzalloc_reserve_size st - gzfcsz
      /\ 0 <= gzalloc_reserve_size st'
      /\ gzalloc_reserve st' = u64 (gzalloc_reserve st + gzfcsz)
      /\ vm_log st' = vm_log st
      /\ gz z' = gzfc_fresh (Z.to_nat (gzfcsz / 8))
      /\ 8 * gzfc_size (cfg st) <= gzfcsz.
Proof.
  intros (_ & _ & Hfc) Hrs He Hne Hk gzfcsz.
  assert (HP : PAGE_SIZE = 4096) by reflexivity.
  destruct (round_page_bounds (8 * gzfc_size (cfg st))) as [[B1 B2] _];
    [rewrite HP; lia|]. fold gzfcsz in B1, B2. rewrite HP in B2.
  unfold gzalloc_zone_init.
  unfold gz_eligible in He.
  apply andb_prop in He. destruct He as [He Hex].
  apply andb_prop in He. destruct He as [Hmode Hrange].
  apply andb_prop in Hrange. destruct Hrange as [Hmin Hmax].
  rewrite Hmode. simpl. rewrite Hmin, Hmax, Hex.
  apply Z.eqb_neq in Hne. rewrite Hne, Hk. simpl.
  rewrite (u64_small (8 * gzfc_size (cfg st))) by lia. fold gzfcsz.
  unfold panic_if.
  destruct (Z.ltb_spec (gzalloc_reserve_size st) gzfcsz) as [Hlt | Hge];
    simpl; [reflexivity|].
  eexists _, _. split; [reflexivity|]. simpl.
  rewrite (u64_small (gzalloc_reserve_size st - gzfcsz)) by lia.
  repeat split; lia.
Qed.

Lemma gzalloc_zone_init_reserve_witness :
  exists st' z',
    gzalloc_zone_init sample_env_early (sample_state false 2) (sample_zone 1024)
    = Ok (st', z')
    /\ gzalloc_reserve_size st' = GZALLOC_RESERVE_SIZE_DEFAULT - 4096
    /\ 0 <= gzalloc_reserve_size st'
    /\ gzalloc_reserve st' = u64 (0xffffff8000100000 + 4096)
    /\ vm_log st' = []
    /\ gz z' = gzfc_fresh 512
    /\ 8 * 2 <= 4096.
Proof.
  apply (gzalloc_zone_init_reserve sample_env_early (sample_state false 2)
           (sample_zone 1024)).
  - vm_compute. repeat split; discriminate.
  - vm_compute. split; [discriminate | reflexivity].
  - reflexivity.
  - discriminate.
  - reflexivity.
Defined.

Lemma u64_lockstep (r s k : Z) : u64 (u64 (r + k) + u64 (s - k)) = u64 (r + s).
Proof.
  unfold u64. rewrite <- Zplus_mod. f_equal. lia.
Qed.

(** X6.  The reserve pointer and the reserve byte counter move in
    lockstep: through every call of [gzalloc_zone_init], [gzalloc_alloc]
    and [gzalloc_free] that returns, their sum (the end of the reserve,
    in 64-bit arithmetic) stays what it was. *)
Theorem gzalloc_reserve_end_kept e st z :
  let reserve_end s := u64 (gzalloc_reserve s + gzalloc_reserve_size s) in
  (forall st' z', gzalloc_zone_init e st z = Ok (st', z') ->
                  reserve_end st' = reserve_end st)
  /\ (forall canblock addr st' z',
         gzalloc_alloc e st z canblock = Ok (addr, st', z') ->
         reserve_end st' = reserve_end st)
  /\ (forall addr b st' z',
         gzalloc_free e st z addr = Ok (b, st', z') ->
         reserve_end st' = reserve_end st).
Proof.
  intros reserve_end. subst reserve_end. split; [|split].
  - intros st' z' H. unfold gzalloc_zone_init, panic_if in H.
    repeat (case_match; simpl in *; try discriminate);
      injection H as <- <-; simpl; try reflexivity.
    apply u64_lockstep.
  - intros canblock addr st' z' H.
    unfold gzalloc_alloc, gzalloc_backing, panic_if in H.
    repeat (case_match; simpl in *; try discriminate); simplify_eq; simpl;
      try reflexivity; apply u64_lockstep.
  - intros addr b st' z' H. unfold gzalloc_free in H.
    destruct (gz_eligible (cfg st) z); [|injection H as <- <- <-; reflexivity].
    destruct (gzfree_locate _ z addr) as [gzh saddr].
    unfold assert, panic_if, gzfc_admit in H.
    destruct (gzfree_check z (mem st gzh)) as [[]|?|];
    repeat (case_match; simpl in *; try discriminate);
      injection H as <- <- <-; reflexivity.
Qed.

Lemma gzalloc_reserve_end_kept_witness :
  match gzalloc_alloc sample_env_early (sample_state false 2)
                      (sample_zone 1024) TRUE with
  | Ok (_, st', _) =>
      u64 (gzalloc_reserve st' + gzalloc_reserve_size st')
      = u64 (0xffffff8000100000 + GZALLOC_RESERVE_SIZE_DEFAULT)
  | _ => False
  end.
Proof.
  destruct (gzalloc_reserve_end_kept sample_env_early (sample_state false 2)
              (sample_zone 1024)) as (_ & Ha & _).
  assert (Hok : is_Ok (gzalloc_alloc sample_env_early (sample_state false 2)
                         (sample_zone 1024) TRUE) = true)
    by (vm_compute; reflexivity).
  destruct (gzalloc_alloc sample_env_early (sample_state false 2)
              (sample_zone 1024) TRUE) as [[[a st'] z']| |] eqn:H;
    [|discriminate Hok|discriminate Hok].
  exact (Ha TRUE a st' z' H).
Defined.

(** Where the backing memory of a guarded allocation that returns came
    from, and what that cost. *)
Lemma gzalloc_alloc_backing_effect e st z canblock addr st' z' :
  gz_eligible (cfg st) z = true ->
  gz_admitted e canblock = true ->
  gzalloc_alloc e st z canblock = Ok (addr, st', z') ->
  if gz_early e
  then vm_log st' = vm_log st
       /\ gzalloc_reserve st'
          = u64 (gzalloc_reserve st + u64 (gz_rounded_size z + PAGE_SIZE))
       /\ gzalloc_early_alloc (ctr st')
          = OSAddAtomic64 (SInt32 (gz_rounded_size z))
                          (gzalloc_early_alloc (ctr st))
  else vm_log st'
       = Kernel_memory_allocate gzalloc_map
           (u64 (gz_rounded_size z + 1 * PAGE_SIZE)) 0
           (Z.lor KMA_KOBJECT (gzalloc_guard (cfg st))) :: vm_log st
       /\ kma_kr e = KERN_SUCCESS
       /\ gzalloc_reserve st' = gzalloc_reserve st
       /\ gzalloc_reserve_size st' = gzalloc_reserve_size st
       /\ gzalloc_early_alloc (ctr st') = gzalloc_early_alloc (ctr st).
Proof.
  intros He Ha H. unfold gzalloc_alloc in H. rewrite He in H.
  unfold gz_admitted in Ha. apply negb_true_iff in Ha. rewrite Ha in H.
  unfold gzalloc_backing, gz_early, panic_if in *.
  destruct (negb (kmem_ready e) || (vm_page_zone e =? ZONE_NULL)).
  - destruct (negb (preemption_level e =? 0)); simpl in H;
      destruct (gzalloc_reserve_size st <? gz_rounded_size z); simpl in H;
      try discriminate;
      destruct (gzalloc_place _ z _) as [[gzaddr gzh] a];
      injection H as <- <- <-; simpl; repeat split.
  - destruct (Z.eqb_spec (kma_kr e) KERN_SUCCESS) as [Hkr | Hkr];
      destruct (negb (preemption_level e =? 0)); simpl in H;
      try discriminate;
      destruct (gzalloc_place _ z _) as [[gzaddr gzh] a];
      injection H as <- <- <-; simpl; repeat split; exact Hkr.
Qed.

(** X7.  Early allocations are carved from the reserve one after the
    other and never reach the virtual-memory subsystem: of two early
    allocations in a row, the second gets its backing memory exactly
    where that of the first, its rounded size plus the spare page, ends,
    and the log of virtual-memory calls is as before the first. *)
Theorem gzalloc_alloc_early_consecutive
  e1 e2 st z1 z2 canblock1 canblock2 addr1 st1 z1' addr2 st2 z2' :
  gz_eligible (cfg st) z1 = true ->
  gz_admitted e1 canblock1 = true ->
  gz_early e1 = true ->
  gzalloc_alloc e1 st z1 canblock1 = Ok (addr1, st1, z1') ->
  gz_eligible (cfg st1) z2 = true ->
  gz_admitted e2 canblock2 = true ->
  gz_early e2 = true ->
  gzalloc_alloc e2 st1 z2 canblock2 = Ok (addr2, st2, z2') ->
  gzalloc_base e2 st1
  = u64 (gzalloc_base e1 st + u64 (gz_rounded_size z1 + PAGE_SIZE))
  /\ vm_log st2 = vm_log st.
Proof.
  intros He1 Ha1 Hy1 H1 He2 Ha2 Hy2 H2.
  pose proof (gzalloc_alloc_backing_effect _ _ _ _ _ _ _ He1 Ha1 H1) as B1.
  pose proof (gzalloc_alloc_backing_effect _ _ _ _ _ _ _ He2 Ha2 H2) as B2.
  rewrite Hy1 in B1. rewrite Hy2 in B2.
  destruct B1 as (L1 & R1 & _). destruct B2 as (L2 & _).
  unfold gzalloc_base. rewrite Hy1, Hy2. split; congruence.
Qed.

Lemma gzalloc_alloc_n_2 e st z canblock :
  gzalloc_alloc_n 2 e st z canblock
  = '(_, st, z) ← gzalloc_alloc e st z canblock;
    '(_, st, z) ← gzalloc_alloc e st z canblock;
    Ok (st, z).
Proof. reflexivity. Qed.

Lemma gzalloc_alloc_early_consecutive_witness :
  match gzalloc_alloc sample_env_early (sample_state false 2)
                      (sample_zone 1024) TRUE with
  | Ok (_, st1, z1) =>
      match gzalloc_alloc sample_env_early st1 z1 TRUE with
      | Ok (_, st2, _) =>
          gzalloc_base sample_env_early st1
          = u64 (0xffffff8000100000
                 + u64 (gz_rounded_size (sample_zone 1024) + PAGE_SIZE))
          /\ vm_log st2 = []
      | _ => False
      end
  | _ => False
  end.
Proof.
  assert (Hok : is_Ok (gzalloc_alloc_n 2 sample_env_early (sample_state false 2)
                         (sample_zone 1024) TRUE) = true)
    by (vm_compute; reflexivity).
  rewrite gzalloc_alloc_n_2 in Hok.
  destruct (gzalloc_alloc sample_env_early (sample_state false 2)
              (sample_zone 1024) TRUE) as [[[a1 st1] z1]| |] eqn:H1;
    [|discriminate Hok|discriminate Hok].
  assert (He2 : gz_eligible (cfg st1) z1 = true).
  { destruct (gzalloc_alloc_guarded sample_env_early (sample_state false 2)
                (sample_zone 1024) TRUE a1 st1 z1 eq_refl eq_refl H1)
      as (gzaddr & gzh & _ & Hc & _ & _ & _ & _ & Hs & Hx & _).
    unfold gz_eligible. now rewrite Hc, Hs, Hx. }
  change (is_Ok ('(_, st, z) ← gzalloc_alloc sample_env_early st1 z1 TRUE;
                 Ok (st, z)) = true) in Hok.
  destruct (gzalloc_alloc sample_env_early st1 z1 TRUE)
    as [[[a2 st2] z2]| |] eqn:H2; [|discriminate Hok|discriminate Hok].
  exact (gzalloc_alloc_early_consecutive
           sample_env_early sample_env_early (sample_state false 2)
           (sample_zone 1024) z1 TRUE TRUE a1 st1 z1 a2 st2 z2
           eq_refl eq_refl eq_refl H1 He2 eq_refl eq_refl H2).
Defined.

(** X8.  Once the kernel memory system is up, an eligible allocation asks
    [kernel_memory_allocate] for the rounded size plus one page from the
    guard map, with the configured guard placement, and does not touch the
    reserve; it panics if and only if that call fails, so it never returns
    memory that is not guarded. *)
Theorem gzalloc_alloc_live_backing e st z canblock :
  gz_eligible (cfg st) z = true ->
  gz_admitted e canblock = true ->
  gz_early e = false ->
  (kma_kr e ≠ KERN_SUCCESS ->
   gzalloc_alloc e st z canblock = Panic Panic_kernel_memory_allocate)
  /\ (kma_kr e = KERN_SUCCESS ->
      exists addr st' z',
        gzalloc_alloc e st z canblock = Ok (addr, st', z')
        /\ vm_log st'
           = Kernel_memory_allocate gzalloc_map
               (u64 (gz_rounded_size z + 1 * PAGE_SIZE)) 0
               (Z.lor KMA_KOBJECT (gzalloc_guard (cfg st))) :: vm_log st
        /\ gzalloc_reserve st' = gzalloc_reserve st
        /\ gzalloc_reserve_size st' = gzalloc_reserve_size st
        /\ gzalloc_early_alloc (ctr st') = gzalloc_early_alloc (ctr st)).
Proof.
  intros He Ha Hy. split.
  - intros Hkr. unfold gzalloc_alloc. rewrite He.
    unfold gz_admitted in Ha. apply negb_true_iff in Ha. rewrite Ha.
    unfold gzalloc_backing, panic_if. unfold gz_early in Hy.
    apply Z.eqb_neq in Hkr.
    destruct (negb (preemption_level e =? 0)); simpl; rewrite Hy, Hkr;
      reflexivity.
  - intros Hkr.
    destruct (gzalloc_alloc_returns e st z canblock He Ha) as (addr & st' & z' & H).
    { unfold gzalloc_backed. rewrite Hy. now apply Z.eqb_eq. }
    exists addr, st', z'. split; [exact H|].
    pose proof (gzalloc_alloc_backing_effect _ _ _ _ _ _ _ He Ha H) as B.
    rewrite Hy in B. tauto.
Qed.

Lemma gzalloc_alloc_live_backing_witness :
  exists addr st' z',
    gzalloc_alloc (sample_env 0 0xffffff8100000000) (sample_state true 2)
                  (sample_zone 1024) TRUE = Ok (addr, st', z')
    /\ vm_log st'
       = [Kernel_memory_allocate gzalloc_map
            (u64 (gz_rounded_size (sample_zone 1024) + 1 * PAGE_SIZE)) 0
            (Z.lor KMA_KOBJECT KMA_GUARD_FIRST)]
    /\ gzalloc_reserve st' = 0xffffff8000100000
    /\ gzalloc_reserve_size st' = GZALLOC_RESERVE_SIZE_DEFAULT
    /\ gzalloc_early_alloc (ctr st') = 0.
Proof.
  destruct (gzalloc_alloc_live_backing (sample_env 0 0xffffff8100000000)
              (sample_state true 2) (sample_zone 1024) TRUE
              eq_refl eq_refl eq_refl) as [_ H].
  exact (H eq_refl).
Defined.

(** ** The layout of a guarded allocation *)

(** The placement when the backing memory does not wrap around the
    address space. *)
Lemma gzalloc_place_exact uf_mode z base :
  0 <= elem_size z < 2 ^ 32 ->
  0 <= base ->
  base + gz_rounded_size z + PAGE_SIZE < 2 ^ 64 ->
  gzalloc_place uf_mode z base
  = if uf_mode
    then (base + PAGE_SIZE, base + PAGE_SIZE + elem_size z, base + PAGE_SIZE)
    else (base, base + gz_residue z - GZHEADER_SIZE, base + gz_residue z).
Proof.
  intros Hz Hb Hw.
  destruct (gz_geometry z Hz) as (_ & E & B & _ & P).
  assert (HP : PAGE_SIZE = 4096) by reflexivity.
  assert (HH : GZHEADER_SIZE = 16) by reflexivity.
  rewrite HP, HH in *.
  unfold gzalloc_place. rewrite HP, HH. destruct uf_mode.
  - rewrite (u64_small (base + 4096)) by lia.
    rewrite (u64_small (base + 4096 + elem_size z)) by lia. reflexivity.
  - rewrite (u64_small (base + gz_residue z)) by lia.
    rewrite (u64_small (base + gz_residue z - 16)) by lia. reflexivity.
Qed.

(** X9.  In overflow-detection mode an eligible allocation whose backing
    memory does not wrap around the address space puts the element at the
    very end of its data pages: the element ends exactly at the base plus
    the rounded size, and the header is in the 16 bytes right before the
    element, still inside the data pages.  What follows the data pages
    depends on where the memory came from.  An allocation from the guard
    map has asked [kernel_memory_allocate] for one page more than the
    rounded size, with the guard placement of the configuration, which is
    [KMA_GUARD_LAST] where it matches the mode, as [gzalloc_configure]
    leaves it.  An early allocation has made no call and has no guard
    page: the reserve pointer moves past one more page than the rounded
    size, so a spare page of the reserve follows the element. *)
Theorem gzalloc_alloc_overflow_layout e st z canblock :
  wf_config (cfg st) ->
  0 <= elem_size z ->
  gz_eligible (cfg st) z = true ->
  gzalloc_uf_mode (cfg st) = false ->
  gz_admitted e canblock = true ->
  gzalloc_backed e st z = true ->
  let base := gzalloc_base e st in
  0 <= base ->
  base + gz_rounded_size z + PAGE_SIZE < 2 ^ 64 ->
  exists addr st' z',
    gzalloc_alloc e st z canblock = Ok (addr, st', z')
    /\ addr + elem_size z = base + gz_rounded_size z
    /\ mem st' (addr - GZHEADER_SIZE) = gzalloc_hdr e z
    /\ base <= addr - GZHEADER_SIZE
    /\ (Z.land base PAGE_MASK = 0 ->
        Z.land (addr + elem_size z) PAGE_MASK = 0)
    /\ (if gz_early e
        then vm_log st' = vm_log st
             /\ gzalloc_reserve st' = base + gz_rounded_size z + PAGE_SIZE
        else vm_log st'
             = Kernel_memory_allocate gzalloc_map
                 (gz_rounded_size z + PAGE_SIZE) 0
                 (Z.lor KMA_KOBJECT (gzalloc_guard (cfg st))) :: vm_log st
             /\ (guard_matches_mode (cfg st) ->
                 gzalloc_guard (cfg st) = KMA_GUARD_LAST)).
Proof.
  intros Hwf Hz0 He Huf Ha Hb base Hb0 Hw.
  pose proof (gz_eligible_elem_size _ _ Hwf He) as Hz.
  destruct (gz_geometry z Hz) as (_ & E & B & M & P).
  destruct (gzalloc_alloc_returns e st z canblock He Ha Hb)
    as (addr & st' & z' & Hal).
  destruct (gzalloc_alloc_guarded _ _ _ _ _ _ _ He Ha Hal)
    as (gzaddr & gzh & Hp & _ & Hm & _).
  pose proof (gzalloc_alloc_backing_effect _ _ _ _ _ _ _ He Ha Hal) as Hback.
  fold base in Hp. rewrite Huf, gzalloc_place_exact in Hp by assumption.
  injection Hp as <- <- <-.
  exists (base + gz_residue z), st', z'.
  split; [exact Hal|]. split; [lia|].
  split; [rewrite Hm; apply store_hdr_same|]. split; [lia|].
  assert (HP : PAGE_SIZE = 4096) by reflexivity.
  assert (Hsz : u64 (gz_rounded_size z + PAGE_SIZE)
                = gz_rounded_size z + PAGE_SIZE)
    by (apply u64_small; lia).
  split.
  - rewrite !page_aligned_land. intros Hal0.
    replace (base + gz_residue z + elem_size z) with (base + gz_rounded_size z)
      by lia.
    rewrite Z.add_mod, Hal0, M by lia.
    reflexivity.
  - subst base. unfold gzalloc_base in *.
    destruct (gz_early e).
    + destruct Hback as (Hlog & Hres & _). split; [exact Hlog|].
      rewrite Hres, Hsz, Z.add_assoc. apply u64_small. lia.
    + destruct Hback as (Hlog & _). rewrite Z.mul_1_l, Hsz in Hlog.
      split; [exact Hlog|].
      unfold guard_matches_mode. now rewrite Huf.
Qed.

Lemma gzalloc_alloc_overflow_layout_witness :
  let e := sample_env 0 0xffffff8100000000 in
  let st := sample_state false 2 in
  let z := sample_zone 1024 in
  exists addr st' z',
    gzalloc_alloc e st z TRUE = Ok (addr, st', z')
    /\ addr + 1024 = 0xffffff8100000000 + gz_rounded_size z
    /\ mem st' (addr - GZHEADER_SIZE) = gzalloc_hdr e z
    /\ 0xffffff8100000000 <= addr - GZHEADER_SIZE
    /\ Z.land (addr + 1024) PAGE_MASK = 0
    /\ vm_log st'
       = [Kernel_memory_allocate gzalloc_map (gz_rounded_size z + PAGE_SIZE) 0
            (Z.lor KMA_KOBJECT KMA_GUARD_LAST)].
Proof.
  intros e st z.
  destruct (gzalloc_alloc_overflow_layout e st z TRUE)
    as (addr & st' & z' & Hal & Hend & Hh & Hlo & Halign & Hlog & _);
    try reflexivity.
  - vm_compute. repeat split; discriminate.
  - vm_compute. discriminate.
  - vm_compute. discriminate.
  - exists addr, st', z'. repeat split; try assumption.
    apply Halign. reflexivity.
Defined.

(** X10.  In either detection mode, for backing memory that does not wrap
    around the address space, the element and the header both lie inside
    the data pages of the allocation (the rounded size from the base, or
    from one page above it in underflow-detection mode, where the first
    page is the guard page), and they do not overlap. *)
Theorem gzalloc_alloc_within_data e st z canblock :
  wf_config (cfg st) ->
  0 <= elem_size z ->
  gz_eligible (cfg st) z = true ->
  gz_admitted e canblock = true ->
  gzalloc_backed e st z = true ->
  let base := gzalloc_base e st in
  0 <= base ->
  base + gz_rounded_size z + PAGE_SIZE < 2 ^ 64 ->
  exists addr st' z' gzaddr gzh,
    gzalloc_alloc e st z canblock = Ok (addr, st', z')
    /\ gzalloc_place (gzalloc_uf_mode (cfg st)) z base = (gzaddr, gzh, addr)
    /\ gzaddr = (if gzalloc_uf_mode (cfg st) then base + PAGE_SIZE else base)
    /\ gzaddr <= addr /\ addr + elem_size z <= gzaddr + gz_rounded_size z
    /\ gzaddr <= gzh /\ gzh + GZHEADER_SIZE <= gzaddr + gz_rounded_size z
    /\ (gzh + GZHEADER_SIZE <= addr \/ addr + elem_size z <= gzh).
Proof.
  intros Hwf Hz0 He Ha Hb base Hb0 Hw.
  pose proof (gz_eligible_elem_size _ _ Hwf He) as Hz.
  destruct (gz_geometry z Hz) as (_ & E & B & _ & P).
  destruct (gzalloc_alloc_returns e st z canblock He Ha Hb)
    as (addr & st' & z' & Hal).
  destruct (gzalloc_alloc_guarded _ _ _ _ _ _ _ He Ha Hal)
    as (gzaddr & gzh & Hp & _).
  fold base in Hp. exists addr, st', z', gzaddr, gzh.
  split; [exact Hal|]. split; [exact Hp|].
  rewrite gzalloc_place_exact in Hp by assumption.
  assert (HH : GZHEADER_SIZE = 16) by reflexivity. rewrite HH in *.
  destruct (gzalloc_uf_mode (cfg st)); injection Hp as <- <- <-;
    repeat split; lia.
Qed.

Lemma gzalloc_alloc_within_data_witness :
  let e := sample_env 0 0xffffff8100000000 in
  let z := sample_zone 1024 in
  let base := 0xffffff8100000000 in
  exists addr st' z' gzaddr gzh,
    gzalloc_alloc e (sample_state true 2) z TRUE = Ok (addr, st', z')
    /\ gzalloc_place true z base = (gzaddr, gzh, addr)
    /\ gzaddr = base + PAGE_SIZE
    /\ gzaddr <= addr /\ addr + elem_size z <= gzaddr + gz_rounded_size z
    /\ gzaddr <= gzh /\ gzh + GZHEADER_SIZE <= gzaddr + gz_rounded_size z
    /\ (gzh + GZHEADER_SIZE <= addr \/ addr + elem_size z <= gzh).
Proof.
  intros e z base.
  apply (gzalloc_alloc_within_data e (sample_state true 2) z TRUE);
    try reflexivity.
  - vm_compute. repeat split; discriminate.
  - vm_compute. discriminate.
  - vm_compute. discriminate.
Defined.

(** X11.  A guarded allocation writes inside its data pages only.  With
    memory read as headers: a read that lies wholly outside the data
    pages sees what it saw before the allocation; inside them, the read
    at the header pointer sees the header, and a read that lies wholly
    inside them and shares no byte with the header sees the fill
    pattern. *)
Theorem gzalloc_alloc_fills_data e st z canblock :
  wf_config (cfg st) ->
  0 <= elem_size z ->
  gz_eligible (cfg st) z = true ->
  gz_admitted e canblock = true ->
  gzalloc_backed e st z = true ->
  let base := gzalloc_base e st in
  0 <= base ->
  base + gz_rounded_size z + PAGE_SIZE < 2 ^ 64 ->
  exists addr st' z' gzaddr gzh,
    gzalloc_alloc e st z canblock = Ok (addr, st', z')
    /\ gzalloc_place (gzalloc_uf_mode (cfg st)) z base = (gzaddr, gzh, addr)
    /\ gz_in_data gzaddr (gz_rounded_size z) gzh
    /\ mem st' gzh = gzalloc_hdr e z
    /\ forall a,
         (gz_in_data gzaddr (gz_rounded_size z) a ->
          a + GZHEADER_SIZE <= gzh \/ gzh + GZHEADER_SIZE <= a ->
          mem st' a = fill_hdr)
         /\ (a + GZHEADER_SIZE <= gzaddr \/ gzaddr + gz_rounded_size z <= a ->
             mem st' a = mem st a).
Proof.
  intros Hwf Hz0 He Ha Hb base Hb0 Hw.
  pose proof (gz_eligible_elem_size _ _ Hwf He) as Hz.
  destruct (gz_geometry z Hz) as (_ & E & B & _ & P).
  destruct (gzalloc_alloc_returns e st z canblock He Ha Hb)
    as (addr & st' & z' & Hal).
  destruct (gzalloc_alloc_guarded _ _ _ _ _ _ _ He Ha Hal)
    as (gzaddr & gzh & Hp & _ & Hm & _).
  fold base in Hp. exists addr, st', z', gzaddr, gzh.
  split; [exact Hal|]. split; [exact Hp|].
  rewrite gzalloc_place_exact in Hp by assumption.
  assert (HH : GZHEADER_SIZE = 16) by reflexivity.
  assert (Hin : gz_in_data gzaddr (gz_rounded_size z) gzh).
  { unfold gz_in_data. rewrite HH in *.
    destruct (gzalloc_uf_mode (cfg st)); injection Hp as <- <- <-; lia. }
  split; [exact Hin|].
  split; [rewrite Hm; apply store_hdr_same|].
  unfold gz_in_data in *. rewrite HH in *.
  intros a. rewrite Hm. unfold store_hdr, memset. rewrite HH. split.
  - intros [Hlo Hhi] Hdis.
    destruct (Z.eqb_spec a gzh) as [-> | _]; [lia|].
    destruct (Z.leb_spec gzaddr a); [|lia].
    destruct (Z.leb_spec (a + 16) (gzaddr + gz_rounded_size z)); [|lia].
    reflexivity.
  - intros Hout.
    destruct (Z.eqb_spec a gzh) as [-> | _]; [lia|].
    destruct (Z.leb_spec gzaddr a);
      destruct (Z.leb_spec (a + 16) (gzaddr + gz_rounded_size z));
      try reflexivity; lia.
Qed.

Lemma gzalloc_alloc_fills_data_witness :
  let e := sample_env 0 0xffffff8100000000 in
  let st := sample_state false 2 in
  let z := sample_zone 1024 in
  let base := 0xffffff8100000000 in
  exists addr st' z' gzaddr gzh,
    gzalloc_alloc e st z TRUE = Ok (addr, st', z')
    /\ gzalloc_place false z base = (gzaddr, gzh, addr)
    /\ gz_in_data gzaddr (gz_rounded_size z) gzh
    /\ mem st' gzh = gzalloc_hdr e z
    /\ mem st' base = fill_hdr
    /\ mem st' (base + gz_rounded_size z) = mem st (base + gz_rounded_size z).
Proof.
  intros e st z base.
  destruct (gzalloc_alloc_fills_data e st z TRUE)
    as (addr & st' & z' & gzaddr & gzh & Hal & Hp & Hin & Hh & Hmem);
    try reflexivity.
  - vm_compute. repeat split; discriminate.
  - vm_compute. discriminate.
  - vm_compute. discriminate.
  - exists addr, st', z', gzaddr, gzh.
    split; [exact Hal|]. split; [exact Hp|]. split; [exact Hin|].
    split; [exact Hh|].
    change (gzalloc_base e st) with base in Hp.
    vm_compute in Hp. injection Hp as <- <- <-.
    split.
    + apply (Hmem base); vm_compute;
        [split; discriminate | left; discriminate].
    + apply (Hmem (base + gz_rounded_size z)). right. vm_compute.
      discriminate.
Defined.

(** ** Allocation followed by free *)

(** What [gzalloc_free] finds when it is given the address of a guarded
    allocation whose header nobody has touched. *)
Lemma gzalloc_free_after_alloc e st z canblock addr st' z' :
  wf_config (cfg st) ->
  gz_eligible (cfg st) z = true ->
  gz_admitted e canblock = true ->
  0 <= gzalloc_base e st < 2 ^ 64 ->
  Z.land (gzalloc_base e st) PAGE_MASK = 0 ->
  gzalloc_alloc e st z canblock = Ok (addr, st', z') ->
  exists gzaddr gzh,
    gzalloc_place (gzalloc_uf_mode (cfg st)) z (gzalloc_base e st)
    = (gzaddr, gzh, addr)
    /\ cfg st' = cfg st
    /\ gz_eligible (cfg st') z' = true
    /\ gzfree_locate (gzalloc_uf_mode (cfg st')) z' addr
       = (gzh, gzalloc_base e st)
    /\ mem st' gzh = gzalloc_hdr e z
    /\ hdr_consistent z' (gzalloc_hdr e z) = true
    /\ assert (cfg st') (Z.land (gzalloc_base e st) PAGE_MASK =? 0) = Ok tt
    /\ gz_rounded_size z' = gz_rounded_size z.
Proof.
  intros Hwf He Ha Hrange Halign Hal.
  pose proof (gz_eligible_elem_size _ _ Hwf He) as Hz.
  destruct (gzalloc_alloc_guarded _ _ _ _ _ _ _ He Ha Hal)
    as (gzaddr & gzh & Hp & Hc & Hm & _ & _ & Hptr & Hs & Hx & _).
  exists gzaddr, gzh. split; [exact Hp|]. split; [exact Hc|].
  split; [unfold gz_eligible in *; now rewrite Hc, Hs, Hx|].
  split; [rewrite Hc; now apply (gzfree_locate_place _ z z' _ gzaddr)|].
  split; [rewrite Hm; apply store_hdr_same|].
  split.
  { unfold hdr_consistent, gzalloc_hdr. cbn [gzsig gzone gzsize].
    rewrite Hptr, Hs. unfold u32. rewrite Z.mod_small by lia.
    rewrite (Z.eqb_refl GZALLOC_SIGNATURE), (Z.eqb_refl (elem_size z)).
    destruct (kmem_ready e && negb (vm_page_zone e =? ZONE_NULL));
      rewrite Z.eqb_refl; [reflexivity | now rewrite orb_true_r]. }
  split; [unfold assert; rewrite Halign; simpl; now rewrite andb_false_r|].
  unfold gz_rounded_size. now rewrite Hs.
Qed.

(** X12.  An allocation followed by the free of the address it returned,
    with the header untouched, goes through: the free never fails the
    page-alignment assertion nor any of the consistency checks, whatever
    its environment, so the only panics left to it are those of a failed
    [vm_map_protect] or [vm_map_remove]; and when those calls succeed and
    the cache array of the zone has room for the configured capacity (or
    no cache is configured), the free returns and reports the free as
    handled. *)
Theorem gzalloc_roundtrip_validates e st z canblock e2 :
  wf_config (cfg st) ->
  gz_eligible (cfg st) z = true ->
  gz_admitted e canblock = true ->
  gzalloc_backed e st z = true ->
  0 <= gzalloc_base e st < 2 ^ 64 ->
  Z.land (gzalloc_base e st) PAGE_MASK = 0 ->
  exists addr st' z',
    gzalloc_alloc e st z canblock = Ok (addr, st', z')
    /\ (forall p, gzalloc_free e2 st' z' addr = Panic p ->
                  p = Panic_vm_map_protect \/ p = Panic_vm_map_remove)
    /\ (protect_kr e2 = KERN_SUCCESS ->
        remove_kr e2 = KERN_SUCCESS ->
        gzfc_size (cfg st) = 0 \/ gzfc_ok (gzfc_size (cfg st)) (gz z) ->
        exists st2 z2, gzalloc_free e2 st' z' addr = Ok (true, st2, z2)).
Proof.
  intros Hwf He Ha Hb Hrange Halign.
  destruct (gzalloc_alloc_returns e st z canblock He Ha Hb)
    as (addr & st' & z' & Hal).
  exists addr, st', z'. split; [exact Hal|].
  destruct (gzalloc_free_after_alloc _ _ _ _ _ _ _ Hwf He Ha Hrange Halign Hal)
    as (gzaddr & gzh & _ & Hc & He' & Hl & Hm & Hk & Has & _).
  destruct (gzalloc_alloc_guarded _ _ _ _ _ _ _ He Ha Hal)
    as (_ & _ & _ & _ & _ & _ & _ & _ & _ & _ & Hgz & _).
  apply gzfree_check_consistent in Hk.
  assert (Hck : (if gzalloc_consistency_checks (cfg st')
                 then gzfree_check z' (gzalloc_hdr e z) else Ok tt) = Ok tt)
    by (destruct (gzalloc_consistency_checks (cfg st')); auto).
  split.
  - intros p H. unfold gzalloc_free in H. rewrite He', Hl, Has, Hm in H.
    rewrite Hck in H. simpl in H. unfold panic_if, gzfc_admit in H.
    repeat (case_match; simpl in *; try discriminate);
      injection H as <-; auto.
  - intros Hpk Hrk Hcache.
    unfold gzalloc_free. rewrite He', Hl, Has, Hm, Hck.
    destruct (negb (kmem_ready e2) || (gzone (gzalloc_hdr e z) =? GZDEADZONE));
      simpl; [eexists _, _; reflexivity|].
    unfold panic_if. rewrite Hc, Hpk, Hrk, Hgz. simpl.
    destruct (Z.eqb_spec (gzfc_size (cfg st)) 0) as [E0 | N0]; simpl.
    + destruct (negb (preemption_level e2 =? 0)),
        (negb (gzalloc_base e st =? 0)); simpl; eexists _, _; reflexivity.
    + destruct Hcache as [E0 | Hok]; [contradiction|].
      assert (Hcap : 0 < gzfc_size (cfg st) < 2 ^ 32)
        by (destruct Hwf as (_ & _ & Hfc); lia).
      destruct (gzfc_admit_step _ Hcap (gz z) (gzalloc_base e st) Hok)
        as (fa & _ & Had & _).
      destruct (negb (preemption_level e2 =? 0)); simpl; rewrite Had; simpl;
        destruct (negb (fa =? 0)); simpl; eexists _, _; reflexivity.
Qed.

Lemma gzalloc_roundtrip_validates_witness :
  let e := sample_env 0 0xffffff8100000000 in
  match gzalloc_zone_init (sample_env 0 0xffffff8090000000)
          (sample_state true 2) (sample_zone 1024) with
  | Ok (st, z) =>
      exists addr st' z',
        gzalloc_alloc e st z TRUE = Ok (addr, st', z')
        /\ (forall p, gzalloc_free (sample_env 1 0) st' z' addr = Panic p ->
                      p = Panic_vm_map_protect \/ p = Panic_vm_map_remove)
        /\ exists st2 z2,
             gzalloc_free (sample_env 1 0) st' z' addr = Ok (true, st2, z2)
  | _ => False
  end.
Proof.
  intros e.
  destruct (gzalloc_zone_init (sample_env 0 0xffffff8090000000)
              (sample_state true 2) (sample_zone 1024))
    as [[st z]| |] eqn:Hi;
    [|vm_compute in Hi; discriminate|vm_compute in Hi; discriminate].
  assert (Hwf0 : wf_config (cfg (sample_state true 2)))
    by (vm_compute; repeat split; discriminate).
  destruct (gzalloc_zone_init_fresh (sample_env 0 0xffffff8090000000)
              (sample_state true 2) (sample_zone 1024) st z Hwf0 eq_refl Hi)
    as (Hc & Hs & _ & Hx & n & Hgz & Hn).
  assert (Hwf : wf_config (cfg st)) by now rewrite Hc.
  assert (He : gz_eligible (cfg st) z = true)
    by (unfold gz_eligible; rewrite Hc, Hs, Hx; reflexivity).
  destruct (gzalloc_roundtrip_validates e st z TRUE (sample_env 1 0)
              Hwf He eq_refl eq_refl)
    as (addr & st' & z' & Hal & Hpanic & Hret).
  - vm_compute. split; [discriminate | reflexivity].
  - reflexivity.
  - exists addr, st', z'. split; [exact Hal|]. split; [exact Hpanic|].
    apply Hret; [reflexivity | reflexivity |].
    right. rewrite Hgz, Hc. now apply gzfc_fresh_ok.
Defined.

Lemma s32_add_sub (c : Z) : - 2 ^ 31 <= c < 2 ^ 31 -> s32 (s32 (c + 1) - 1) = c.
Proof.
  intros Hc. unfold s32, SInt32.
  replace ((c + 1 + 2 ^ 31) mod 2 ^ 32 - 2 ^ 31 - 1 + 2 ^ 31)
    with ((c + 1 + 2 ^ 31) mod 2 ^ 32 - 1) by lia.
  rewrite Zminus_mod_idemp_l.
  replace (c + 1 + 2 ^ 31 - 1) with (c + 2 ^ 31) by lia.
  rewrite Z.mod_small; lia.
Qed.

(** X13.  With no cache configured, an allocation from the guard map
    followed by the free of the address it returned is a round trip: the
    free removes from the guard map exactly the extent the allocation
    asked for, starting at the address [kernel_memory_allocate] gave, and
    the element count and byte total of the zone and the wasted-bytes
    counter are back at their values from before the allocation. *)
Theorem gzalloc_roundtrip_releases e st z canblock e2 :
  wf_config (cfg st) ->
  gz_eligible (cfg st) z = true ->
  gzfc_size (cfg st) = 0 ->
  zone_ptr z ≠ GZDEADZONE ->
  gz_admitted e canblock = true ->
  gz_early e = false ->
  kma_kr e = KERN_SUCCESS ->
  0 < kma_addr e < 2 ^ 64 ->
  Z.land (kma_addr e) PAGE_MASK = 0 ->
  kmem_ready e2 = true ->
  remove_kr e2 = KERN_SUCCESS ->
  - 2 ^ 31 <= count z < 2 ^ 31 ->
  0 <= cur_size z < 2 ^ 64 ->
  0 <= gzalloc_wasted (ctr st) < 2 ^ 64 ->
  exists addr st1 z1 st2 z2,
    gzalloc_alloc e st z canblock = Ok (addr, st1, z1)
    /\ gzalloc_free e2 st1 z1 addr = Ok (true, st2, z2)
    /\ vm_log st2
       = Vm_map_remove gzalloc_map (kma_addr e)
           (u64 (kma_addr e + gz_rounded_size z + 1 * PAGE_SIZE))
           VM_MAP_REMOVE_KUNWIRE
         :: Kernel_memory_allocate gzalloc_map
              (u64 (gz_rounded_size z + 1 * PAGE_SIZE)) 0
              (Z.lor KMA_KOBJECT (gzalloc_guard (cfg st)))
         :: vm_log st
    /\ count z2 = count z
    /\ cur_size z2 = cur_size z
    /\ sum_count z2 = u64 (sum_count z + 1)
    /\ gzalloc_wasted (ctr st2) = gzalloc_wasted (ctr st).
Proof.
  intros Hwf He Hfc Hzp Ha Hy Hkr Hbase Halign Hk2 Hr2 Hcount Hcur Hw.
  assert (Hb : gzalloc_backed e st z = true)
    by (unfold gzalloc_backed; rewrite Hy; now apply Z.eqb_eq).
  assert (Hbe : gzalloc_base e st = kma_addr e)
    by (unfold gzalloc_base; now rewrite Hy).
  destruct (gzalloc_alloc_returns e st z canblock He Ha Hb)
    as (addr & st1 & z1 & Hal).
  destruct (gzalloc_free_after_alloc e st z canblock addr st1 z1 Hwf He Ha)
    as (gzaddr & gzh & _ & Hc & He1 & Hl & Hm & Hk & Has & Hrs);
    [rewrite Hbe; lia | now rewrite Hbe | exact Hal |].
  rewrite Hbe in *.
  destruct (gzalloc_alloc_guarded _ _ _ _ _ _ _ He Ha Hal)
    as (_ & _ & _ & _ & _ & Hwa & _ & _ & Hs & _ & Hgz & Hcnt & Hcs).
  assert (Hlog : vm_log st1
                 = Kernel_memory_allocate gzalloc_map
                     (u64 (gz_rounded_size z + 1 * PAGE_SIZE)) 0
                     (Z.lor KMA_KOBJECT (gzalloc_guard (cfg st))) :: vm_log st).
  { revert Hal. unfold gzalloc_alloc. rewrite He.
    unfold gz_admitted in Ha. apply negb_true_iff in Ha. rewrite Ha.
    unfold gzalloc_backing, panic_if. unfold gz_early in Hy. rewrite Hy.
    apply Z.eqb_eq in Hkr.
    destruct (negb (preemption_level e =? 0)); simpl; rewrite Hkr; simpl;
      destruct (gzalloc_place _ z _) as [[? ?] ?]; intros [= <- <- <-];
      reflexivity. }
  assert (Hsum : sum_count z1 = u64 (sum_count z + 1)).
  { revert Hal. unfold gzalloc_alloc. rewrite He.
    unfold gz_admitted in Ha. apply negb_true_iff in Ha. rewrite Ha.
    unfold gzalloc_backing, panic_if. unfold gz_early in Hy. rewrite Hy.
    apply Z.eqb_eq in Hkr.
    destruct (negb (preemption_level e =? 0)); simpl; rewrite Hkr; simpl;
      destruct (gzalloc_place _ z _) as [[? ?] ?]; intros [= <- <- <-];
      reflexivity. }
  assert (Hdead : (gzone (gzalloc_hdr e z) =? GZDEADZONE) = false).
  { unfold gzalloc_hdr. cbn [gzone]. unfold gz_early in Hy.
    apply orb_false_iff in Hy. destruct Hy as [Hy1 Hy2].
    apply negb_false_iff in Hy1. rewrite Hy1, Hy2. simpl.
    now apply Z.eqb_neq. }
  assert (Hsaddr : (kma_addr e =? 0) = false) by (apply Z.eqb_neq; lia).
  pose proof (gz_eligible_elem_size _ _ Hwf He) as Hz.
  destruct (SInt32_residue z Hz) as [S1 S2].
  assert (Hres : gz_residue z1 = gz_residue z)
    by (unfold gz_residue; now rewrite Hrs, Hs).
  exists addr, st1, z1.
  unfold gzalloc_free. rewrite He1, Hl, Has, Hm, Hc, Hfc, Hk2, Hdead, Hrs.
  apply gzfree_check_consistent in Hk.
  assert (Hck : (if gzalloc_consistency_checks (cfg st)
                 then gzfree_check z1 (gzalloc_hdr e z) else Ok tt) = Ok tt)
    by (destruct (gzalloc_consistency_checks (cfg st)); auto).
  rewrite Hck. simpl. rewrite Hsaddr, Hr2. simpl.
  destruct (negb (preemption_level e2 =? 0)); simpl;
    eexists _, _; (split; [exact Hal|]); (split; [reflexivity|]); simpl;
    rewrite Hlog, Hcnt, Hcs, Hsum, Hwa, Hs;
    fold (gz_residue z); rewrite S2, S1;
    (split; [reflexivity|]);
    (split; [now apply s32_add_sub|]);
    (split; [now apply u64_add_sub|]);
    (split; [reflexivity|]);
    unfold OSAddAtomic64;
    rewrite <- (u64_add_sub (gzalloc_wasted (ctr st))
                  (round_page (elem_size z + GZHEADER_SIZE) - elem_size z))
      at 2 by assumption;
    f_equal; lia.
Qed.

Lemma gzalloc_roundtrip_releases_witness :
  let e := sample_env 0 0xffffff8100000000 in
  let st := sample_state false 0 in
  let z := sample_zone_used in
  exists addr st1 z1 st2 z2,
    gzalloc_alloc e st z TRUE = Ok (addr, st1, z1)
    /\ gzalloc_free (sample_env 0 0) st1 z1 addr = Ok (true, st2, z2)
    /\ vm_log st2
       = Vm_map_remove gzalloc_map 0xffffff8100000000
           (u64 (0xffffff8100000000 + gz_rounded_size z + 1 * PAGE_SIZE))
           VM_MAP_REMOVE_KUNWIRE
         :: Kernel_memory_allocate gzalloc_map
              (u64 (gz_rounded_size z + 1 * PAGE_SIZE)) 0
              (Z.lor KMA_KOBJECT KMA_GUARD_LAST)
         :: []
    /\ count z2 = 1
    /\ cur_size z2 = 4096
    /\ sum_count z2 = u64 (1 + 1)
    /\ gzalloc_wasted (ctr st2) = 0.
Proof.
  intros e st z.
  apply (gzalloc_roundtrip_releases e st z TRUE (sample_env 0 0));
    try reflexivity; vm_compute; repeat split; discriminate.
Defined.

(** X14.  An early allocation is never given back: whenever the address
    it returned is freed, before or after the kernel memory system comes
    up, the free is reported as handled, makes no call to the
    virtual-memory subsystem and leaves cache and cursor alone, and the
    zone keeps the element count and byte total the allocation raised;
    only [gzalloc_early_free] moves. *)
Theorem gzalloc_early_alloc_never_reclaimed e st z canblock e2 :
  wf_config (cfg st) ->
  gz_eligible (cfg st) z = true ->
  gz_admitted e canblock = true ->
  gz_early e = true ->
  gzalloc_backed e st z = true ->
  0 <= gzalloc_reserve st < 2 ^ 64 ->
  Z.land (gzalloc_reserve st) PAGE_MASK = 0 ->
  exists addr st1 z1 st2,
    gzalloc_alloc e st z canblock = Ok (addr, st1, z1)
    /\ gzalloc_free e2 st1 z1 addr = Ok (true, st2, z1)
    /\ count z1 = s32 (count z + 1)
    /\ cur_size z1 = u64 (cur_size z + gz_rounded_size z)
    /\ gz z1 = gz z
    /\ vm_log st2 = vm_log st
    /\ gzalloc_early_free (ctr st2)
       = u64 (gzalloc_early_free (ctr st) + SInt32 (gz_rounded_size z))
    /\ gzalloc_freed (ctr st2) = gzalloc_freed (ctr st).
Proof.
  intros Hwf He Ha Hy Hb Hrange Halign.
  assert (Hbe : gzalloc_base e st = gzalloc_reserve st)
    by (unfold gzalloc_base; now rewrite Hy).
  destruct (gzalloc_alloc_returns e st z canblock He Ha Hb)
    as (addr & st1 & z1 & Hal).
  destruct (gzalloc_free_after_alloc e st z canblock addr st1 z1 Hwf He Ha)
    as (gzaddr & gzh & _ & Hc & He1 & Hl & Hm & Hk & Has & Hrs);
    [rewrite Hbe; lia | now rewrite Hbe | exact Hal |].
  rewrite Hbe in *.
  destruct (gzalloc_alloc_guarded _ _ _ _ _ _ _ He Ha Hal)
    as (_ & _ & _ & _ & _ & _ & _ & _ & _ & _ & Hgz & Hcnt & Hcs).
  assert (Hlog : vm_log st1 = vm_log st
                 /\ gzalloc_early_free (ctr st1) = gzalloc_early_free (ctr st)
                 /\ gzalloc_freed (ctr st1) = gzalloc_freed (ctr st)).
  { revert Hal. unfold gzalloc_alloc. rewrite He.
    unfold gz_admitted in Ha. apply negb_true_iff in Ha. rewrite Ha.
    unfold gzalloc_backing, panic_if. unfold gz_early in Hy. rewrite Hy.
    unfold gzalloc_backed, gz_early in Hb. rewrite Hy in Hb.
    apply negb_true_iff in Hb.
    destruct (negb (preemption_level e =? 0)); simpl; rewrite Hb; simpl;
      destruct (gzalloc_place _ z _) as [[? ?] ?]; intros [= <- <- <-];
      repeat split. }
  destruct Hlog as (Hlog & Hef & Hfr).
  assert (Hdead : (gzone (gzalloc_hdr e z) =? GZDEADZONE) = true).
  { unfold gzalloc_hdr. cbn [gzone]. unfold gz_early in Hy.
    assert (kmem_ready e && negb (vm_page_zone e =? ZONE_NULL) = false) as ->.
    { destruct (kmem_ready e), (vm_page_zone e =? ZONE_NULL);
        simpl in *; congruence. }
    apply Z.eqb_refl. }
  exists addr, st1, z1.
  unfold gzalloc_free. rewrite He1, Hl, Has, Hm, Hdead, Hrs.
  apply gzfree_check_consistent in Hk.
  assert (Hck : (if gzalloc_consistency_checks (cfg st1)
                 then gzfree_check z1 (gzalloc_hdr e z) else Ok tt) = Ok tt)
    by (destruct (gzalloc_consistency_checks (cfg st1)); auto).
  rewrite Hck, orb_true_r. simpl.
  eexists. split; [exact Hal|]. split; [reflexivity|]. simpl.
  rewrite Hef, Hfr. repeat split; assumption.
Qed.

Lemma gzalloc_early_alloc_never_reclaimed_witness :
  let st := sample_state false 2 in
  let z := sample_zone 1024 in
  exists addr st1 z1 st2,
    gzalloc_alloc sample_env_early st z TRUE = Ok (addr, st1, z1)
    /\ gzalloc_free (sample_env 0 0) st1 z1 addr = Ok (true, st2, z1)
    /\ count z1 = s32 (0 + 1)
    /\ cur_size z1 = u64 (0 + gz_rounded_size z)
    /\ gz z1 = gz z
    /\ vm_log st2 = []
    /\ gzalloc_early_free (ctr st2) = u64 (0 + SInt32 (gz_rounded_size z))
    /\ gzalloc_freed (ctr st2) = 0.
Proof.
  intros st z.
  apply (gzalloc_early_alloc_never_reclaimed sample_env_early st z TRUE
           (sample_env 0 0));
    try reflexivity.
  - vm_compute. repeat split; discriminate.
  - vm_compute. split; [discriminate | reflexivity].
Defined.

(** X15.  With consistency checks enabled, a header overwritten after the
    allocation is caught at the free: whatever now stands at the header
    pointer, the free panics on a wrong signature, else on a recorded zone
    that is neither the freeing zone nor [GZDEADZONE], else on a recorded
    size other than the element size; no free with such a header gets as
    far as the cache or the guard map. *)
Theorem gzalloc_corruption_detected e st z canblock e2 h :
  wf_config (cfg st) ->
  gz_eligible (cfg st) z = true ->
  gzalloc_consistency_checks (cfg st) = true ->
  gz_admitted e canblock = true ->
  gzalloc_backed e st z = true ->
  0 <= gzalloc_base e st < 2 ^ 64 ->
  Z.land (gzalloc_base e st) PAGE_MASK = 0 ->
  exists addr st' z' gzaddr gzh,
    gzalloc_alloc e st z canblock = Ok (addr, st', z')
    /\ gzalloc_place (gzalloc_uf_mode (cfg st)) z (gzalloc_base e st)
       = (gzaddr, gzh, addr)
    /\ let corrupted := set_mem st' (store_hdr (mem st') gzh h) in
       (gzsig h ≠ GZALLOC_SIGNATURE ->
        gzalloc_free e2 corrupted z' addr = Panic Panic_signature_mismatch)
       /\ (gzsig h = GZALLOC_SIGNATURE ->
           gzone h ≠ zone_ptr z -> gzone h ≠ GZDEADZONE ->
           gzalloc_free e2 corrupted z' addr = Panic Panic_mismatched_zone)
       /\ (gzsig h = GZALLOC_SIGNATURE ->
           gzone h = zone_ptr z \/ gzone h = GZDEADZONE ->
           gzsize h ≠ elem_size z ->
           gzalloc_free e2 corrupted z' addr = Panic Panic_mismatched_size).
Proof.
  intros Hwf He Hchk Ha Hb Hrange Halign.
  destruct (gzalloc_alloc_returns e st z canblock He Ha Hb)
    as (addr & st' & z' & Hal).
  destruct (gzalloc_free_after_alloc _ _ _ _ _ _ _ Hwf He Ha Hrange Halign Hal)
    as (gzaddr & gzh & Hp & Hc & He' & Hl & _ & _ & Has & _).
  destruct (gzalloc_alloc_guarded _ _ _ _ _ _ _ He Ha Hal)
    as (_ & _ & _ & _ & _ & _ & _ & Hptr & Hs & _).
  exists addr, st', z', gzaddr, gzh.
  split; [exact Hal|]. split; [exact Hp|].
  assert (F : forall p,
             gzfree_check z' h = Panic p ->
             gzalloc_free e2 (set_mem st' (store_hdr (mem st') gzh h)) z' addr
             = Panic p).
  { intros p Hk. apply gzalloc_free_check_fails; simpl;
      try assumption; try (now rewrite Hc).
    - now rewrite Hl.
    - now rewrite Hl, store_hdr_same. }
  destruct (gzfree_check_cases z' h) as (K1 & K2 & K3).
  rewrite Hptr, Hs in *.
  split; [|split].
  - intros Hsig. apply F, K1, Hsig.
  - intros Hsig Hz1 Hz2. apply F, K2. tauto.
  - intros Hsig Hzone Hsize. apply F, K3. tauto.
Qed.

Lemma gzalloc_corruption_detected_witness :
  let e := sample_env 0 0xffffff8100000000 in
  let st := sample_state true 2 in
  let z := sample_zone 1024 in
  exists addr st' z' gzaddr gzh,
    gzalloc_alloc e st z TRUE = Ok (addr, st', z')
    /\ gzalloc_place true z 0xffffff8100000000 = (gzaddr, gzh, addr)
    /\ gzalloc_free (sample_env 0 0)
         (set_mem st' (store_hdr (mem st') gzh fill_hdr)) z' addr
       = Panic Panic_signature_mismatch.
Proof.
  intros e st z.
  destruct (gzalloc_corruption_detected e st z TRUE (sample_env 0 0) fill_hdr)
    as (addr & st' & z' & gzaddr & gzh & Hal & Hp & Hsig & _);
    try reflexivity.
  - vm_compute. repeat split; discriminate.
  - vm_compute. split; [discriminate | reflexivity].
  - exists addr, st', z', gzaddr, gzh. split; [exact Hal|].
    split; [exact Hp|]. apply Hsig. vm_compute. discriminate.
Defined.

(** X16.  With a cache configured, a free that is not early first puts
    the region into its quarantine state: it asks [vm_map_protect] for the
    configured protection over the region from its start through the
    rounded size plus one page, and panics if that fails; when it returns,
    the start of the region stands in the cache slot the cursor pointed
    at and the cursor is one past that slot. *)
Theorem gzalloc_free_quarantines e st z addr :
  gz_eligible (cfg st) z = true ->
  0 < gzfc_size (cfg st) < 2 ^ 32 ->
  gzfc_ok (gzfc_size (cfg st)) (gz z) ->
  gzfree_live e st z addr ->
  let saddr := gzfree_saddr (cfg st) z addr in
  let slot := gzfc_slot (gzfc_size (cfg st)) (gz z) in
  (protect_kr e ≠ KERN_SUCCESS ->
   gzalloc_free e st z addr = Panic Panic_vm_map_protect)
  /\ (forall b st' z',
         gzalloc_free e st z addr = Ok (b, st', z') ->
         protect_kr e = KERN_SUCCESS
         /\ vm_protected (vm_log st')
            = (saddr, u64 (saddr + gz_rounded_size z + 1 * PAGE_SIZE),
               gzalloc_prot (cfg st)) :: vm_protected (vm_log st)
         /\ gzfc (gz z') !! Z.to_nat slot = Some saddr
         /\ gzfc_index (gz z') = u32 (slot + 1)).
Proof.
  intros He Hfc Hok Hlive saddr slot.
  unfold gzalloc_free. rewrite He. subst saddr. unfold gzfree_saddr.
  destruct (gzfree_locate _ z addr) as [gzh saddr] eqn:Hl.
  destruct (gzfree_live_prelude _ _ _ _ _ _ Hl Hlive) as (Ha & Hk & Hb).
  rewrite Ha, Hk. simpl. rewrite Hb.
  assert (Hne : (gzfc_size (cfg st) =? 0) = false) by (apply Z.eqb_neq; lia).
  rewrite Hne. simpl.
  destruct (gzfc_admit_step _ Hfc (gz z) saddr Hok) as (fa & Hfa & Had & Hok').
  fold slot in Hfa, Had, Hok'.
  assert (Hlen : (Z.to_nat slot < length (gzfc (gz z)))%nat)
    by (apply lookup_lt_is_Some; eauto).
  unfold panic_if. split.
  - intros Hkr. apply Z.eqb_neq in Hkr.
    destruct (negb (preemption_level e =? 0)); simpl; now rewrite Hkr.
  - intros b st' z' H.
    destruct (Z.eqb_spec (protect_kr e) KERN_SUCCESS) as [Hkr | Hkr];
      [|destruct (negb (preemption_level e =? 0)); simpl in H; discriminate].
    split; [exact Hkr|].
    destruct (negb (preemption_level e =? 0)); simpl in H;
      rewrite Had in H; simpl in H;
      destruct (negb (fa =? 0)); simpl in H;
      repeat (case_match; simpl in *; try discriminate);
      injection H as <- <- <-; simpl;
      (split; [reflexivity|]); (split; [|reflexivity]);
      now apply list_lookup_insert_eq.
Qed.

Lemma gzalloc_free_quarantines_witness :
  let e := sample_env 0 0 in
  let z := set_gz sample_zone_used (gzfc_fresh 4) in
  let addr := 0xffffff8100000000 + 3072 in
  let st := sample_state_hdr false 2 (addr - 16)
              (mk_gzhdr (zone_ptr z) 1024 GZALLOC_SIGNATURE) in
  match gzalloc_free e st z addr with
  | Ok (_, st', z') =>
      vm_protected (vm_log st')
      = [(0xffffff8100000000, 0xffffff8100000000 + 8192, VM_PROT_NONE)]
      /\ gzfc (gz z') !! 0%nat = Some 0xffffff8100000000
      /\ gzfc_index (gz z') = 1
  | _ => False
  end.
Proof.
  intros e z addr st.
  destruct (gzalloc_free_quarantines e st z addr) as [_ H].
  - reflexivity.
  - split; reflexivity.
  - apply gzfc_fresh_ok. vm_compute. repeat constructor.
  - repeat split; try reflexivity; vm_compute; discriminate.
  - assert (Hok : is_Ok (gzalloc_free e st z addr) = true)
      by (vm_compute; reflexivity).
    destruct (gzalloc_free e st z addr) as [[[b st'] z']| |] eqn:Hf;
      [|discriminate Hok|discriminate Hok].
    destruct (H b st' z' eq_refl) as (_ & Hp & Hs & Hi).
    split; [exact Hp|]. split; [exact Hs | exact Hi].
Defined.

(** X18.  [pdzalloc_count] and [pdzfree_count] count the guarded calls
    made at elevated preemption level: an eligible allocation that goes
    on to be guarded and returns has advanced [pdzalloc_count] by one if
    the preemption level was not zero and left it alone otherwise; a free
    that is not early and returns has done the same to [pdzfree_count];
    neither routine touches the other's counter. *)
Theorem gz_preemption_counters e st z :
  gz_eligible (cfg st) z = true ->
  let bump c := if preemption_level e =? 0 then c else u32 (c + 1) in
  (forall canblock addr st' z',
      gz_admitted e canblock = true ->
      gzalloc_alloc e st z canblock = Ok (addr, st', z') ->
      pdzalloc_count (ctr st') = bump (pdzalloc_count (ctr st))
      /\ pdzfree_count (ctr st') = pdzfree_count (ctr st))
  /\ (forall addr b st' z',
         gzfree_live e st z addr ->
         gzalloc_free e st z addr = Ok (b, st', z') ->
         pdzfree_count (ctr st') = bump (pdzfree_count (ctr st))
         /\ pdzalloc_count (ctr st') = pdzalloc_count (ctr st)).
Proof.
  intros He bump. subst bump. split.
  - intros canblock addr st' z' Ha H.
    unfold gzalloc_alloc in H. rewrite He in H.
    unfold gz_admitted in Ha. apply negb_true_iff in Ha. rewrite Ha in H.
    unfold gzalloc_backing, panic_if in H.
    destruct (preemption_level e =? 0); simpl in H;
      repeat (case_match; simpl in *; try discriminate);
      injection H as <- <- <-; simpl; split; reflexivity.
  - intros addr b st' z' Hlive H.
    unfold gzalloc_free in H. rewrite He in H.
    destruct (gzfree_locate _ z addr) as [gzh saddr] eqn:Hl.
    destruct (gzfree_live_prelude _ _ _ _ _ _ Hl Hlive) as (Ha & Hk & Hb).
    rewrite Ha, Hk in H. simpl in H. rewrite Hb in H.
    unfold panic_if, gzfc_admit in H.
    destruct (preemption_level e =? 0); simpl in H;
      repeat (case_match; simpl in *; try discriminate);
      injection H as <- <- <-; simpl; split; reflexivity.
Qed.

Lemma gz_preemption_counters_witness :
  let e := sample_env 1 0xffffff8100000000 in
  match gzalloc_alloc e (sample_state false 2) (sample_zone 1024) TRUE with
  | Ok (_, st', _) =>
      pdzalloc_count (ctr st') = u32 (0 + 1)
      /\ pdzfree_count (ctr st') = 0
  | _ => False
  end.
Proof.
  intros e.
  destruct (gz_preemption_counters e (sample_state false 2) (sample_zone 1024)
              eq_refl) as [H _].
  assert (Hok : is_Ok (gzalloc_alloc e (sample_state false 2)
                         (sample_zone 1024) TRUE) = true)
    by (vm_compute; reflexivity).
  destruct (gzalloc_alloc e (sample_state false 2) (sample_zone 1024) TRUE)
    as [[[a st'] z']| |] eqn:Hal; [|discriminate Hok|discriminate Hok].
  exact (H TRUE a st' z' eq_refl Hal).
Defined.

(** ** The cache as a queue *)

(** With the cursor at the capacity the slots are laid out as with the
    cursor at 0. *)
Lemma gzfc_ring_wrap (capacity : nat) (q pad : list Z) :
  length q = capacity ->
  gzfc (gzfc_ring capacity capacity q pad) = gzfc (gzfc_ring capacity 0 q pad).
Proof.
  intros Hq. unfold gzfc_ring. simpl gzfc.
  rewrite Nat.sub_diag, Nat.sub_0_r, drop_0, take_0.
  rewrite drop_ge, take_ge by lia. reflexivity.
Qed.

(** One admission takes the oldest address off the queue and puts the
    freed one at its end. *)
Lemma gzfc_ring_admit (capacity : Z) (c : nat) (h : Z) (t pad : list Z) (x : Z) :
  0 < capacity < 2 ^ 32 ->
  length (h :: t) = Z.to_nat capacity ->
  (c <= Z.to_nat capacity)%nat ->
  exists c',
    (c' <= Z.to_nat capacity)%nat
    /\ gzfc_admit capacity (gzfc_ring (Z.to_nat capacity) c (h :: t) pad) x
       = Ok (h, gzfc_ring (Z.to_nat capacity) c' (t ++ [x]) pad).
Proof.
  intros Hcap Hq Hc. set (N := Z.to_nat capacity) in *.
  set (c0 := if decide (c = N) then 0%nat else c).
  assert (Hc0 : (c0 < N)%nat) by (subst c0; case_decide; simpl in Hq; lia).
  exists (S c0). split; [lia|].
  assert (Hslot : (if capacity <=? Z.of_nat c then 0 else Z.of_nat c)
                  = Z.of_nat c0).
  { subst c0. case_decide.
    - destruct (Z.leb_spec capacity (Z.of_nat c)); lia.
    - destruct (Z.leb_spec capacity (Z.of_nat c)); lia. }
  assert (Hcont : gzfc (gzfc_ring N c (h :: t) pad)
                  = gzfc (gzfc_ring N c0 (h :: t) pad)).
  { subst c0. case_decide; [subst c; now apply gzfc_ring_wrap | reflexivity]. }
  unfold gzfc_admit. rewrite Hcont.
  unfold gzfc_ring at 1. simpl gzfc_index. rewrite Hslot, Nat2Z.id.
  unfold gzfc_ring. simpl gzfc.
  simpl in Hq.
  replace (N - c0)%nat with (S (N - S c0)) by lia.
  set (k := (N - S c0)%nat). simpl drop. simpl take.
  assert (Hk : length (drop k t) = c0) by (rewrite length_drop; lia).
  rewrite lookup_app_r by lia. rewrite Hk, Nat.sub_diag. simpl.
  rewrite <- Hk at 2.
  replace (length (drop k t)) with (length (drop k t) + 0)%nat by lia.
  rewrite insert_app_r. simpl.
  rewrite drop_app_le, take_app_le by lia.
  rewrite <- app_assoc. simpl.
  replace (u32 (Z.of_nat c0 + 1)) with (Z.of_nat (S c0))
    by (unfold u32; rewrite Z.mod_small; lia).
  reflexivity.
Qed.

Lemma gzfc_ring_admit_all (capacity : Z) (pad : list Z) (l : list Z) :
  0 < capacity < 2 ^ 32 ->
  forall (q : list Z) (c : nat),
    length q = Z.to_nat capacity ->
    (c <= Z.to_nat capacity)%nat ->
    exists c',
      (c' <= Z.to_nat capacity)%nat
      /\ gzfc_admit_all capacity (gzfc_ring (Z.to_nat capacity) c q pad) l
         = Ok (take (length l) (q ++ l),
               gzfc_ring (Z.to_nat capacity) c' (drop (length l) (q ++ l)) pad).
Proof.
  intros Hcap. induction l as [|x l IH]; intros q c Hq Hc.
  - exists c. split; [exact Hc|]. simpl. now rewrite app_nil_r.
  - destruct q as [|h t]; [simpl in Hq; lia|].
    destruct (gzfc_ring_admit capacity c h t pad x Hcap Hq Hc)
      as (c1 & Hc1 & Had).
    destruct (IH (t ++ [x]) c1) as (c' & Hc' & Hall);
      [rewrite length_app; simpl in *; lia | exact Hc1 |].
    exists c'. split; [exact Hc'|].
    simpl gzfc_admit_all. rewrite Had. simpl. rewrite Hall. simpl.
    rewrite <- !app_assoc. reflexivity.
Qed.

(** X17.  The cache evicts in the order of freeing, for runs of any
    length: the eviction candidates that admitting a list of addresses to
    a fresh cache returns are that list delayed by the capacity, that is,
    as many "none" as the capacity and then the addresses in the order
    they were admitted; what the cache holds afterwards is the last
    [capacity] entries of that sequence. *)
Theorem gzfc_admit_all_fifo (capacity : Z) (n : nat) (saddrs : list Z) :
  0 < capacity < 2 ^ 32 ->
  (Z.to_nat capacity <= n)%nat ->
  let delayed := replicate (Z.to_nat capacity) 0 ++ saddrs in
  exists c,
    (c <= Z.to_nat capacity)%nat
    /\ gzfc_admit_all capacity (gzfc_fresh n) saddrs
       = Ok (take (length saddrs) delayed,
             gzfc_ring (Z.to_nat capacity) c (drop (length saddrs) delayed)
                       (replicate (n - Z.to_nat capacity) 0)).
Proof.
  intros Hcap Hn delayed. set (N := Z.to_nat capacity) in *.
  assert (Hfresh : gzfc_fresh n
                   = gzfc_ring N 0 (replicate N 0) (replicate (n - N) 0)).
  { unfold gzfc_fresh, gzfc_ring. simpl. f_equal.
    rewrite Nat.sub_0_r, drop_ge, take_ge by (rewrite length_replicate; lia).
    simpl. rewrite <- replicate_add. f_equal. lia. }
  rewrite Hfresh.
  apply gzfc_ring_admit_all; [exact Hcap | apply length_replicate | lia].
Qed.

Lemma gzfc_admit_all_fifo_witness :
  exists c,
    (c <= 2)%nat
    /\ gzfc_admit_all 2 (gzfc_fresh 4) [0x1000; 0x3000; 0x5000; 0x7000; 0x9000]
       = Ok ([0; 0; 0x1000; 0x3000; 0x5000],
             gzfc_ring 2 c [0x7000; 0x9000] [0; 0]).
Proof.
  exact (gzfc_admit_all_fifo 2 4 [0x1000; 0x3000; 0x5000; 0x7000; 0x9000]
           (conj eq_refl eq_refl) (le_S _ _ (le_S _ _ (le_n _)))).
Defined.

(** ** The eligibility gate *)

(** X19.  The eligibility test gates both paths alike and nothing after
    start-up changes it: for a zone that is not eligible, [gzalloc_alloc]
    returns 0 and [gzalloc_free] returns FALSE with the state and the zone
    as they were; a free that returns reports the free as handled exactly
    when the zone is eligible; and no call of [gzalloc_zone_init],
    [gzalloc_alloc] or [gzalloc_free] that returns changes the
    configuration, or the element size or exemption of the zone. *)
Theorem gz_eligibility_gate e st z :
  (gz_eligible (cfg st) z = false ->
   forall canblock addr,
     gzalloc_alloc e st z canblock = Ok (0, st, z)
     /\ gzalloc_free e st z addr = Ok (false, st, z))
  /\ (forall addr b st' z',
         gzalloc_free e st z addr = Ok (b, st', z') ->
         b = gz_eligible (cfg st) z
         /\ cfg st' = cfg st
         /\ forall c, gz_eligible c z' = gz_eligible c z)
  /\ (forall canblock addr st' z',
         gzalloc_alloc e st z canblock = Ok (addr, st', z') ->
         cfg st' = cfg st /\ forall c, gz_eligible c z' = gz_eligible c z)
  /\ (forall st' z',
         gzalloc_zone_init e st z = Ok (st', z') ->
         cfg st' = cfg st /\ forall c, gz_eligible c z' = gz_eligible c z).
Proof.
  split; [|split; [|split]].
  - intros He canblock addr. unfold gzalloc_alloc, gzalloc_free.
    rewrite He. split; reflexivity.
  - intros addr b st' z' H.
    destruct (gzalloc_free_step _ _ _ _ _ _ _ H) as [(Hc & _ & _ & Hs & Hx) _].
    split; [|split; [exact Hc|]].
    + unfold gzalloc_free in H.
      destruct (gz_eligible (cfg st) z); [|now injection H as <- _ _].
      destruct (gzfree_locate _ z addr) as [gzh saddr].
      unfold assert, panic_if, gzfc_admit in H.
      destruct (gzfree_check z (mem st gzh)) as [[]|?|];
        repeat (case_match; simpl in *; try discriminate);
        now injection H as <- _ _.
    + intros c. unfold gz_eligible. now rewrite Hs, Hx.
  - intros canblock addr st' z' H.
    unfold gzalloc_alloc, gzalloc_backing, panic_if in H.
    repeat (case_match; simpl in *; try discriminate); simplify_eq;
      split; reflexivity.
  - intros st' z' H. unfold gzalloc_zone_init, panic_if in H.
    repeat (case_match; simpl in *; try discriminate); simplify_eq;
      split; reflexivity.
Qed.

Lemma gz_eligibility_gate_witness :
  let st := sample_state false 2 in
  let z := sample_zone 512 in
  gzalloc_alloc (sample_env 0 0xffffff8100000000) st z TRUE = Ok (0, st, z)
  /\ gzalloc_free (sample_env 0 0xffffff8100000000) st z 0xffffff8100000c00
     = Ok (false, st, z).
Proof.
  intros st z.
  destruct (gz_eligibility_gate (sample_env 0 0xffffff8100000000) st z)
    as [H _].
  exact (H eq_refl TRUE 0xffffff8100000c00).
Defined.
